(** * Zeno crawl engine: redirect following, capture and the Kafka bridge

    A shallow embedding of [internal/pkg/crawl/capture.go] and
    [internal/pkg/crawl/kafka.go] and the properties their specification
    states about them.

    Go pointers that the code dereferences are [option]s and a nil
    dereference is the [Panic] outcome; fixed-width integers are [Z] with the
    wrap-around written where the code does arithmetic; the network, the
    Kafka client and the shared flags and counters written by other
    goroutines are oracles over an abstract world; every effect the code has
    on the outside (HTTP round trips, log records, goroutine starts, Kafka
    calls, sleeps) is appended to a chronological trace, and what is sent
    on the push channel of the frontier is kept in the order of the sends. *)

From Stdlib Require Import ZArith Lia String Ascii List.
From stdpp Require Import base option strings gmap list pretty.

Local Set Warnings "-register-all".
Local Open Scope string_scope.
Local Open Scope list_scope.
Local Open Scope Z_scope.

(** ** Go's integers, strings and durations *)

Module Go.

(** [uint8], [uint] (64 bits) and [int64] arithmetic wraps around. *)
Definition uint8 (z : Z) : Z := z mod 2 ^ 8.
Definition uint (z : Z) : Z := z mod 2 ^ 64.
Definition int64 (z : Z) : Z := (z + 2 ^ 63) mod 2 ^ 64 - 2 ^ 63.

Definition uint8_range (z : Z) : Prop := 0 <= z < 2 ^ 8.
Definition uint_range (z : Z) : Prop := 0 <= z < 2 ^ 64.
Definition int64_range (z : Z) : Prop := - 2 ^ 63 <= z < 2 ^ 63.

(** [len(s)] of a string, as a Go [int]. *)
Definition len (s : string) : Z := Z.of_nat (String.length s).

(** [strings.HasPrefix(s, prefix)]. *)
Definition strings_HasPrefix (s prefix : string) : bool := String.prefix prefix s.

(** [strings.Contains(s, substr)]: [substr] occurs at some offset of [s]. *)
Fixpoint strings_Contains (s substr : string) : bool :=
  String.prefix substr s ||
  match s with
  | EmptyString => false
  | String _ s' => strings_Contains s' substr
  end.

(** [time.Duration] counts nanoseconds. *)
Definition time_Second : Z := 1000000000.

(** [textproto.CanonicalMIMEHeaderKey] on header names made of letters,
    digits and hyphens: the first letter and every letter after a hyphen
    in upper case, the others in lower case. *)
Definition upper (a : ascii) : ascii :=
  let n := nat_of_ascii a in
  if (Nat.leb 97 n && Nat.leb n 122)%bool then ascii_of_nat (n - 32) else a.
Definition lower (a : ascii) : ascii :=
  let n := nat_of_ascii a in
  if (Nat.leb 65 n && Nat.leb n 90)%bool then ascii_of_nat (n + 32) else a.
Fixpoint canonical (up : bool) (s : string) : string :=
  match s with
  | EmptyString => EmptyString
  | String a s' =>
      String (if up then upper a else lower a)
             (canonical (Ascii.eqb a "-"%char) s')
  end.
Definition CanonicalMIMEHeaderKey (s : string) : string := canonical true s.

(** net/http's cookie sanitizers, which [Request.AddCookie] applies.
    [sanitizeCookieName] replaces line feeds and carriage returns by a
    hyphen.  [sanitizeCookieValue] drops the bytes that are not
    [validCookieValueByte] (control bytes, bytes from 0x7f on, the double
    quote, the semicolon and the backslash) and, when what is left is not
    empty and holds a space or a comma, puts it between double quotes.
    A cookie is its name and its value; the [Quoted] flag of later
    releases of net/http is not modelled. *)
Definition double_quote : ascii := ascii_of_nat 34.
Fixpoint sanitizeCookieName (n : string) : string :=
  match n with
  | EmptyString => EmptyString
  | String a n' =>
      String (if (Ascii.eqb a (ascii_of_nat 10) || Ascii.eqb a (ascii_of_nat 13))%bool
              then "-"%char else a)
             (sanitizeCookieName n')
  end.
Definition validCookieValueByte (a : ascii) : bool :=
  let b := nat_of_ascii a in
  (Nat.leb 32 b && Nat.ltb b 127 && negb (Nat.eqb b 34) && negb (Nat.eqb b 59)
   && negb (Nat.eqb b 92))%bool.
Fixpoint keep_bytes (valid : ascii -> bool) (v : string) : string :=
  match v with
  | EmptyString => EmptyString
  | String a v' =>
      if valid a then String a (keep_bytes valid v') else keep_bytes valid v'
  end.
Fixpoint has_byte (v : string) (b : ascii) : bool :=
  match v with
  | EmptyString => false
  | String a v' => (Ascii.eqb a b || has_byte v' b)%bool
  end.
Definition sanitizeCookieValue (v : string) : string :=
  let v := keep_bytes validCookieValueByte v in
  match v with
  | EmptyString => v
  | _ =>
      if (has_byte v " "%char || has_byte v ","%char)%bool
      then String double_quote (v ++ String double_quote EmptyString)
      else v
  end.

End Go.

(** ** The standard library's net/url *)

(** [url.URL] values, [url.Parse] (which can fail) and the [String] and
    [Host] accessors are taken as they are.  *)
Class NetURL := {
  url_URL : Type;
  url_Parse : string -> option url_URL;
  URL_String : url_URL -> string;
  URL_Host : url_URL -> string
}.

(** Go's [error] values carry a message. *)
Definition error : Type := string.

(** ** net/http values *)

Section HTTP.
Context {U : NetURL}.

(** [http.Header] with single-valued entries: [Set] replaces the entry of
    the canonical key and [Get] reads it, the empty string when absent. *)
Definition Header_Get (h : gmap string string) (key : string) : string :=
  default "" (h !! Go.CanonicalMIMEHeaderKey key).
Definition Header_Set (h : gmap string string) (key value : string)
  : gmap string string :=
  <[Go.CanonicalMIMEHeaderKey key := value]> h.

Record http_Cookie := { Name : string; Value : string }.

Record http_Request := {
  req_URL : url_URL;
  req_Header : gmap string string
}.

Definition req_Header_Set (req : http_Request) (key value : string) : http_Request :=
  {| req_URL := req_URL req; req_Header := Header_Set (req_Header req) key value |}.

(** [http.NewRequest("GET", s, nil)] parses [s] and starts from an empty
    header. *)
Definition http_NewRequest (s : string) : option http_Request :=
  match url_Parse s with
  | Some u => Some {| req_URL := u; req_Header := ∅ |}
  | None => None
  end.

(** [req.AddCookie(c)] extends the [Cookie] header with the sanitized
    name and value, after a semicolon when the header is not empty. *)
Definition AddCookie (req : http_Request) (c : http_Cookie) : http_Request :=
  let s := (Go.sanitizeCookieName (Name c) ++ "=" ++ Go.sanitizeCookieValue (Value c))%string in
  let old := Header_Get (req_Header req) "Cookie" in
  if String.eqb old "" then req_Header_Set req "Cookie" s
  else req_Header_Set req "Cookie" (old ++ "; " ++ s)%string.

Record http_Response := {
  StatusCode : Z;
  resp_Header : gmap string string;
  resp_Request : http_Request;
  resp_Cookies : list http_Cookie
}.
End HTTP.

(** ** Package frontier: the work item *)

(** Modelled from the spec: the item hash is a deterministic 64-bit hash of
    the URL string; the hash function itself is not among the sources. *)
Class URLHash := { HashString : string -> Z }.

Module frontier.
Section Item.
Context {U : NetURL} {H : URLHash}.

(** Modelled from the spec: the declaration of [frontier.Item] is not
    among the sources.  Its fields are the ones the crawl package reads
    and writes; [Hop] is a [uint8] (it is assigned to and from the
    message's [uint8] hop count), [Redirect] is the unsigned redirect
    counter of the data model, [URL] and [ParentItem] are pointers. *)
Inductive Item : Type := mkItem {
  Hash : Z;
  Hop : Z;
  Type_ : string;
  Redirect : Z;
  URL : option url_URL;
  ParentItem : option Item
}.

(** [new(frontier.Item)]: every field at its zero value. *)
Definition zero : Item :=
  {| Hash := 0; Hop := 0; Type_ := ""; Redirect := 0;
     URL := None; ParentItem := None |}.

Definition set_Redirect (it : Item) (r : Z) : Item :=
  {| Hash := Hash it; Hop := Hop it; Type_ := Type_ it; Redirect := r;
     URL := URL it; ParentItem := ParentItem it |}.

(** Modelled from the spec: [frontier.NewItem(URL, parentItem, itemType,
    hop)] is not among the sources.  It allocates an item with the given
    URL, parent, type and hop, the hash of the URL string, and the
    redirect counter at zero. *)
Definition NewItem (u : url_URL)
    (parentItem : option Item) (itemType : string) (hop : Z) : Item :=
  {| Hash := HashString (URL_String u); Hop := hop; Type_ := itemType;
     Redirect := 0; URL := Some u; ParentItem := parentItem |}.
End Item.
End frontier.

(** ** Package crawl: configuration, environment and state *)

(** The Kafka wire record of kafka.go. *)
Record kafkaMessage := {
  URL : string;
  HopsCount : Z;
  ParentURL : string
}.

(** What [json.Unmarshal] into a [*kafkaMessage] can do: fail, set the
    pointer to nil (the JSON value null), or fill the record. *)
Inductive Unmarshalled :=
| UnmarshalError (err : error)
| UnmarshalNull
| UnmarshalOk (m : kafkaMessage).

(** Everything outside the two source files: the HTTP transport, the HTML
    parser, the JSON codec, the Kafka client, and the flags and counters
    that other goroutines write.  Each call may change the world. *)
Class Runtime {U : NetURL} := {
  World : Type;
  http_Client : Type;
  Client_Do : http_Client -> http_Request -> World -> (http_Response + error) * World;
  goquery_Document : Type;
  goquery_NewDocumentFromResponse : http_Response -> option goquery_Document;
  json_Marshal : kafkaMessage -> list Byte.byte + error;
  json_Unmarshal : list Byte.byte -> Unmarshalled;
  kafka_NewProducer : World -> option error * World;
  kafka_NewConsumer : World -> option error * World;
  Producer_Produce : string -> list Byte.byte -> World -> option error * World;
  Consumer_ReadMessage : Z -> World -> (list Byte.byte + error) * World;
  Finished_Get : World -> bool * World;
  ActiveWorkers_Value : World -> Z * World;
  (** whether a probe of the seencheck store fails, and with what *)
  Seencheck_probe : World -> option error * World;
  (** functions of the repository that are not among the sources *)
  isRedirection : Z -> bool;
  StringContainsSliceElements : string -> list string -> bool
}.

(** A call returns, panics (a nil dereference, or [panic(err)]), or exhausts the recursion
    budget of the model. *)
Inductive Outcome (A : Type) :=
| Ok (a : A)
| Panic
| OutOfFuel.
Arguments Ok {A} a.
Arguments Panic {A}.
Arguments OutOfFuel {A}.

Section Crawl.
Context {U : NetURL} {H : URLHash} {R : Runtime}.

Local Abbreviation Item := frontier.Item.

(** The fields of [Crawl] that the two files read. *)
Record Crawl := {
  Client : http_Client;
  ClientProxied : option http_Client;
  BypassProxy : list string;
  UserAgent : string;
  MaxRedirect : Z;
  MaxHops : Z;
  Seencheck : bool;
  Workers : Z;
  KafkaOutlinksTopic : string
}.

(** Effects visible from outside, in the order they happen.  [EvDo] is one
    HTTP round trip; it also remembers the item it was made for.
    [EvGoConsume] is the start of the consumer's goroutine (line 117),
    with the time of the thread that starts it. *)
Inductive Event :=
| EvDo (item : Item) (client : http_Client) (req : http_Request)
| EvLogSuccess (url : string) (status_code hop : Z) (type : string) (queued : Z)
| EvLogWarning (msg : string) (err : error)
| EvLogDebug (msg : string)
| EvGoQueueOutlinks (outlinks : list url_URL) (item : Item)
| EvProduce (item : Item) (value : list Byte.byte) (err : option error)
| EvFlush (ms : Z)
| EvSleep (d : Z)
| EvReadMessage (at_time timeout : Z)
| EvPoolAdd
| EvPoolDone
| EvPoolWait
| EvClose
| EvGoConsume (at_time : Z).

(** The mutable part: the world, [c.Frontier.QueueCount] (an int64
    counter), the seencheck store, what has been sent on
    [c.Frontier.PushChan] (oldest first), a clock in nanoseconds that
    [time.Sleep] advances, and the trace. *)
Record State := {
  crawl_world : World;
  QueueCount : Z;
  SeencheckDB : gmap string string;
  PushChan : list Item;
  now : Z;
  trace : list Event
}.

Definition set_world (w : World) (s : State) : State :=
  {| crawl_world := w; QueueCount := QueueCount s; SeencheckDB := SeencheckDB s;
     PushChan := PushChan s; now := now s; trace := trace s |}.
Definition set_QueueCount (q : Z) (s : State) : State :=
  {| crawl_world := crawl_world s; QueueCount := q; SeencheckDB := SeencheckDB s;
     PushChan := PushChan s; now := now s; trace := trace s |}.
Definition set_SeencheckDB (db : gmap string string) (s : State) : State :=
  {| crawl_world := crawl_world s; QueueCount := QueueCount s; SeencheckDB := db;
     PushChan := PushChan s; now := now s; trace := trace s |}.
Definition set_PushChan (ch : list Item) (s : State) : State :=
  {| crawl_world := crawl_world s; QueueCount := QueueCount s; SeencheckDB := SeencheckDB s;
     PushChan := ch; now := now s; trace := trace s |}.
Definition set_now (t : Z) (s : State) : State :=
  {| crawl_world := crawl_world s; QueueCount := QueueCount s; SeencheckDB := SeencheckDB s;
     PushChan := PushChan s; now := t; trace := trace s |}.
Definition set_trace (tr : list Event) (s : State) : State :=
  {| crawl_world := crawl_world s; QueueCount := QueueCount s; SeencheckDB := SeencheckDB s;
     PushChan := PushChan s; now := now s; trace := tr |}.

Definition M (A : Type) : Type := State -> Outcome A * State.

#[export] Instance M_ret : MRet M := fun A a s => (Ok a, s).
#[export] Instance M_bind : MBind M := fun A B f m s =>
  match m s with
  | (Ok a, s') => f a s'
  | (Panic, s') => (Panic, s')
  | (OutOfFuel, s') => (OutOfFuel, s')
  end.

Definition panic {A} : M A := fun s => (Panic, s).
Definition out_of_fuel {A} : M A := fun s => (OutOfFuel, s).
Definition get : M State := fun s => (Ok s, s).
Definition modify (f : State -> State) : M unit := fun s => (Ok tt, f s).
Definition emit (e : Event) : M unit := modify (fun s => set_trace (trace s ++ [e]) s).

(** Run an oracle on the world. *)
Definition ask {A} (f : World -> A * World) : M A := fun s =>
  let '(a, w) := f (crawl_world s) in (Ok a, set_world w s).

(** [p.f] on a pointer [p]. *)
Definition deref {A} (p : option A) : M A :=
  match p with
  | Some a => mret a
  | None => panic
  end.
(** ** capture.go *)

(** What [executeGET] hands back: [(resp, nil)], or an error together with
    whatever response there was. *)
Inductive GetResult :=
| GetOk (resp : http_Response)
| GetErr (resp : option http_Response) (err : error).

(** [c.Client.Do(req)] or [c.ClientProxied.Do(req)], recorded as a fetch
    made for [item]. *)
Definition Do (item : Item) (client : http_Client) (req : http_Request)
  : M (http_Response + error) :=
  emit (EvDo item client req);;
  ask (Client_Do client req).

(** The transport test of line 23. *)
Definition selectClient (c : Crawl) (req : http_Request) : http_Client :=
  match ClientProxied c with
  | None => Client c
  | Some proxied =>
      if StringContainsSliceElements (URL_Host (req_URL req)) (BypassProxy c)
      then Client c else proxied
  end.

(** [executeGET], lines 17-65.  Besides the result it returns the request
    object [req] as the call leaves it: the three headers of lines 55-57
    are written to [req], after [req] has been sent, and the request of the
    next hop is [newReq]. *)
Fixpoint executeGET_fuel (fuel : nat) (c : Crawl) (parentItem : Item)
    (req : http_Request) : M (http_Request * GetResult) :=
  match fuel with
  | O => out_of_fuel
  | S fuel' =>
      r ← Do parentItem (selectClient c req) req;
      match r with
      | inr err => mret (req, GetErr None err)
      | inl resp =>
          if isRedirection (StatusCode resp) then
            let location := Header_Get (resp_Header resp) "location" in
            if String.eqb location (URL_String (req_URL req))
               || (MaxRedirect c <=? frontier.Redirect parentItem)
            then mret (req, GetOk resp)
            else
              match url_Parse location with
              | None => mret (req, GetErr (Some resp) "parse")
              | Some URL =>
                  let newItem :=
                    frontier.set_Redirect
                      (frontier.NewItem URL (Some parentItem)
                         (frontier.Type_ parentItem) (frontier.Hop parentItem))
                      (Go.uint (frontier.Redirect parentItem + 1)) in
                  match http_NewRequest (URL_String URL) with
                  | None => mret (req, GetErr (Some resp) "NewRequest")
                  | Some newReq =>
                      let req := req_Header_Set req "User-Agent" (UserAgent c) in
                      let req := req_Header_Set req "Accept-Encoding" "*/*" in
                      parent ← deref (frontier.ParentItem newItem);
                      parentURL ← deref (frontier.URL parent);
                      let req := req_Header_Set req "Referer" (URL_String parentURL) in
                      '(_, res) ← executeGET_fuel fuel' c newItem newReq;
                      mret (req, res)
                  end
              end
          else mret (req, GetOk resp)
      end
  end.

(** The redirect counter only grows while it is below [MaxRedirect], so
    this budget is never exhausted (see [executeGET_fuel_enough]). *)
Definition executeGET (c : Crawl) (parentItem : Item) (req : http_Request)
  : M (http_Request * GetResult) :=
  executeGET_fuel (S (Z.to_nat (MaxRedirect c - frontier.Redirect parentItem)))
    c parentItem req.

(** [logCrawlSuccess]: the fields read from counters that these files never
    write (crawled, rate, active workers) and the elapsed time are left out
    of the record. *)
Definition logCrawlSuccess (statusCode : Z) (item : Item) : M unit :=
  s ← get;
  u ← deref (frontier.URL item);
  emit (EvLogSuccess (URL_String u) statusCode (frontier.Hop item)
          (frontier.Type_ item) (QueueCount s)).

Definition logWarning (msg : string) (err : error) : M unit :=
  emit (EvLogWarning msg err).

(** [c.Frontier.QueueCount.Incr(n)]. *)
Definition QueueCount_Incr (n : Z) : M unit :=
  modify (fun s => set_QueueCount (Go.int64 (QueueCount s + n)) s).

(** Modelled from the spec: the seencheck store is not among the sources.
    It maps the decimal string of a URL hash to a type; [IsSeen] probes
    existence and returns the answer with an error: a probe that fails
    reports its error and answers false, so that a caller that drops the
    error takes the key as not seen; [Seen] records, and marking again
    leaves the stored value. *)
Definition Seencheck_IsSeen (hash : string) : M (bool * option error) :=
  failure ← ask Seencheck_probe;
  match failure with
  | Some err => mret (false, Some err)
  | None =>
      s ← get;
      mret (bool_decide (is_Some (SeencheckDB s !! hash)), None)
  end.
Definition Seencheck_Seen (hash value : string) : M unit :=
  modify (fun s =>
    match SeencheckDB s !! hash with
    | Some _ => s
    | None => set_SeencheckDB (<[hash := value]> (SeencheckDB s)) s
    end).

(** [strconv.FormatUint(h, 10)]. *)
Definition FormatUint (h : Z) : string := pretty (Z.to_N h).

(** [captureAsset], lines 67-107; the result is the Go [error].  The
    second result of [IsSeen] is dropped, as on line 75. *)
Definition captureAsset (c : Crawl) (item : Item) (cookies : list http_Cookie)
  : M (option error) :=
  skip ←
    (if Seencheck c then
       let hash := FormatUint (frontier.Hash item) in
       '(found, _) ← Seencheck_IsSeen hash;
       if (found : bool) then mret true
       else Seencheck_Seen hash (frontier.Type_ item);; mret false
     else mret false);
  if (skip : bool) then mret None
  else
    u ← deref (frontier.URL item);
    match http_NewRequest (URL_String u) with
    | None => mret (Some "NewRequest")
    | Some req =>
        parent ← deref (frontier.ParentItem item);
        parentURL ← deref (frontier.URL parent);
        let req := req_Header_Set req "Referer" (URL_String parentURL) in
        let req := fold_left AddCookie cookies req in
        '(_, res) ← executeGET c item req;
        match res with
        | GetErr _ err =>
            logWarning (URL_String u) err;;
            mret (Some err)
        | GetOk resp =>
            logCrawlSuccess (StatusCode resp) item;;
            mret None
        end
    end.

(** One turn of the asset loop of [Capture] after the decrement of line
    186: lines 188-207. *)
Definition captureAssets_body (c : Crawl) (item : Item) (itemURL : url_URL)
    (resp : http_Response) (asset : url_URL) : M unit :=
  if String.eqb (URL_String itemURL) (URL_String asset) then mret tt
  else
    let newAsset := frontier.NewItem asset (Some item) "asset" (frontier.Hop item) in
    err ← captureAsset c newAsset (resp_Cookies resp);
    match err with
    | Some e => logWarning (URL_String asset) e
    | None => mret tt
    end.

(** [for _, asset := range assets], lines 185-208. *)
Fixpoint captureAssets (c : Crawl) (item : Item) (itemURL : url_URL)
    (resp : http_Response) (assets : list url_URL) : M unit :=
  match assets with
  | [] => mret tt
  | asset :: rest =>
      QueueCount_Incr (-1);;
      captureAssets_body c item itemURL resp asset;;
      captureAssets c item itemURL resp rest
  end.

Section Extractors.
(** [extractOutlinks] and [c.extractAssets] are functions of the repository
    that are not among the sources: from a base URL and a parsed document
    to a list of URLs, or an error. *)
Variable extractOutlinks : url_URL -> goquery_Document -> list url_URL + error.
Variable extractAssets : Crawl -> url_URL -> goquery_Document -> list url_URL + error.

(** What [Capture] does with the result of the fetch, lines 130-208.
    [go c.queueOutlinks(outlinks, item)] starts a goroutine whose code is
    not among the sources; the start is recorded with its two arguments. *)
Definition Capture_result (c : Crawl) (item : Item) (itemURL : url_URL)
    (res : GetResult) : M unit :=
  match res with
  | GetErr _ err => logWarning (URL_String itemURL) err
  | GetOk resp =>
      logCrawlSuccess (StatusCode resp) item;;
      if negb (Go.strings_Contains (Header_Get (resp_Header resp) "Content-Type") "text/")
      then mret tt
      else
        match url_Parse (URL_String (req_URL (resp_Request resp))) with
        | None => logWarning (URL_String itemURL) "parse"
        | Some base =>
            match goquery_NewDocumentFromResponse resp with
            | None => logWarning (URL_String itemURL) "goquery"
            | Some doc =>
                continue ←
                  (if frontier.Hop item <? MaxHops c then
                     match extractOutlinks base doc with
                     | inr err => logWarning (URL_String itemURL) err;; mret false
                     | inl outlinks => emit (EvGoQueueOutlinks outlinks item);; mret true
                     end
                   else mret true);
                if (continue : bool) then
                  match extractAssets c base doc with
                  | inr err => logWarning (URL_String itemURL) err
                  | inl assets =>
                      QueueCount_Incr (Z.of_nat (length assets));;
                      captureAssets c item itemURL resp assets
                  end
                else mret tt
            end
        end
  end.

(** The request of [Capture] with its Referer, lines 115-127. *)
Definition Capture_request (item : Item) (itemURL : url_URL) (req : http_Request)
  : M http_Request :=
  if 0 <? frontier.Hop item then
    parent ← deref (frontier.ParentItem item);
    parentURL ← deref (frontier.URL parent);
    if 0 <? Go.len (URL_String parentURL)
    then mret (req_Header_Set req "Referer" (URL_String parentURL))
    else mret (req_Header_Set req "Referer" (URL_Host itemURL))
  else mret (req_Header_Set req "Referer" (URL_Host itemURL)).

(** [Capture], lines 110-209. *)
Definition Capture (c : Crawl) (item : Item) : M unit :=
  itemURL ← deref (frontier.URL item);
  match http_NewRequest (URL_String itemURL) with
  | None => logWarning (URL_String itemURL) "NewRequest"
  | Some req =>
      req ← Capture_request item itemURL req;
      '(_, res) ← executeGET c item req;
      Capture_result c item itemURL res
  end.
End Extractors.
(** ** kafka.go *)

(** [crawl.Frontier.PushChan <- item]. *)
Definition PushChan_send (item : Item) : M unit :=
  modify (fun s => set_PushChan (PushChan s ++ [item]) s).

(** [time.Sleep(d)]. *)
Definition Sleep (d : Z) : M unit :=
  modify (fun s => set_now (now s + d) s);;
  emit (EvSleep d).

(** The body of the producer's loop after the [Finished] test, lines
    54-78.  The call of [p.Produce] is recorded with the item it was made
    for and with what it returned. *)
Definition produceItem (crawl : Crawl) (item : Item) : M unit :=
  u ← deref (frontier.URL item);
  parentURL ←
    match frontier.ParentItem item with
    | Some parent => pu ← deref (frontier.URL parent); mret (URL_String pu)
    | None => mret ""
    end;
  let newKafkaMessage :=
    {| URL := URL_String u; HopsCount := frontier.Hop item; ParentURL := parentURL |} in
  newKafkaMessageBytes ←
    match json_Marshal newKafkaMessage with
    | inl bytes => mret bytes
    | inr err =>
        logWarning "Unable to marshal message before sending to KAfka" err;;
        mret []
    end;
  err ← ask (Producer_Produce (KafkaOutlinksTopic crawl) newKafkaMessageBytes);
  emit (EvProduce item newKafkaMessageBytes err);;
  match err with
  | Some e =>
      logWarning "Failed to produce message to Kafka, pushing the seed to the local queue instead" e;;
      PushChan_send item
  | None => mret tt
  end.

(** [for item := range crawl.KafkaProducerChannel], lines 49-79, over the
    items the channel delivers. *)
Fixpoint kafkaProducer_loop (crawl : Crawl) (channel : list Item) : M unit :=
  match channel with
  | [] => mret tt
  | item :: rest =>
      finished ← ask Finished_Get;
      if (finished : bool) then mret tt
      else produceItem crawl item;; kafkaProducer_loop crawl rest
  end.

(** [defer cleanup] before [body]: [cleanup] runs when [body] returns and
    also when it panics, and the outcome is the one of [body]. *)
Definition defer {A} (cleanup : M unit) (body : M A) : M A := fun s =>
  let '(out, s') := body s in
  match out with
  | OutOfFuel => (out, s')
  | _ => (out, (cleanup s').2)
  end.

(** [kafkaProducer], lines 21-83, without the goroutine that logs delivery
    reports.  [p.Close()] is deferred on line 26, after the panic of line
    24. *)
Definition kafkaProducer (crawl : Crawl) (channel : list Item) : M unit :=
  err ← ask kafka_NewProducer;
  match err with
  | Some _ => panic
  | None =>
      defer (emit EvClose)
        (kafkaProducer_loop crawl channel;;
         emit (EvFlush (15 * 1000)))
  end.

(** The goroutine started by the consumer, lines 117-182. *)
Definition kafkaConsumeMessage (crawl : Crawl) : M unit :=
  s ← get;
  emit (EvReadMessage (now s) 15);;
  msg ← ask (Consumer_ReadMessage 15);
  match msg with
  | inr err =>
      emit (EvLogDebug "Unable to read message from Kafka");;
      Sleep (Go.time_Second * 3);;
      emit EvPoolDone
  | inl value =>
      emit (EvLogDebug "New message received from Kafka");;
      match json_Unmarshal value with
      | UnmarshalError err =>
          logWarning "Unable to unmarshal message from Kafka" err;;
          emit EvPoolDone
      | UnmarshalNull => panic
      | UnmarshalOk newKafkaMessage =>
          match url_Parse (URL newKafkaMessage) with
          | None =>
              logWarning "Unable to parse URL from Kafka message" "parse";;
              emit EvPoolDone
          | Some newURL =>
              newItem ←
                (if 0 <? Go.len (ParentURL newKafkaMessage) then
                   match url_Parse (ParentURL newKafkaMessage) with
                   | None =>
                       logWarning "Unable to parse parent URL from Kafka message" "parse";;
                       mret frontier.zero
                   | Some newParentURL =>
                       let newParentItemHops :=
                         if 0 <? HopsCount newKafkaMessage
                         then Go.uint8 (HopsCount newKafkaMessage - 1) else 0 in
                       let newParentItem :=
                         frontier.NewItem newParentURL None "seed" newParentItemHops in
                       mret (frontier.NewItem newURL (Some newParentItem) "seed"
                               (HopsCount newKafkaMessage))
                   end
                 else
                   mret (frontier.NewItem newURL None "seed" (HopsCount newKafkaMessage)));
              PushChan_send newItem;;
              emit EvPoolDone
          end
      end
  end.

Inductive LoopControl := Continue | Break.

(** One turn of the consumer's [for] loop, lines 104-183, in the schedule
    in which the goroutine runs to its end where it is started. *)
Definition kafkaConsumer_iteration (crawl : Crawl) : M LoopControl :=
  finished ← ask Finished_Get;
  if (finished : bool) then
    emit EvPoolWait;; emit EvClose;; mret Break
  else
    active ← ask ActiveWorkers_Value;
    if Workers crawl - Z.quot (Workers crawl) 10 <=? active then
      Sleep (Go.time_Second * 1);; mret Continue
    else
      emit EvPoolAdd;;
      kafkaConsumeMessage crawl;;
      mret Continue.

(** The loop runs until [Finished] is set; [turns] bounds the prefix that
    is observed. *)
Fixpoint kafkaConsumer_loop (turns : nat) (crawl : Crawl) : M unit :=
  match turns with
  | O => out_of_fuel
  | S turns' =>
      ctl ← kafkaConsumer_iteration crawl;
      match ctl with
      | Break => mret tt
      | Continue => kafkaConsumer_loop turns' crawl
      end
  end.

(** [kafkaConsumer], lines 85-184. *)
Definition kafkaConsumer (turns : nat) (crawl : Crawl) : M unit :=
  err ← ask kafka_NewConsumer;
  match err with
  | Some _ => panic
  | None => kafkaConsumer_loop turns crawl
  end.

(** The thread of the consumer's loop alone, under any schedule: one turn
    of lines 104-183 in which [go func] of line 117 only starts the
    goroutine, whose body [kafkaConsumeMessage] runs on its own thread
    and is no part of the turn.  The clock is the one of this thread: it
    is a lower bound of the time at which the turn's effects happen
    ([kafkaWorkerPool.Add] may wait for a free slot, which only delays
    what follows). *)
Definition kafkaConsumer_turn (crawl : Crawl) : M LoopControl :=
  finished ← ask Finished_Get;
  if (finished : bool) then
    emit EvPoolWait;; emit EvClose;; mret Break
  else
    active ← ask ActiveWorkers_Value;
    if Workers crawl - Z.quot (Workers crawl) 10 <=? active then
      Sleep (Go.time_Second * 1);; mret Continue
    else
      emit EvPoolAdd;;
      s ← get;
      emit (EvGoConsume (now s));;
      mret Continue.

(** The first [turns] turns of the loop's thread. *)
Fixpoint kafkaConsumer_thread (turns : nat) (crawl : Crawl) : M unit :=
  match turns with
  | O => out_of_fuel
  | S turns' =>
      ctl ← kafkaConsumer_turn crawl;
      match ctl with
      | Break => mret tt
      | Continue => kafkaConsumer_thread turns' crawl
      end
  end.
End Crawl.

(** ** What is observed of a run *)

Section Observations.
Context {U : NetURL} {H : URLHash} {R : Runtime}.

(** The items for which HTTP round trips were made, in order. *)
Definition fetch_items (evs : list Event) : list frontier.Item :=
  omap (fun e => match e with EvDo item _ _ => Some item | _ => None end) evs.

(** The requests that were sent, in order. *)
Definition fetch_requests (evs : list Event) : list http_Request :=
  omap (fun e => match e with EvDo _ _ req => Some req | _ => None end) evs.

(** The items of a chain of redirects that starts at counter [r]: each one
    carries the counter of the one before plus one, and one is followed by
    another only if its counter is below [max]. *)
Fixpoint redirect_chain (max r : Z) (items : list frontier.Item) : Prop :=
  match items with
  | [] => True
  | item :: rest =>
      frontier.Redirect item = r /\
      (rest <> [] -> r < max) /\
      redirect_chain max (r + 1) rest
  end.

Definition is_EvGoQueueOutlinks (e : Event) : Prop :=
  match e with EvGoQueueOutlinks _ _ => True | _ => False end.

(** The items whose [Produce] call returned an error, in order. *)
Definition produce_failures (evs : list Event) : list frontier.Item :=
  omap (fun e => match e with EvProduce item _ (Some _) => Some item | _ => None end) evs.

(** A Kafka read that starts at [t] or later; any other event. *)
Definition no_read_before (t : Z) (e : Event) : Prop :=
  match e with EvReadMessage t' _ => t <= t' | _ => True end.

(** [steps Rel m]: whatever state [m] starts in, it ends in one related to
    it by [Rel], also when it panics. *)
Definition steps (Rel : State -> State -> Prop) {A} (m : M A) : Prop :=
  forall s, Rel s (m s).2.

(** The run only appends events that satisfy [P]. *)
Definition appends (P : Event -> Prop) (s s' : State) : Prop :=
  exists evs : list Event, trace s' = trace s ++ evs /\ Forall P evs.

(** [m] returns, whatever state it starts in: it neither panics nor
    exhausts a budget. *)
Definition returns {A} (m : M A) : Prop :=
  forall s, exists a, (m s).1 = Ok a.

Definition keeps_QueueCount (s s' : State) : Prop :=
  QueueCount s' = QueueCount s.

(** The clock does not go back and no Kafka read is stamped before the
    time the run started at. *)
Definition reads_later (s s' : State) : Prop :=
  now s <= now s' /\ appends (no_read_before (now s)) s s'.

(** What the run sent on the push channel is exactly the items whose
    [Produce] call failed during it, in that order, and these are among
    [candidates], in that order. *)
Definition pushes_failures (candidates : list frontier.Item) (s s' : State) : Prop :=
  exists evs : list Event,
    trace s' = trace s ++ evs /\
    PushChan s' = PushChan s ++ produce_failures evs /\
    produce_failures evs `sublist_of` candidates.
End Observations.

(** ** Further observations *)

Section Observations_more.
Context {U : NetURL} {H : URLHash} {R : Runtime}.

Definition is_EvDo (e : Event) : Prop :=
  match e with EvDo _ _ _ => True | _ => False end.

(** A fetch that goes through [client]; any other event. *)
Definition via_client (client : http_Client) (e : Event) : Prop :=
  match e with EvDo _ client' _ => client' = client | _ => True end.

(** A fetch made for an item of this type and hop count; any other event
    but the start of [queueOutlinks]. *)
Definition fetch_of_kind (type : string) (hop : Z) (e : Event) : Prop :=
  match e with
  | EvDo item _ _ => frontier.Type_ item = type /\ frontier.Hop item = hop
  | EvGoQueueOutlinks _ _ => False
  | _ => True
  end.

(** Each item but the first is a child of the one before it, of the same
    type and hop count. *)
Fixpoint linked (items : list frontier.Item) : Prop :=
  match items with
  | a :: rest =>
      match rest with
      | b :: _ =>
          frontier.ParentItem b = Some a /\
          frontier.Type_ b = frontier.Type_ a /\
          frontier.Hop b = frontier.Hop a
      | [] => True
      end /\ linked rest
  | [] => True
  end.

(** Only the world and the trace change, and the trace gains only events
    that satisfy [P]. *)
Definition only_appends (P : Event -> Prop) (s s' : State) : Prop :=
  QueueCount s' = QueueCount s /\
  SeencheckDB s' = SeencheckDB s /\
  PushChan s' = PushChan s /\
  now s' = now s /\
  appends P s s'.

(** The same, but for the seencheck store, which may change. *)
Definition quietly_appends (P : Event -> Prop) (s s' : State) : Prop :=
  QueueCount s' = QueueCount s /\
  PushChan s' = PushChan s /\
  now s' = now s /\
  appends P s s'.

(** Every entry of the seencheck store is still there, with its value. *)
Definition store_grows (s s' : State) : Prop :=
  SeencheckDB s ⊆ SeencheckDB s'.

(** What [AddCookie] writes for one cookie, and the Cookie header of a
    request to which the cookies were added in order. *)
Definition cookie_string (c : http_Cookie) : string :=
  (Go.sanitizeCookieName (Name c) ++ "=" ++ Go.sanitizeCookieValue (Value c))%string.
Definition cookie_header (cookies : list http_Cookie) : string :=
  String.concat "; " (map cookie_string cookies).

(** [captureAsset] does not skip the item from this state: the seencheck
    is off, or the probe of the store fails, or the hash of the item is
    not in the store. *)
Definition not_skipped (c : Crawl) (item : frontier.Item) (s : State) : Prop :=
  Seencheck c = true ->
  is_Some (Seencheck_probe (crawl_world s)).1 \/
  SeencheckDB s !! FormatUint (frontier.Hash item) = None.

(** From a counter in the int64 range, the run ends with the counter it
    started with. *)
Definition restores_QueueCount (s s' : State) : Prop :=
  Go.int64_range (QueueCount s) -> QueueCount s' = QueueCount s.

(** The items for which [queueOutlinks] goroutines were started. *)
Definition queue_starts (evs : list Event) : list frontier.Item :=
  omap (fun e => match e with EvGoQueueOutlinks _ item => Some item | _ => None end) evs.

(** The goroutines started during the run are for items among
    [candidates], in that order. *)
Definition starts_among (candidates : list frontier.Item) (s s' : State) : Prop :=
  exists evs : list Event,
    trace s' = trace s ++ evs /\ queue_starts evs `sublist_of` candidates.

(** The events of a capture: fetches, the two kinds of log records, and
    the start of [queueOutlinks]. *)
Definition capture_event (e : Event) : Prop :=
  match e with
  | EvDo _ _ _ | EvLogSuccess _ _ _ _ _ | EvLogWarning _ _
  | EvGoQueueOutlinks _ _ => True
  | _ => False
  end.

(** The Referer that [Capture] computes, lines 123-127. *)
Definition Capture_referer (item : frontier.Item) (itemURL : url_URL) : string :=
  match frontier.ParentItem item with
  | Some parent =>
      match frontier.URL parent with
      | Some parentURL =>
          if (0 <? frontier.Hop item) && (0 <? Go.len (URL_String parentURL))
          then URL_String parentURL else URL_Host itemURL
      | None => URL_Host itemURL
      end
  | None => URL_Host itemURL
  end.

(** The items for which [Produce] was called, in order. *)
Definition produced (evs : list Event) : list frontier.Item :=
  omap (fun e => match e with EvProduce item _ _ => Some item | _ => None end) evs.

(** How many slots of the consumer's worker pool were taken and released. *)
Definition pool_adds (evs : list Event) : nat :=
  length (List.filter (fun e => match e with EvPoolAdd => true | _ => false end) evs).
Definition pool_dones (evs : list Event) : nat :=
  length (List.filter (fun e => match e with EvPoolDone => true | _ => false end) evs).

(** The record that the producer fills for an item on lines 54-60, when
    it gets that far: [item.URL] is there, and so is the URL of the parent
    if there is a parent.  The value it then hands to [Produce] on lines
    62-72: the bytes of the record, or none when marshalling failed. *)
Definition kafkaMessage_of (item : frontier.Item) : option kafkaMessage :=
  match frontier.URL item with
  | None => None
  | Some u =>
      match frontier.ParentItem item with
      | None =>
          Some {| URL := URL_String u; HopsCount := frontier.Hop item; ParentURL := "" |}
      | Some parent =>
          match frontier.URL parent with
          | None => None
          | Some pu =>
              Some {| URL := URL_String u; HopsCount := frontier.Hop item;
                      ParentURL := URL_String pu |}
          end
      end
  end.
Definition message_value (m : kafkaMessage) : list Byte.byte :=
  match json_Marshal m with
  | inl bytes => bytes
  | inr _ => []
  end.

(** A goroutine of the consumer that is started at [t] or later; any
    other event. *)
Definition no_start_before (t : Z) (e : Event) : Prop :=
  match e with EvGoConsume t' => t <= t' | _ => True end.

(** The clock does not go back and no goroutine of the consumer is
    started before the time the run began at. *)
Definition starts_later (s s' : State) : Prop :=
  now s <= now s' /\ appends (no_start_before (now s)) s s'.

(** The times at which the goroutines of the consumer were started. *)
Definition consume_starts (evs : list Event) : list Z :=
  omap (fun e => match e with EvGoConsume t => Some t | _ => None end) evs.
End Observations_more.

(** ** A scripted runtime

    A small instance on which the definitions run: URLs are their strings
    and the one unparseable string starts with a colon; the world holds the
    responses the servers will give, in order, the messages the broker
    will deliver, and the flags and counters as other goroutines left them. *)

Module Script.

Fixpoint upto_slash (s : string) : string :=
  match s with
  | EmptyString => EmptyString
  | String a s' => if Ascii.eqb a "/" then EmptyString else String a (upto_slash s')
  end.

Definition host (s : string) : string :=
  if String.prefix "http://" s then upto_slash (String.substring 7 (String.length s - 7) s)
  else if String.prefix "https://" s then upto_slash (String.substring 8 (String.length s - 8) s)
  else "".

#[export] Instance net_url : NetURL := {|
  url_URL := string;
  url_Parse := fun s => if String.prefix ":" s then None else Some s;
  URL_String := fun u => u;
  URL_Host := host
|}.

#[export] Instance url_hash : URLHash := {|
  HashString := fun s => Z.of_nat (String.length s)
|}.

Record world := {
  responses : list (http_Response + error);
  messages : list (Unmarshalled + error);
  broker_down : bool;
  finished : bool;
  active_workers : Z;
  store_down : bool
}.

Definition do (req : http_Request) (w : world) : (http_Response + error) * world :=
  let rest :=
    {| responses := tail (responses w); messages := messages w;
       broker_down := broker_down w; finished := finished w;
       active_workers := active_workers w; store_down := store_down w |} in
  match responses w with
  | [] => (inr "connection refused", rest)
  | inr e :: _ => (inr e, rest)
  | inl r :: _ =>
      (inl {| StatusCode := StatusCode r; resp_Header := resp_Header r;
              resp_Request := req; resp_Cookies := resp_Cookies r |}, rest)
  end.

(** A stand-in for the JSON encoding: a tag byte, then the two strings
    and the hop count, separated by zero bytes. *)
Definition encode (m : Unmarshalled) : list Byte.byte :=
  match m with
  | UnmarshalNull => [Byte.x00]
  | UnmarshalError _ => [Byte.x01]
  | UnmarshalOk m =>
      Byte.x02 :: Byte.x00 :: String.list_byte_of_string (URL m)
      ++ Byte.x00 :: String.list_byte_of_string (ParentURL m)
      ++ Byte.x00 :: [default Byte.x00 (Byte.of_N (Z.to_N (HopsCount m)))]
  end.

Definition read (w : world) : (list Byte.byte + error) * world :=
  let rest :=
    {| responses := responses w; messages := tail (messages w);
       broker_down := broker_down w; finished := finished w;
       active_workers := active_workers w; store_down := store_down w |} in
  match messages w with
  | [] => (inr "timed out", rest)
  | inr e :: _ => (inr e, rest)
  | inl m :: _ => (inl (encode m), rest)
  end.

Fixpoint split0 (acc : list Byte.byte) (l : list Byte.byte)
  : list Byte.byte * list Byte.byte :=
  match l with
  | [] => (rev acc, [])
  | b :: l' => if Byte.eqb b Byte.x00 then (rev acc, l') else split0 (b :: acc) l'
  end.

Definition unmarshal (value : list Byte.byte) : Unmarshalled :=
  match value with
  | b :: _ :: rest =>
      if Byte.eqb b Byte.x02 then
        let '(u, rest) := split0 [] rest in
        let '(p, rest) := split0 [] rest in
        UnmarshalOk {| URL := String.string_of_list_byte u;
                       HopsCount := Z.of_N (Byte.to_N (hd Byte.x00 rest));
                       ParentURL := String.string_of_list_byte p |}
      else UnmarshalError "invalid character"
  | [b] => if Byte.eqb b Byte.x00 then UnmarshalNull else UnmarshalError "invalid character"
  | [] => UnmarshalError "unexpected end of JSON input"
  end.

Inductive client := Direct | Proxied.

#[export] Instance runtime : Runtime := {|
  World := world;
  http_Client := client;
  Client_Do := fun _ req w => do req w;
  goquery_Document := http_Response;
  goquery_NewDocumentFromResponse := fun resp => Some resp;
  json_Marshal := fun m => inl (String.list_byte_of_string (URL m));
  json_Unmarshal := unmarshal;
  kafka_NewProducer := fun w => (None, w);
  kafka_NewConsumer := fun w => (None, w);
  Producer_Produce := fun _ _ w =>
    (if broker_down w then Some "broker unreachable" else None, w);
  Consumer_ReadMessage := fun _ w => read w;
  Finished_Get := fun w => (finished w, w);
  ActiveWorkers_Value := fun w => (active_workers w, w);
  Seencheck_probe := fun w =>
    (if store_down w then Some "store unreachable" else None, w);
  isRedirection := fun code => (300 <=? code) && (code <? 400);
  StringContainsSliceElements := fun s l => existsb (Go.strings_Contains s) l
|}.

Definition config : Crawl := {|
  Client := Direct;
  ClientProxied := None;
  BypassProxy := [];
  UserAgent := "Zeno";
  MaxRedirect := 2;
  MaxHops := 1;
  Seencheck := false;
  Workers := 5;
  KafkaOutlinksTopic := "outlinks"
|}.

Definition response (code : Z) (header : list (string * string)) : http_Response + error :=
  inl {| StatusCode := code; resp_Header := list_to_map header;
         resp_Request := {| req_URL := ""; req_Header := ∅ |};
         resp_Cookies := [] |}.

Definition start (w : world) : State :=
  {| crawl_world := w; QueueCount := 0; SeencheckDB := ∅; PushChan := [];
     now := 0; trace := [] |}.

Definition servers (rs : list (http_Response + error)) : world :=
  {| responses := rs; messages := []; broker_down := false; finished := false;
     active_workers := 0; store_down := false |}.

Definition seed (u : string) (hop : Z) (parent : option frontier.Item) : frontier.Item :=
  frontier.NewItem u parent "seed" hop.

(** The configuration with the seencheck of assets switched on. *)
Definition config_seencheck : Crawl := {|
  Client := Direct;
  ClientProxied := None;
  BypassProxy := [];
  UserAgent := "Zeno";
  MaxRedirect := 2;
  MaxHops := 1;
  Seencheck := true;
  Workers := 5;
  KafkaOutlinksTopic := "outlinks"
|}.

Definition asset (u : string) (parent : frontier.Item) : frontier.Item :=
  frontier.NewItem u (Some parent) "asset" (frontier.Hop parent).

(** A world in which shutdown was requested. *)
Definition shutdown : world :=
  {| responses := []; messages := []; broker_down := false; finished := true;
     active_workers := 0; store_down := false |}.

Definition broker (ms : list (Unmarshalled + error)) (active : Z) : world :=
  {| responses := []; messages := ms; broker_down := false; finished := false;
     active_workers := active; store_down := false |}.

Definition message (u : string) (hop : Z) (parent_url : string) : Unmarshalled :=
  UnmarshalOk {| URL := u; HopsCount := hop; ParentURL := parent_url |}.

Definition request (u : string) : http_Request :=
  {| req_URL := u; req_Header := ∅ |}.

Definition redirect_to (u : string) : http_Response + error :=
  response 301 [("Location", u)].

Definition page (content_type : string) : http_Response + error :=
  response 200 [("Content-Type", content_type)].

(** Extractors that find one link and two assets on every page. *)
Definition one_outlink (base : url_URL) (doc : goquery_Document)
  : list url_URL + error := inl ["http://c/"].
Definition no_outlink (base : url_URL) (doc : goquery_Document)
  : list url_URL + error := inl [].
Definition two_assets (c : Crawl) (base : url_URL) (doc : goquery_Document)
  : list url_URL + error := inl ["http://b/img.png"; "http://b/"].

(** Two servers that redirect to each other for ever. *)
Definition ping_pong : world :=
  servers [redirect_to "http://b/"; redirect_to "http://a/";
           redirect_to "http://b/"; redirect_to "http://a/";
           redirect_to "http://b/"; redirect_to "http://a/"].

End Script.

(** * Properties *)

(** ** The monad *)

Section Monad.
Context {U : NetURL} {H : URLHash} {R : Runtime}.

Lemma bind_Ok {A B} (m : M A) (f : A -> M B) s a s' :
  m s = (Ok a, s') -> (m ≫= f) s = f a s'.
Proof. intros E. unfold mbind, M_bind. now rewrite E. Qed.

Lemma bind_ret {A B} (a : A) (f : A -> M B) s : (mret a ≫= f) s = f a s.
Proof. reflexivity. Qed.

Lemma bind_assoc {A B C} (m : M A) (f : A -> M B) (g : B -> M C) s :
  ((m ≫= f) ≫= g) s = (m ≫= (fun a => f a ≫= g)) s.
Proof.
  unfold mbind, M_bind. destruct (m s) as [[a | | ] s1]; reflexivity.
Qed.

Lemma bind_ext {A B} (m : M A) (f g : A -> M B) s :
  (forall a s', f a s' = g a s') -> (m ≫= f) s = (m ≫= g) s.
Proof.
  intros E. unfold mbind, M_bind. destruct (m s) as [[a | | ] s1]; auto.
Qed.

Section Steps.
Variable Rel : State -> State -> Prop.
Hypothesis Rel_refl : forall s, Rel s s.
Hypothesis Rel_trans : forall s1 s2 s3, Rel s1 s2 -> Rel s2 s3 -> Rel s1 s3.

Lemma steps_ret {A} (a : A) : steps Rel (mret a).
Proof. intros s. apply Rel_refl. Qed.

Lemma steps_panic {A} : steps Rel (@panic _ _ A).
Proof. intros s. apply Rel_refl. Qed.

Lemma steps_out_of_fuel {A} : steps Rel (@out_of_fuel _ _ A).
Proof. intros s. apply Rel_refl. Qed.

Lemma steps_get : steps Rel get.
Proof. intros s. apply Rel_refl. Qed.

Lemma steps_deref {A} (p : option A) : steps Rel (deref p).
Proof. destruct p; [apply steps_ret | apply steps_panic]. Qed.

Lemma steps_bind {A B} (m : M A) (f : A -> M B) :
  steps Rel m -> (forall a, steps Rel (f a)) -> steps Rel (m ≫= f).
Proof.
  intros Hm Hf s. specialize (Hm s). unfold mbind, M_bind.
  destruct (m s) as [[a | | ] s1]; simpl in *; trivial.
  eapply Rel_trans; [exact Hm | apply Hf].
Qed.

(** The same at one state. *)
Lemma steps_bind_at {A B} (m : M A) (f : A -> M B) s :
  Rel s (m s).2 -> (forall a, steps Rel (f a)) -> Rel s ((m ≫= f) s).2.
Proof.
  intros Hm Hf. unfold mbind, M_bind.
  destruct (m s) as [[a | | ] s1]; cbn [snd] in *; trivial.
  eapply Rel_trans; [exact Hm | apply Hf].
Qed.

Lemma steps_modify (f : State -> State) :
  (forall s, Rel s (f s)) -> steps Rel (modify f).
Proof. intros Hf s. apply Hf. Qed.

Lemma steps_ask {A} (f : World -> A * World) :
  (forall s w, Rel s (set_world w s)) -> steps Rel (ask f).
Proof.
  intros Hw s. unfold ask. destruct (f (crawl_world s)) as [a w]. apply Hw.
Qed.
End Steps.

(** A first part related by [R1], then a rest related by [R2]. *)
Lemma steps_bind_then {A B} (R1 R2 R3 : State -> State -> Prop)
    (m : M A) (f : A -> M B) :
  (forall s, R2 s s) ->
  (forall s1 s2 s3, R1 s1 s2 -> R2 s2 s3 -> R3 s1 s3) ->
  steps R1 m -> (forall a, steps R2 (f a)) -> steps R3 (m ≫= f).
Proof.
  intros Hrefl Hcomp Hm Hf s. specialize (Hm s). unfold mbind, M_bind.
  destruct (m s) as [[a | | ] s1]; cbn [snd] in *; eauto.
  eapply Hcomp; [exact Hm | apply Hf].
Qed.

(** A body related by [R1] and its deferred call related by [R2]. *)
Lemma steps_defer_then {A} (R1 R2 R3 : State -> State -> Prop)
    (cleanup : M unit) (body : M A) :
  (forall s, R2 s s) ->
  (forall s1 s2 s3, R1 s1 s2 -> R2 s2 s3 -> R3 s1 s3) ->
  steps R1 body -> steps R2 cleanup -> steps R3 (defer cleanup body).
Proof.
  intros Hrefl Hcomp Hb Hc s. specialize (Hb s). unfold defer.
  destruct (body s) as [[a | | ] s1]; cbn [snd] in *; eauto.
Qed.

Lemma defer_Ok {A} (cleanup : M unit) (body : M A) s a s' :
  body s = (Ok a, s') -> defer cleanup body s = (Ok a, (cleanup s').2).
Proof. intros E. unfold defer. now rewrite E. Qed.

Lemma defer_Panic {A} (cleanup : M unit) (body : M A) s s' :
  body s = (Panic, s') -> defer cleanup body s = (Panic, (cleanup s').2).
Proof. intros E. unfold defer. now rewrite E. Qed.

Lemma get_run s : get s = (Ok s, s).
Proof. reflexivity. Qed.

Lemma emit_run e s : emit e s = (Ok tt, set_trace (trace s ++ [e]) s).
Proof. reflexivity. Qed.

Lemma ask_run {A} (f : World -> A * World) s :
  ask f s = (Ok (f (crawl_world s)).1, set_world (f (crawl_world s)).2 s).
Proof. unfold ask. now destruct (f (crawl_world s)). Qed.
End Monad.

(** ** executeGET *)

Section ExecuteGET.
Context {U : NetURL} {H : URLHash} {R : Runtime}.
Implicit Types (c : Crawl) (item : frontier.Item) (req : http_Request) (s : State).

Lemma Do_run item client req s :
  Do item client req s =
    (Ok (Client_Do client req (crawl_world s)).1,
     set_world (Client_Do client req (crawl_world s)).2
       (set_trace (trace s ++ [EvDo item client req]) s)).
Proof.
  unfold Do, emit, modify, ask, mbind, M_bind. simpl.
  destruct (Client_Do client req (crawl_world s)); reflexivity.
Qed.

(** A chain that starts at [r] has at most [max - r + 1] items. *)
Lemma redirect_chain_length max r items :
  redirect_chain max r items ->
  (length items <= S (Z.to_nat (max - r)))%nat.
Proof.
  revert r. induction items as [| item rest IH]; intros r Hc; simpl; [lia |].
  destruct Hc as (_ & Hlt & Hrest).
  destruct rest as [| item' rest']; [simpl; lia |].
  specialize (IH _ Hrest). assert (r < max) by (apply Hlt; discriminate).
  simpl in *. lia.
Qed.

Lemma redirect_chain_lookup max r items i item :
  redirect_chain max r items ->
  items !! i = Some item ->
  frontier.Redirect item = r + Z.of_nat i /\
  ((S i < length items)%nat -> frontier.Redirect item < max).
Proof.
  revert r i. induction items as [| it rest IH]; intros r i Hc Hi; [discriminate |].
  destruct Hc as (Hr & Hlt & Hrest). destruct i as [| i]; simpl in Hi.
  - injection Hi as <-. split; [lia |]. intros Hlen. rewrite Hr. apply Hlt.
    destruct rest; [simpl in Hlen; lia | discriminate].
  - destruct (IH _ _ Hrest Hi) as (E & Hn). split; [lia |].
    intros Hlen. apply Hn. simpl in Hlen. lia.
Qed.

(** The recursion follows a redirect chain and its budget is enough as soon
    as it exceeds the room left below [MaxRedirect]. *)
Lemma executeGET_fuel_chain fuel : forall c item req s,
  MaxRedirect c < 2 ^ 64 ->
  0 <= frontier.Redirect item ->
  (Z.to_nat (MaxRedirect c - frontier.Redirect item) < fuel)%nat ->
  exists out s' rest,
    executeGET_fuel fuel c item req s = (out, s') /\
    out <> OutOfFuel /\
    (is_Some (frontier.URL item) -> exists r, out = Ok r) /\
    (exists evs : list Event, trace s' = trace s ++ evs /\ fetch_items evs = item :: rest) /\
    redirect_chain (MaxRedirect c) (frontier.Redirect item) (item :: rest).
Proof.
  induction fuel as [| fuel IH]; intros c item req s Hmax Hr Hfuel; [lia |].
  cbn [executeGET_fuel].
  rewrite (bind_Ok _ _ _ _ _ (Do_run _ _ _ _)).
  set (s1 := set_world _ _).
  assert (Ht1 : trace s1 = trace s ++ [EvDo item (selectClient c req) req]) by reflexivity.
  assert (Stop : forall res : GetResult,
            exists (out : Outcome (http_Request * GetResult)) s' rest,
            (Ok (req, res), s1) = (out, s') /\ out <> OutOfFuel /\
            (is_Some (frontier.URL item) -> exists r, out = Ok r) /\
            (exists evs : list Event, trace s' = trace s ++ evs /\ fetch_items evs = item :: rest) /\
            redirect_chain (MaxRedirect c) (frontier.Redirect item) (item :: rest)).
  { intros res. exists (Ok (req, res)), s1, []. repeat split; try discriminate; eauto.
    intros Hne; now elim Hne. }
  destruct (Client_Do _ _ _).1 as [resp | err]; [| apply Stop].
  destruct (isRedirection _); [| apply Stop].
  destruct (String.eqb _ _ || _) eqn:Hstop; [apply Stop |].
  apply orb_false_iff in Hstop as [_ Hlt%Z.leb_gt].
  destruct (url_Parse _) as [URL |]; [| apply Stop].
  destruct (http_NewRequest _) as [newReq |]; [| apply Stop].
  set (newItem := frontier.set_Redirect _ _).
  change (frontier.ParentItem newItem) with (Some item). cbn [deref].
  rewrite bind_ret.
  destruct (frontier.URL item) as [parentURL |] eqn:Hurl; cbn [deref].
  2:{ exists Panic, s1, []. repeat split; try discriminate; eauto.
      intros [? ?]; discriminate. }
  rewrite bind_ret.
  assert (Hnew : frontier.Redirect newItem = frontier.Redirect item + 1).
  { unfold newItem, Go.uint. cbn [frontier.Redirect]. apply Z.mod_small. lia. }
  destruct (IH c newItem newReq s1) as (out & s' & rest & Erun & Hout & Hok & (evs & Htr & Hfi) & Hchain);
    [assumption | lia | lia |].
  unfold mbind, M_bind. rewrite Erun.
  exists (match out with
          | Ok (_, res) => Ok (req_Header_Set
                   (req_Header_Set (req_Header_Set req "User-Agent" (UserAgent c))
                      "Accept-Encoding" "*/*") "Referer" (URL_String parentURL), res)
          | Panic => Panic
          | OutOfFuel => OutOfFuel
          end), s', (newItem :: rest).
  split; [destruct out as [[? ?] | |]; reflexivity |].
  split; [destruct out as [[? ?] | |]; congruence |].
  split.
  { intros _. destruct Hok as [[? ?] ->]; [unfold newItem; cbn; eauto | eauto]. }
  split.
  { exists (EvDo item (selectClient c req) req :: evs). split.
    - rewrite Htr, Ht1, <- app_assoc. reflexivity.
    - rewrite <- Hfi. reflexivity. }
  cbn [redirect_chain]. split; [reflexivity |]. split; [intros _; lia |].
  rewrite <- Hnew. exact Hchain.
Qed.
(** A larger budget does not change a run that did not exhaust its own. *)
Lemma executeGET_fuel_more fuel : forall k c item req s out s',
  executeGET_fuel fuel c item req s = (out, s') ->
  out <> OutOfFuel ->
  executeGET_fuel (fuel + k) c item req s = (out, s').
Proof.
  induction fuel as [| fuel IH]; intros k c item req s out s' Hrun Hout.
  { injection Hrun as <- <-. congruence. }
  revert Hrun. cbn [executeGET_fuel Nat.add].
  rewrite !(bind_Ok _ _ _ _ _ (Do_run _ _ _ _)).
  set (s1 := set_world _ _).
  destruct (Client_Do _ _ _).1 as [resp | err]; [| trivial].
  destruct (isRedirection _); [| trivial].
  destruct (String.eqb _ _ || _); [trivial |].
  destruct (url_Parse _) as [URL |]; [| trivial].
  destruct (http_NewRequest _) as [newReq |]; [| trivial].
  set (newItem := frontier.set_Redirect _ _).
  change (frontier.ParentItem newItem) with (Some item). cbn [deref].
  rewrite !bind_ret.
  destruct (frontier.URL item) as [parentURL |]; cbn [deref]; [| trivial].
  rewrite !bind_ret. unfold mbind, M_bind.
  destruct (executeGET_fuel fuel c newItem newReq s1) as [out1 s2] eqn:Erec.
  intros Hrun.
  assert (Hout1 : out1 <> OutOfFuel).
  { intros ->. injection Hrun as <- <-. congruence. }
  rewrite (IH k _ _ _ _ _ _ Erec Hout1). exact Hrun.
Qed.

(** C1. For every item, every request and every world (every chain of
    responses the servers may give), [executeGET] terminates: any recursion
    budget above [MaxRedirect] gives the same run as [executeGET], and the
    run does not exhaust it.  The run makes at most [MaxRedirect + 1]
    fetches; the i-th fetch (from 0) is made for an item whose redirect
    counter is the first item's plus i, and every fetch that is followed by
    another one is made for an item whose counter is strictly below
    [MaxRedirect]. *)
Theorem executeGET_redirect_bound c item req s fuel :
  Go.uint_range (MaxRedirect c) ->
  Go.uint_range (frontier.Redirect item) ->
  (Z.to_nat (MaxRedirect c) < fuel)%nat ->
  exists out s' evs,
    executeGET_fuel fuel c item req s = (out, s') /\
    executeGET c item req s = (out, s') /\
    out <> OutOfFuel /\
    trace s' = trace s ++ evs /\
    (1 <= length (fetch_items evs) <= Z.to_nat (MaxRedirect c) + 1)%nat /\
    forall i it,
      fetch_items evs !! i = Some it ->
      frontier.Redirect it = frontier.Redirect item + Z.of_nat i /\
      ((S i < length (fetch_items evs))%nat -> frontier.Redirect it < MaxRedirect c).
Proof.
  intros [Hmax0 Hmax] [Hr0 Hr] Hfuel.
  destruct (executeGET_fuel_chain
              (S (Z.to_nat (MaxRedirect c - frontier.Redirect item))) c item req s)
    as (out & s' & rest & Erun & Hout & _ & (evs & Htr & Hfi) & Hchain);
    [assumption | assumption | lia |].
  exists out, s', evs.
  split.
  { replace fuel with
      (S (Z.to_nat (MaxRedirect c - frontier.Redirect item)) +
       (fuel - S (Z.to_nat (MaxRedirect c - frontier.Redirect item))))%nat by lia.
    now apply executeGET_fuel_more. }
  split; [exact Erun |]. split; [exact Hout |]. split; [exact Htr |].
  rewrite Hfi. split.
  - pose proof (redirect_chain_length _ _ _ Hchain) as Hlen.
    cbn [length] in *. lia.
  - intros i it Hi. eapply redirect_chain_lookup; eassumption.
Qed.
(** C7. When the response to the request is a redirection whose Location
    header is the string of the request's URL, [executeGET] makes that one
    fetch and returns this response; it does not recurse, whatever the
    redirect counter and the budget are. *)
Theorem executeGET_self_redirect c item req s fuel resp :
  (Client_Do (selectClient c req) req (crawl_world s)).1 = inl resp ->
  isRedirection (StatusCode resp) = true ->
  Header_Get (resp_Header resp) "location" = URL_String (req_URL req) ->
  exists s',
    executeGET_fuel (S fuel) c item req s = (Ok (req, GetOk resp), s') /\
    executeGET c item req s = (Ok (req, GetOk resp), s') /\
    trace s' = trace s ++ [EvDo item (selectClient c req) req] /\
    fetch_items [EvDo item (selectClient c req) req] = [item].
Proof.
  intros Hdo Hredir Hloc. eexists. unfold executeGET. cbn [executeGET_fuel].
  rewrite !(bind_Ok _ _ _ _ _ (Do_run _ _ _ _)).
  rewrite Hdo, Hredir, Hloc, String.eqb_refl. cbn [orb].
  repeat split; reflexivity.
Qed.
(** The recursive step, for any world: when a redirect is followed, the
    next call is made for the child item, whose counter is the parent's plus
    one, and with the request that [http.NewRequest] returned, whose header
    is empty; the three headers go to the request that was already sent. *)
Lemma executeGET_fuel_follows_redirect c item req s fuel resp URL URL' parentURL :
  (Client_Do (selectClient c req) req (crawl_world s)).1 = inl resp ->
  isRedirection (StatusCode resp) = true ->
  Header_Get (resp_Header resp) "location" <> URL_String (req_URL req) ->
  frontier.Redirect item < MaxRedirect c ->
  MaxRedirect c < 2 ^ 64 ->
  0 <= frontier.Redirect item ->
  url_Parse (Header_Get (resp_Header resp) "location") = Some URL ->
  url_Parse (URL_String URL) = Some URL' ->
  frontier.URL item = Some parentURL ->
  executeGET_fuel (S fuel) c item req s =
    let s1 := set_world (Client_Do (selectClient c req) req (crawl_world s)).2
                (set_trace (trace s ++ [EvDo item (selectClient c req) req]) s) in
    let newItem :=
      {| frontier.Hash := HashString (URL_String URL);
         frontier.Hop := frontier.Hop item;
         frontier.Type_ := frontier.Type_ item;
         frontier.Redirect := frontier.Redirect item + 1;
         frontier.URL := Some URL;
         frontier.ParentItem := Some item |} in
    let newReq := {| req_URL := URL'; req_Header := ∅ |} in
    let sent :=
      {| req_URL := req_URL req;
         req_Header :=
           <["Referer" := URL_String parentURL]>
             (<["Accept-Encoding" := "*/*"]>
                (<["User-Agent" := UserAgent c]> (req_Header req))) |} in
    (executeGET_fuel fuel c newItem newReq ≫= fun '(_, res) => mret (sent, res)) s1.
Proof.
  intros Hdo Hredir Hloc Hlt Hmax Hr Hparse Hnew Hurl.
  cbn [executeGET_fuel].
  rewrite (bind_Ok _ _ _ _ _ (Do_run _ _ _ _)).
  rewrite Hdo, Hredir.
  apply String.eqb_neq in Hloc. rewrite Hloc.
  apply Z.leb_gt in Hlt as Hlt'. rewrite Hlt'. cbn [orb].
  rewrite Hparse. unfold http_NewRequest. rewrite Hnew.
  unfold frontier.set_Redirect, frontier.NewItem. cbn [frontier.ParentItem deref
    frontier.Hash frontier.Hop frontier.Type_ frontier.URL].
  rewrite bind_ret, Hurl. cbn [deref]. rewrite bind_ret.
  unfold Go.uint. rewrite Z.mod_small by lia. reflexivity.
Qed.
End ExecuteGET.

Section ExecuteGET_runs.
Import Script.

Lemma executeGET_redirect_bound_witness :
  Go.uint_range (MaxRedirect Script.config) /\
  Go.uint_range (frontier.Redirect (Script.seed "http://a/" 0 None)) /\
  (Z.to_nat (MaxRedirect Script.config) < 7)%nat /\
  exists out s' evs,
    executeGET_fuel 7 Script.config (Script.seed "http://a/" 0 None)
      (Script.request "http://a/") (Script.start Script.ping_pong) = (out, s') /\
    executeGET Script.config (Script.seed "http://a/" 0 None)
      (Script.request "http://a/") (Script.start Script.ping_pong) = (out, s') /\
    out <> OutOfFuel /\
    trace s' = trace (Script.start Script.ping_pong) ++ evs /\
    (1 <= length (fetch_items evs) <= Z.to_nat (MaxRedirect Script.config) + 1)%nat /\
    forall i it,
      fetch_items evs !! i = Some it ->
      frontier.Redirect it =
        frontier.Redirect (Script.seed "http://a/" 0 None) + Z.of_nat i /\
      ((S i < length (fetch_items evs))%nat ->
       frontier.Redirect it < MaxRedirect Script.config).
Proof.
  assert (Hmax : Go.uint_range (MaxRedirect Script.config))
    by (unfold Go.uint_range; simpl; lia).
  assert (Hr : Go.uint_range (frontier.Redirect (Script.seed "http://a/" 0 None)))
    by (unfold Go.uint_range; simpl; lia).
  assert (Hfuel : (Z.to_nat (MaxRedirect Script.config) < 7)%nat)
    by (simpl; lia).
  split; [exact Hmax |]. split; [exact Hr |]. split; [exact Hfuel |].
  exact (executeGET_redirect_bound Script.config (Script.seed "http://a/" 0 None)
           (Script.request "http://a/") (Script.start Script.ping_pong) 7
           Hmax Hr Hfuel).
Defined.

Lemma executeGET_self_redirect_witness :
  exists s',
    executeGET_fuel 1 Script.config (Script.seed "http://a/" 0 None)
      (Script.request "http://a/")
      (Script.start (Script.servers [Script.redirect_to "http://a/"]))
    = (Ok (Script.request "http://a/",
           GetOk {| StatusCode := 301;
                    resp_Header := list_to_map [("Location", "http://a/")];
                    resp_Request := Script.request "http://a/";
                    resp_Cookies := [] |}), s') /\
    executeGET Script.config (Script.seed "http://a/" 0 None)
      (Script.request "http://a/")
      (Script.start (Script.servers [Script.redirect_to "http://a/"]))
    = (Ok (Script.request "http://a/",
           GetOk {| StatusCode := 301;
                    resp_Header := list_to_map [("Location", "http://a/")];
                    resp_Request := Script.request "http://a/";
                    resp_Cookies := [] |}), s') /\
    trace s' =
      trace (Script.start (Script.servers [Script.redirect_to "http://a/"])) ++
      [EvDo (Script.seed "http://a/" 0 None)
         (selectClient Script.config (Script.request "http://a/"))
         (Script.request "http://a/")] /\
    fetch_items
      [EvDo (Script.seed "http://a/" 0 None)
         (selectClient Script.config (Script.request "http://a/"))
         (Script.request "http://a/")] = [Script.seed "http://a/" 0 None].
Proof.
  apply (executeGET_self_redirect Script.config (Script.seed "http://a/" 0 None)
           (Script.request "http://a/")
           (Script.start (Script.servers [Script.redirect_to "http://a/"])) 0).
  - reflexivity.
  - reflexivity.
  - vm_compute. reflexivity.
Defined.
(** C3. The request that [executeGET] issues for a redirect target does not
    carry the three headers.  With the user agent configured as Zeno, a
    server that answers the request for http://a/ with a redirect to
    http://b/ and then with a page gets two requests; the one for
    http://b/ has an empty header, so its User-Agent, Accept-Encoding and
    Referer are all absent.  The three values are found on the request for
    http://a/ as the call leaves it, which had been sent before they were
    set. *)
Theorem executeGET_redirect_request_without_headers :
  let run :=
    executeGET config (seed "http://a/" 0 None) (request "http://a/")
      (start (servers [redirect_to "http://b/"; page "text/html"])) in
  UserAgent config = "Zeno" /\
  fetch_requests (trace run.2) = [request "http://a/"; request "http://b/"] /\
  map (fun req => (Header_Get (req_Header req) "User-Agent",
                   Header_Get (req_Header req) "Accept-Encoding",
                   Header_Get (req_Header req) "Referer"))
      (fetch_requests (trace run.2)) = [("", "", ""); ("", "", "")] /\
  exists req' resp,
    run.1 = Ok (req', GetOk resp) /\
    StatusCode resp = 200 /\
    req_URL req' = "http://a/" /\
    (Header_Get (req_Header req') "User-Agent",
     Header_Get (req_Header req') "Accept-Encoding",
     Header_Get (req_Header req') "Referer") = ("Zeno", "*/*", "http://a/").
Proof.
  cbv zeta. split; [reflexivity |]. split; [vm_compute; reflexivity |].
  split; [vm_compute; reflexivity |].
  eexists _, _. split; [vm_compute; reflexivity |].
  repeat split; vm_compute; reflexivity.
Qed.
End ExecuteGET_runs.

(** ** What capture.go leaves alone

    One proof per function, for every relation between the state before
    and the state after that is a preorder, that holds across a change of
    the world or of the seencheck store, and across the appending of an
    allowed event. *)

Section Frame.
Context {U : NetURL} {H : URLHash} {R : Runtime}.
Variable Rel : State -> State -> Prop.
Variable allowed : Event -> Prop.
Hypothesis Rel_refl : forall s, Rel s s.
Hypothesis Rel_trans : forall s1 s2 s3, Rel s1 s2 -> Rel s2 s3 -> Rel s1 s3.
Hypothesis Rel_world : forall s w, Rel s (set_world w s).
Hypothesis Rel_seen : forall s db, Rel s (set_SeencheckDB db s).
Hypothesis Rel_emit :
  forall s e, allowed e -> Rel s (set_trace (trace s ++ [e]) s).
Hypothesis allowed_Do : forall item client req, allowed (EvDo item client req).
Hypothesis allowed_LogSuccess :
  forall u code hop type queued, allowed (EvLogSuccess u code hop type queued).
Hypothesis allowed_LogWarning : forall msg err, allowed (EvLogWarning msg err).

Local Ltac step :=
  first
    [ apply steps_ret; assumption
    | apply steps_panic; assumption
    | apply steps_get; assumption
    | apply steps_deref; assumption
    | apply steps_bind; [assumption | | intros ? ]
    | match goal with
      | |- steps _ (match ?x with _ => _ end) => destruct x
      | |- steps _ (let _ := _ in _) => cbv zeta
      end ].

Lemma emit_steps e : allowed e -> steps Rel (emit e).
Proof. intros He. apply steps_modify. intros s. now apply Rel_emit. Qed.

Lemma Do_steps item client req : steps Rel (Do item client req).
Proof.
  unfold Do. step; [apply emit_steps, allowed_Do | now apply steps_ask].
Qed.

Lemma executeGET_fuel_steps fuel : forall c item req,
  steps Rel (executeGET_fuel fuel c item req).
Proof.
  induction fuel as [| fuel IH]; intros c item req; cbn [executeGET_fuel].
  - now apply steps_out_of_fuel.
  - step; [apply Do_steps |]. repeat step. apply IH.
Qed.

Lemma executeGET_steps c item req : steps Rel (executeGET c item req).
Proof. apply executeGET_fuel_steps. Qed.

Lemma logWarning_steps msg err : steps Rel (logWarning msg err).
Proof. apply emit_steps, allowed_LogWarning. Qed.

Lemma logCrawlSuccess_steps code item : steps Rel (logCrawlSuccess code item).
Proof.
  unfold logCrawlSuccess. repeat step. apply emit_steps, allowed_LogSuccess.
Qed.

Lemma Seencheck_IsSeen_steps hash : steps Rel (Seencheck_IsSeen hash).
Proof.
  unfold Seencheck_IsSeen. step; [now apply steps_ask |]. repeat step.
Qed.

Lemma Seencheck_Seen_steps hash value : steps Rel (Seencheck_Seen hash value).
Proof.
  apply steps_modify. intros s. destruct (SeencheckDB s !! hash); auto.
Qed.

Lemma captureAsset_steps c item cookies : steps Rel (captureAsset c item cookies).
Proof.
  unfold captureAsset.
  repeat first
    [ apply Seencheck_IsSeen_steps | apply Seencheck_Seen_steps
    | apply executeGET_steps | apply logWarning_steps
    | apply logCrawlSuccess_steps | step ].
Qed.

Lemma captureAssets_body_steps c item itemURL resp asset :
  steps Rel (captureAssets_body c item itemURL resp asset).
Proof.
  unfold captureAssets_body.
  repeat first [ apply captureAsset_steps | apply logWarning_steps | step ].
Qed.

(** The rest needs the relation to hold across a change of the counter. *)
Hypothesis Rel_queue : forall s q, Rel s (set_QueueCount q s).

Lemma QueueCount_Incr_steps n : steps Rel (QueueCount_Incr n).
Proof. apply steps_modify. intros s. apply Rel_queue. Qed.

Lemma captureAssets_steps c item itemURL resp assets :
  steps Rel (captureAssets c item itemURL resp assets).
Proof.
  induction assets as [| asset rest IH]; cbn [captureAssets].
  - now apply steps_ret.
  - repeat first
      [ apply QueueCount_Incr_steps | apply captureAssets_body_steps | exact IH | step ].
Qed.

(** [Capture] for an item at or beyond [MaxHops], with any extractors. *)
Lemma Capture_result_steps extractOutlinks extractAssets c item itemURL res :
  MaxHops c <= frontier.Hop item ->
  steps Rel (Capture_result extractOutlinks extractAssets c item itemURL res).
Proof.
  intros Hhop. apply Z.ltb_ge in Hhop. unfold Capture_result. rewrite Hhop.
  repeat first
    [ apply logWarning_steps | apply logCrawlSuccess_steps
    | apply QueueCount_Incr_steps | apply captureAssets_steps | step ].
Qed.

Lemma Capture_request_steps item itemURL req :
  steps Rel (Capture_request item itemURL req).
Proof. unfold Capture_request. repeat step. Qed.

Lemma Capture_steps extractOutlinks extractAssets c item :
  MaxHops c <= frontier.Hop item ->
  steps Rel (Capture extractOutlinks extractAssets c item).
Proof.
  intros Hhop. unfold Capture.
  repeat first
    [ apply executeGET_steps | apply logWarning_steps | apply Capture_request_steps
    | now apply Capture_result_steps | step ].
Qed.

(** Where a run is once its first part is over. *)
Lemma bind_steps_after {A B} (m : M A) (f : A -> M B) s :
  (forall a, steps Rel (f a)) -> Rel (m s).2 ((m ≫= f) s).2.
Proof.
  intros Hf. unfold mbind, M_bind.
  destruct (m s) as [[a | | ] s1]; cbn [snd]; [apply Hf | apply Rel_refl ..].
Qed.

Lemma executeGET_fuel_after_Do fuel c item req s :
  Rel (Do item (selectClient c req) req s).2
      (executeGET_fuel (S fuel) c item req s).2.
Proof.
  cbn [executeGET_fuel]. apply bind_steps_after. intros r.
  repeat step. apply executeGET_fuel_steps.
Qed.

Lemma Capture_after_executeGET extractOutlinks extractAssets c item itemURL req s :
  MaxHops c <= frontier.Hop item ->
  Rel (executeGET c item req s).2
      ((executeGET c item req ≫= fun '(_, res) =>
          Capture_result extractOutlinks extractAssets c item itemURL res) s).2.
Proof.
  intros Hhop. apply bind_steps_after. intros [? res].
  now apply Capture_result_steps.
Qed.
End Frame.

(** ** Relations that the frame lemmas are used with *)

Section Relations.
Context {U : NetURL} {H : URLHash} {R : Runtime}.

Section Appends.
Variable P : Event -> Prop.

Lemma appends_same_trace s s' : trace s' = trace s -> appends P s s'.
Proof. intros E. exists []. split; [now rewrite app_nil_r | constructor]. Qed.

Lemma appends_refl s : appends P s s.
Proof. now apply appends_same_trace. Qed.

Lemma appends_trans s1 s2 s3 : appends P s1 s2 -> appends P s2 s3 -> appends P s1 s3.
Proof.
  intros (evs1 & E1 & F1) (evs2 & E2 & F2). exists (evs1 ++ evs2). split.
  - now rewrite E2, E1, app_assoc.
  - apply Forall_app; auto.
Qed.

Lemma appends_world s w : appends P s (set_world w s).
Proof. now apply appends_same_trace. Qed.

Lemma appends_seen s db : appends P s (set_SeencheckDB db s).
Proof. now apply appends_same_trace. Qed.

Lemma appends_queue s q : appends P s (set_QueueCount q s).
Proof. now apply appends_same_trace. Qed.

Lemma appends_emit s e : P e -> appends P s (set_trace (trace s ++ [e]) s).
Proof. intros He. exists [e]. split; [reflexivity | repeat constructor; exact He]. Qed.

Hypothesis P_Do : forall item client req, P (EvDo item client req).
Hypothesis P_LogSuccess :
  forall u code hop type queued, P (EvLogSuccess u code hop type queued).
Hypothesis P_LogWarning : forall msg err, P (EvLogWarning msg err).

Lemma executeGET_fuel_after_Do_appends fuel c item req s :
  appends P (Do item (selectClient c req) req s).2
            (executeGET_fuel (S fuel) c item req s).2.
Proof.
  exact (executeGET_fuel_after_Do (appends P) P appends_refl appends_trans
           appends_world appends_emit P_Do fuel c item req s).
Qed.

Lemma Capture_appends extractOutlinks extractAssets c item :
  MaxHops c <= frontier.Hop item ->
  steps (appends P) (Capture extractOutlinks extractAssets c item).
Proof.
  exact (Capture_steps (appends P) P appends_refl appends_trans appends_world
           appends_seen appends_emit P_Do P_LogSuccess P_LogWarning appends_queue
           extractOutlinks extractAssets c item).
Qed.

Lemma Capture_after_executeGET_appends extractOutlinks extractAssets c item itemURL req s :
  MaxHops c <= frontier.Hop item ->
  appends P (executeGET c item req s).2
    ((executeGET c item req ≫= fun '(_, res) =>
        Capture_result extractOutlinks extractAssets c item itemURL res) s).2.
Proof.
  exact (Capture_after_executeGET (appends P) P appends_refl appends_trans
           appends_world appends_seen appends_emit P_Do P_LogSuccess P_LogWarning
           appends_queue extractOutlinks extractAssets c item itemURL req s).
Qed.
End Appends.

End Relations.

(** ** Capture and the hop bound *)

Section Hops.
Context {U : NetURL} {H : URLHash} {R : Runtime}.
Variables extractOutlinks extractOutlinks' :
  url_URL -> goquery_Document -> list url_URL + error.
Variable extractAssets : Crawl -> url_URL -> goquery_Document -> list url_URL + error.

Lemma Capture_result_without_outlinks c item itemURL res s :
  MaxHops c <= frontier.Hop item ->
  Capture_result extractOutlinks extractAssets c item itemURL res s =
  Capture_result extractOutlinks' extractAssets c item itemURL res s.
Proof.
  intros Hhop. apply Z.ltb_ge in Hhop. unfold Capture_result.
  rewrite Hhop. reflexivity.
Qed.

(** Outlinks are extracted and queued only below [MaxHops].  For an
    item whose hop count is [MaxHops] or more, [Capture] does not depend
    on the outlink extractor (it does the same with any other one, so the
    item is not admitted to outlink extraction) and it starts no
    [queueOutlinks] goroutine, so it enqueues no outlink.  Such an item is
    still fetched: when its URL is there and builds a request, and its
    parent and the parent's URL are there if its hop count is positive,
    the first thing [Capture] does is the HTTP round trip for the item. *)
Theorem Capture_hop_bound c item s :
  MaxHops c <= frontier.Hop item ->
  Capture extractOutlinks extractAssets c item s =
    Capture extractOutlinks' extractAssets c item s /\
  (exists evs : list Event,
     trace (Capture extractOutlinks extractAssets c item s).2 = trace s ++ evs /\
     Forall (fun e => ~ is_EvGoQueueOutlinks e) evs) /\
  forall itemURL req,
    frontier.URL item = Some itemURL ->
    http_NewRequest (URL_String itemURL) = Some req ->
    (0 < frontier.Hop item ->
     exists parent parentURL,
       frontier.ParentItem item = Some parent /\
       frontier.URL parent = Some parentURL) ->
    exists (req' : http_Request) (evs : list Event),
      req_URL req' = req_URL req /\
      trace (Capture extractOutlinks extractAssets c item s).2 =
        trace s ++ EvDo item (selectClient c req') req' :: evs /\
      Forall (fun e => ~ is_EvGoQueueOutlinks e) evs.
Proof.
  intros Hhop. split; [| split].
  - unfold Capture. apply bind_ext. intros itemURL s1.
    destruct (http_NewRequest _); [| reflexivity].
    apply bind_ext. intros req s2. apply bind_ext. intros [? res] s3.
    now apply Capture_result_without_outlinks.
  - apply Capture_appends; [intros; intros [] .. | exact Hhop].
  - intros itemURL req Hurl Hreq Hparent.
    assert (Hr : exists req', req_URL req' = req_URL req /\
                   Capture_request item itemURL req s = (Ok req', s)).
    { unfold Capture_request. destruct (0 <? frontier.Hop item) eqn:Hpos.
      - apply Z.ltb_lt in Hpos.
        destruct (Hparent Hpos) as (parent & parentURL & -> & E).
        cbn [deref]. rewrite bind_ret, E. cbn [deref]. rewrite bind_ret.
        destruct (0 <? Go.len _); eexists; (split; [| reflexivity]); reflexivity.
      - eexists; (split; [| reflexivity]); reflexivity. }
    destruct Hr as (req' & Hu & Hr). exists req'.
    unfold Capture. rewrite Hurl. cbn [deref]. rewrite bind_ret, Hreq.
    rewrite (bind_Ok _ _ _ _ _ Hr).
    destruct (Capture_after_executeGET_appends (fun e => ~ is_EvGoQueueOutlinks e)
                ltac:(intros; intros []) ltac:(intros; intros [])
                ltac:(intros; intros [])
                extractOutlinks extractAssets c item itemURL req' s Hhop)
      as (evs2 & E2 & F2).
    destruct (executeGET_fuel_after_Do_appends (fun e => ~ is_EvGoQueueOutlinks e)
                ltac:(intros; intros [])
                (Z.to_nat (MaxRedirect c - frontier.Redirect item)) c item req' s)
      as (evs1 & E1 & F1).
    rewrite Do_run in E1. cbn [snd set_world set_trace trace] in E1.
    exists (evs1 ++ evs2). split; [exact Hu |]. split.
    + rewrite E2. unfold executeGET. rewrite E1.
      rewrite <- !app_assoc. reflexivity.
    + apply Forall_app; auto.
Qed.
End Hops.

Section Hops_runs.
Import Script.

Lemma Capture_hop_bound_witness :
  MaxHops config <= frontier.Hop (seed "http://b/" 1 (Some (seed "http://a/" 0 None))) /\
  (Capture one_outlink two_assets config
     (seed "http://b/" 1 (Some (seed "http://a/" 0 None)))
     (start (servers [page "text/html"])) =
   Capture no_outlink two_assets config
     (seed "http://b/" 1 (Some (seed "http://a/" 0 None)))
     (start (servers [page "text/html"])) /\
   (exists evs : list Event,
      trace (Capture one_outlink two_assets config
               (seed "http://b/" 1 (Some (seed "http://a/" 0 None)))
               (start (servers [page "text/html"]))).2 =
        trace (start (servers [page "text/html"])) ++ evs /\
      Forall (fun e => ~ is_EvGoQueueOutlinks e) evs) /\
   forall itemURL req,
     frontier.URL (seed "http://b/" 1 (Some (seed "http://a/" 0 None))) = Some itemURL ->
     http_NewRequest (URL_String itemURL) = Some req ->
     (0 < frontier.Hop (seed "http://b/" 1 (Some (seed "http://a/" 0 None))) ->
      exists parent parentURL,
        frontier.ParentItem (seed "http://b/" 1 (Some (seed "http://a/" 0 None)))
          = Some parent /\
        frontier.URL parent = Some parentURL) ->
     exists (req' : http_Request) (evs : list Event),
       req_URL req' = req_URL req /\
       trace (Capture one_outlink two_assets config
                (seed "http://b/" 1 (Some (seed "http://a/" 0 None)))
                (start (servers [page "text/html"]))).2 =
         trace (start (servers [page "text/html"])) ++
         EvDo (seed "http://b/" 1 (Some (seed "http://a/" 0 None)))
           (selectClient config req') req' :: evs /\
       Forall (fun e => ~ is_EvGoQueueOutlinks e) evs).
Proof.
  assert (Hhop : MaxHops config <=
                 frontier.Hop (seed "http://b/" 1 (Some (seed "http://a/" 0 None))))
    by (simpl; lia).
  split; [exact Hhop |].
  exact (Capture_hop_bound one_outlink no_outlink two_assets config
           (seed "http://b/" 1 (Some (seed "http://a/" 0 None)))
           (start (servers [page "text/html"])) Hhop).
Defined.

(** The same page captured below [MaxHops] and at [MaxHops]: at hop 0 the
    goroutine that queues the outlink is started, at hop 1 the page is
    fetched and logged and its assets are captured, and nothing is queued. *)
Example Capture_at_MaxHops :
  MaxHops config = 1 /\
  (Capture one_outlink two_assets config (seed "http://b/" 0 None)
     (start (servers [page "text/html"; page "image/png"]))).1 = Ok tt /\
  List.filter (fun e => match e with EvGoQueueOutlinks _ _ => true | _ => false end)
    (trace (Capture one_outlink two_assets config (seed "http://b/" 0 None)
              (start (servers [page "text/html"; page "image/png"]))).2)
    = [EvGoQueueOutlinks ["http://c/"] (seed "http://b/" 0 None)] /\
  (Capture one_outlink two_assets config
     (seed "http://b/" 1 (Some (seed "http://a/" 0 None)))
     (start (servers [page "text/html"; page "image/png"]))).1 = Ok tt /\
  map (fun e => match e with
                | EvDo _ _ req => ("GET " ++ URL_String (req_URL req))%string
                | EvLogSuccess u _ _ _ _ => ("success " ++ u)%string
                | EvGoQueueOutlinks _ _ => "go queueOutlinks"
                | _ => "other"
                end)
    (trace (Capture one_outlink two_assets config
              (seed "http://b/" 1 (Some (seed "http://a/" 0 None)))
              (start (servers [page "text/html"; page "image/png"]))).2)
    = ["GET http://b/"; "success http://b/";
       "GET http://b/img.png"; "success http://b/img.png"].
Proof. repeat split; vm_compute; reflexivity. Qed.
End Hops_runs.

(** ** Capture and the content type *)

Section ContentType.
Context {U : NetURL} {H : URLHash} {R : Runtime}.
Variable extractOutlinks : url_URL -> goquery_Document -> list url_URL + error.
Variable extractAssets : Crawl -> url_URL -> goquery_Document -> list url_URL + error.

Lemma strings_HasPrefix_Contains (s prefix : string) :
  Go.strings_HasPrefix s prefix = true -> Go.strings_Contains s prefix = true.
Proof.
  unfold Go.strings_HasPrefix. intros E.
  destruct s; cbn [Go.strings_Contains]; now rewrite E.
Qed.

(** The test of line 141 is on the content type containing text/: when
    it does not, [Capture] returns once the success is logged. *)
Lemma Capture_result_without_text c item itemURL resp s :
  Go.strings_Contains (Header_Get (resp_Header resp) "Content-Type") "text/" = false ->
  Capture_result extractOutlinks extractAssets c item itemURL (GetOk resp) s =
  (logCrawlSuccess (StatusCode resp) item;; mret tt) s.
Proof. intros E. unfold Capture_result. now rewrite E. Qed.

(** A content type that begins with text/ passes the test. *)
Lemma Capture_result_text_prefix (resp : http_Response) :
  Go.strings_HasPrefix (Header_Get (resp_Header resp) "Content-Type") "text/" = true ->
  negb (Go.strings_Contains (Header_Get (resp_Header resp) "Content-Type") "text/") = false.
Proof. intros E. now rewrite (strings_HasPrefix_Contains _ _ E). Qed.
End ContentType.

Section ContentType_runs.
Import Script.

(** C4. A response whose content type does not begin with text/ is parsed
    all the same when text/ occurs further on in it: line 141 tests
    [strings.Contains].  For the content type
    multipart/related; type=text/html [Capture] goes on after the success
    log, parses the body, starts the goroutine that queues the outlink
    found in it, and fetches the asset found in it. *)
Theorem Capture_parses_content_type_containing_text :
  let run :=
    Capture one_outlink two_assets config (seed "http://b/" 0 None)
      (start (servers [page "multipart/related; type=text/html"; page "image/png"])) in
  Go.strings_HasPrefix "multipart/related; type=text/html" "text/" = false /\
  run.1 = Ok tt /\
  trace run.2 =
    [EvDo (seed "http://b/" 0 None) Direct
       {| req_URL := "http://b/"; req_Header := {["Referer" := "b"]} |};
     EvLogSuccess "http://b/" 200 0 "seed" 0;
     EvGoQueueOutlinks ["http://c/"] (seed "http://b/" 0 None);
     EvDo (frontier.NewItem "http://b/img.png" (Some (seed "http://b/" 0 None)) "asset" 0)
       Direct
       {| req_URL := "http://b/img.png"; req_Header := {["Referer" := "http://b/"]} |};
     EvLogSuccess "http://b/img.png" 200 0 "asset" 1].
Proof. cbv zeta. repeat split; vm_compute; reflexivity. Qed.
End ContentType_runs.

(** ** Runs that return *)

Section Returns.
Context {U : NetURL} {H : URLHash} {R : Runtime}.

Lemma returns_ret {A} (a : A) : returns (mret a).
Proof. intros s. now exists a. Qed.

Lemma returns_deref {A} (a : A) : returns (deref (Some a)).
Proof. apply returns_ret. Qed.

Lemma returns_get : returns get.
Proof. intros s. now exists s. Qed.

Lemma returns_modify f : returns (modify f).
Proof. intros s. now exists tt. Qed.

Lemma returns_emit e : returns (emit e).
Proof. apply returns_modify. Qed.

Lemma returns_ask {A} (f : World -> A * World) : returns (ask f).
Proof.
  intros s. unfold ask. destruct (f (crawl_world s)) as [a w]. now exists a.
Qed.

Lemma returns_bind {A B} (m : M A) (f : A -> M B) :
  returns m -> (forall a, returns (f a)) -> returns (m ≫= f).
Proof.
  intros Hm Hf s. destruct (Hm s) as [a Ha]. unfold mbind, M_bind.
  destruct (m s) as [o s1]. cbn [fst] in Ha. subst o. apply Hf.
Qed.

Lemma returns_bind_deref {A B} (a : A) (f : A -> M B) :
  returns (f a) -> returns (deref (Some a) ≫= f).
Proof. intros Hf s. apply Hf. Qed.

Lemma returns_run (m : M unit) s : returns m -> m s = (Ok tt, (m s).2).
Proof.
  intros Hm. destruct (Hm s) as [[] Ha]. destruct (m s) as [o s1].
  cbn [fst snd] in *. now subst o.
Qed.

Local Ltac rstep :=
  first
    [ apply returns_ret | apply returns_deref | apply returns_get
    | apply returns_modify | apply returns_emit | apply returns_ask
    | apply returns_bind_deref
    | apply returns_bind; [ | intros ? ]
    | match goal with
      | |- returns (match ?x with _ => _ end) => destruct x
      | |- returns (let _ := _ in _) => cbv zeta
      end ].

Lemma executeGET_returns c item req :
  Go.uint_range (MaxRedirect c) ->
  0 <= frontier.Redirect item ->
  is_Some (frontier.URL item) ->
  returns (executeGET c item req).
Proof.
  intros [_ Hmax] Hr Hurl s.
  destruct (executeGET_fuel_chain
              (S (Z.to_nat (MaxRedirect c - frontier.Redirect item))) c item req s)
    as (out & s' & rest & Erun & _ & Hok & _); [assumption | assumption | lia |].
  destruct (Hok Hurl) as [r ->]. exists r. unfold executeGET. now rewrite Erun.
Qed.

Lemma logCrawlSuccess_returns code item :
  is_Some (frontier.URL item) -> returns (logCrawlSuccess code item).
Proof.
  intros [u Hu]. unfold logCrawlSuccess. rewrite Hu. repeat rstep.
Qed.

Lemma captureAsset_returns c item cookies parent :
  Go.uint_range (MaxRedirect c) ->
  0 <= frontier.Redirect item ->
  is_Some (frontier.URL item) ->
  frontier.ParentItem item = Some parent ->
  is_Some (frontier.URL parent) ->
  returns (captureAsset c item cookies).
Proof.
  intros Hmax Hr Hurl Hparent [pu Hpu].
  pose proof (logCrawlSuccess_returns) as Hlog.
  destruct Hurl as [u Hu] eqn:E. clear E.
  unfold captureAsset, Seencheck_IsSeen, Seencheck_Seen, logWarning.
  rewrite Hu, Hparent.
  repeat first
    [ rewrite Hpu
    | apply executeGET_returns; [assumption | assumption | now rewrite Hu]
    | apply Hlog; now rewrite Hu
    | rstep ].
Qed.

Lemma captureAssets_body_returns c item itemURL resp asset :
  Go.uint_range (MaxRedirect c) ->
  frontier.URL item = Some itemURL ->
  returns (captureAssets_body c item itemURL resp asset).
Proof.
  intros Hmax Hurl. unfold captureAssets_body, logWarning.
  repeat first
    [ eapply captureAsset_returns;
        [ exact Hmax | cbn; lia | cbn; eauto | reflexivity | rewrite Hurl; eauto ]
    | rstep ].
Qed.
End Returns.

(** ** The queue counter in the asset loop *)

Section QueueCount.
Context {U : NetURL} {H : URLHash} {R : Runtime}.

Lemma int64_in_range z : Go.int64_range (Go.int64 z).
Proof.
  unfold Go.int64_range, Go.int64.
  pose proof (Z.mod_pos_bound (z + 2 ^ 63) (2 ^ 64) ltac:(lia)). lia.
Qed.

Lemma int64_small z : Go.int64_range z -> Go.int64 z = z.
Proof.
  unfold Go.int64_range, Go.int64. intros Hz.
  rewrite Z.mod_small by lia. lia.
Qed.

Lemma int64_add_l a b : Go.int64 (Go.int64 a + b) = Go.int64 (a + b).
Proof.
  unfold Go.int64. f_equal.
  replace ((a + 2 ^ 63) mod 2 ^ 64 - 2 ^ 63 + b + 2 ^ 63)
    with ((a + 2 ^ 63) mod 2 ^ 64 + b) by lia.
  rewrite Zplus_mod_idemp_l. f_equal. lia.
Qed.

Lemma QueueCount_Incr_run n s :
  QueueCount_Incr n s = (Ok tt, set_QueueCount (Go.int64 (QueueCount s + n)) s).
Proof. reflexivity. Qed.

(** One turn after the decrement: it returns and leaves the counter. *)
Lemma captureAssets_body_run c item itemURL resp asset s :
  Go.uint_range (MaxRedirect c) ->
  frontier.URL item = Some itemURL ->
  exists s',
    captureAssets_body c item itemURL resp asset s = (Ok tt, s') /\
    QueueCount s' = QueueCount s.
Proof.
  intros Hmax Hurl. eexists. split.
  - apply returns_run. now apply captureAssets_body_returns.
  - apply (captureAssets_body_steps keeps_QueueCount (fun _ => True));
      unfold keeps_QueueCount; intros; auto; congruence.
Qed.

(** The loop returns, one decrement per asset. *)
Lemma captureAssets_run c item itemURL resp assets : forall s,
  Go.uint_range (MaxRedirect c) ->
  frontier.URL item = Some itemURL ->
  Go.int64_range (QueueCount s) ->
  exists s',
    captureAssets c item itemURL resp assets s = (Ok tt, s') /\
    QueueCount s' = Go.int64 (QueueCount s - Z.of_nat (length assets)).
Proof.
  induction assets as [| asset rest IH]; intros s Hmax Hurl Hq.
  - exists s. split; [reflexivity |]. cbn [length]. rewrite Z.sub_0_r.
    now rewrite int64_small.
  - cbn [captureAssets].
    rewrite (bind_Ok _ _ _ _ _ (QueueCount_Incr_run _ _)).
    destruct (captureAssets_body_run c item itemURL resp asset
                (set_QueueCount (Go.int64 (QueueCount s + -1)) s) Hmax Hurl)
      as (s1 & E1 & Q1).
    rewrite (bind_Ok _ _ _ _ _ E1).
    destruct (IH s1 Hmax Hurl) as (s' & E' & Q').
    { rewrite Q1. apply int64_in_range. }
    exists s'. split; [exact E' |].
    rewrite Q', Q1. cbn [QueueCount set_QueueCount length].
    unfold Z.sub at 1. rewrite int64_add_l. f_equal. lia.
Qed.

Lemma captureAssets_app c item itemURL resp l1 l2 : forall s,
  captureAssets c item itemURL resp (l1 ++ l2) s =
  (captureAssets c item itemURL resp l1;; captureAssets c item itemURL resp l2) s.
Proof.
  induction l1 as [| asset rest IH]; intros s; [reflexivity |].
  cbn [captureAssets app]. rewrite !bind_assoc.
  apply bind_ext. intros _ s1. rewrite bind_assoc.
  apply bind_ext. intros _ s2. apply IH.
Qed.
(** Lines 184-208, from the raise on.  The counter is raised by the
    number of assets and lowered by one at the start of every turn, skipped assets included
    (the skip of line 189 is part of [captureAssets_body], which leaves the
    counter).  For the asset at index [i] from 0, the [i+1]-th: the state
    [s_i] reached after the raise, the turns for the assets before it and
    the decrement of its own turn is the state in which the rest of the
    loop goes on with the body of its turn; there the counter is the
    initial one plus [n - (i+1)], in int64 arithmetic, and exactly so when
    the raise did not overflow.  The whole loop returns with the counter
    at its initial value. *)
Theorem Capture_assets_QueueCount c item itemURL resp assets s :
  Go.uint_range (MaxRedirect c) ->
  frontier.URL item = Some itemURL ->
  Go.int64_range (QueueCount s) ->
  let n := Z.of_nat (length assets) in
  let loop := captureAssets c item itemURL resp in
  (forall (i : nat) asset,
     assets !! i = Some asset ->
     exists s_i,
       (QueueCount_Incr n;; loop (take i assets);; QueueCount_Incr (-1)) s
         = (Ok tt, s_i) /\
       QueueCount s_i = Go.int64 (QueueCount s + (n - (Z.of_nat i + 1))) /\
       (Go.int64_range (QueueCount s + n) ->
        QueueCount s_i = QueueCount s + (n - (Z.of_nat i + 1))) /\
       (QueueCount_Incr n;; loop assets) s =
         (captureAssets_body c item itemURL resp asset;;
          loop (drop (S i) assets)) s_i) /\
  exists s',
    (QueueCount_Incr n;; loop assets) s = (Ok tt, s') /\
    QueueCount s' = QueueCount s.
Proof.
  intros Hmax Hurl Hq n loop. subst loop.
  set (sA := set_QueueCount (Go.int64 (QueueCount s + n)) s).
  assert (HA : QueueCount_Incr n s = (Ok tt, sA)) by reflexivity.
  assert (HqA : Go.int64_range (QueueCount sA)) by apply int64_in_range.
  split.
  - intros i asset Hi.
    pose proof (lookup_lt_Some _ _ _ Hi) as Hlt.
    assert (Hlen : length (take i assets) = i) by (rewrite length_take; lia).
    destruct (captureAssets_run c item itemURL resp (take i assets) sA Hmax Hurl HqA)
      as (sB & EB & QB).
    rewrite Hlen in QB. cbn [sA QueueCount set_QueueCount] in QB.
    unfold Z.sub in QB. rewrite int64_add_l in QB.
    exists (set_QueueCount (Go.int64 (QueueCount sB + -1)) sB).
    assert (Qi : Go.int64 (QueueCount sB + -1) =
                 Go.int64 (QueueCount s + (n - (Z.of_nat i + 1)))).
    { rewrite QB, int64_add_l. f_equal. lia. }
    split; [| split; [| split]].
    + rewrite (bind_Ok _ _ _ _ _ HA), (bind_Ok _ _ _ _ _ EB). reflexivity.
    + exact Qi.
    + intros Hn. cbn [QueueCount set_QueueCount]. rewrite Qi.
      apply int64_small. unfold Go.int64_range in *. lia.
    + replace (captureAssets c item itemURL resp assets)
        with (captureAssets c item itemURL resp
                (take i assets ++ asset :: drop (S i) assets))
        by (now rewrite take_drop_middle).
      rewrite (bind_Ok _ _ _ _ _ HA), captureAssets_app.
      rewrite (bind_Ok _ _ _ _ _ EB). cbn [captureAssets].
      rewrite (bind_Ok _ _ _ _ _ (QueueCount_Incr_run _ _)). reflexivity.
  - destruct (captureAssets_run c item itemURL resp assets sA Hmax Hurl HqA)
      as (s' & E' & Q').
    exists s'. rewrite (bind_Ok _ _ _ _ _ HA). split; [exact E' |].
    rewrite Q'. cbn [sA QueueCount set_QueueCount].
    unfold Z.sub. rewrite int64_add_l.
    replace (QueueCount s + n + - Z.of_nat (length assets)) with (QueueCount s)
      by (subst n; lia).
    now apply int64_small.
Qed.
End QueueCount.

Section QueueCount_runs.
Import Script.

(** A page at http://b/ with three assets, the second being the page
    itself, which is skipped; the first server answer is for the first
    asset, and the third asset gets no answer. *)
Lemma Capture_assets_QueueCount_witness :
  Go.uint_range (MaxRedirect config) /\
  frontier.URL (seed "http://b/" 0 None) = Some ("http://b/" : url_URL) /\
  Go.int64_range (QueueCount (start (servers [page "image/png"]))) /\
  let assets : list url_URL := ["http://b/img.png"; "http://b/"; "http://b/s.css"] in
  let resp := {| StatusCode := 200; resp_Header := ∅;
                 resp_Request := request "http://b/"; resp_Cookies := [] |} in
  let s := start (servers [page "image/png"]) in
  let n := Z.of_nat (length assets) in
  let loop := captureAssets config (seed "http://b/" 0 None) "http://b/" resp in
  (forall (i : nat) asset,
     assets !! i = Some asset ->
     exists s_i,
       (QueueCount_Incr n;; loop (take i assets);; QueueCount_Incr (-1)) s
         = (Ok tt, s_i) /\
       QueueCount s_i = Go.int64 (QueueCount s + (n - (Z.of_nat i + 1))) /\
       (Go.int64_range (QueueCount s + n) ->
        QueueCount s_i = QueueCount s + (n - (Z.of_nat i + 1))) /\
       (QueueCount_Incr n;; loop assets) s =
         (captureAssets_body config (seed "http://b/" 0 None) "http://b/" resp asset;;
          loop (drop (S i) assets)) s_i) /\
  exists s',
    (QueueCount_Incr n;; loop assets) s = (Ok tt, s') /\
    QueueCount s' = QueueCount s.
Proof.
  assert (Hmax : Go.uint_range (MaxRedirect config))
    by (unfold Go.uint_range; simpl; lia).
  assert (Hq : Go.int64_range (QueueCount (start (servers [page "image/png"]))))
    by (unfold Go.int64_range; simpl; lia).
  split; [exact Hmax |]. split; [reflexivity |]. split; [exact Hq |].
  exact (Capture_assets_QueueCount config (seed "http://b/" 0 None) "http://b/"
           {| StatusCode := 200; resp_Header := ∅;
              resp_Request := request "http://b/"; resp_Cookies := [] |}
           ["http://b/img.png"; "http://b/"; "http://b/s.css"]
           (start (servers [page "image/png"])) Hmax eq_refl Hq).
Defined.

(** What the logs of such a run show as queued: 2 while the first asset
    is captured; the second asset is skipped; the third one fails, and the
    warning is logged twice. *)
Example Capture_assets_queued :
  let resp := {| StatusCode := 200; resp_Header := ∅;
                 resp_Request := request "http://b/"; resp_Cookies := [] |} in
  let run :=
    (QueueCount_Incr 3;;
     captureAssets config (seed "http://b/" 0 None) "http://b/" resp
       ["http://b/img.png"; "http://b/"; "http://b/s.css"])
      (start (servers [page "image/png"])) in
  run.1 = Ok tt /\
  QueueCount run.2 = 0 /\
  omap (fun e => match e with
                 | EvLogSuccess u _ _ _ queued => Some (u, queued)
                 | _ => None
                 end) (trace run.2) = [("http://b/img.png", 2)] /\
  omap (fun e => match e with
                 | EvLogWarning msg err => Some (msg, err)
                 | _ => None
                 end) (trace run.2) =
    [("http://b/s.css", "connection refused"); ("http://b/s.css", "connection refused")].
Proof. cbv zeta. repeat split; vm_compute; reflexivity. Qed.
End QueueCount_runs.

(** ** The Kafka producer *)

Section Producer.
Context {U : NetURL} {H : URLHash} {R : Runtime}.

Lemma produce_failures_app (evs1 evs2 : list Event) :
  produce_failures (evs1 ++ evs2) = produce_failures evs1 ++ produce_failures evs2.
Proof. apply omap_app. Qed.

Lemma pushes_failures_quiet l s s' (evs : list Event) :
  trace s' = trace s ++ evs -> PushChan s' = PushChan s ->
  produce_failures evs = [] -> pushes_failures l s s'.
Proof.
  intros Et Ep Ef. exists evs. rewrite Ef, app_nil_r.
  repeat split; trivial. apply sublist_nil_l.
Qed.

Lemma pushes_failures_same l s s' :
  trace s' = trace s -> PushChan s' = PushChan s -> pushes_failures l s s'.
Proof.
  intros Et Ep. apply (pushes_failures_quiet l s s' []); trivial.
  now rewrite app_nil_r.
Qed.

Lemma pushes_failures_refl l s : pushes_failures l s s.
Proof. now apply pushes_failures_same. Qed.

Lemma pushes_failures_app l1 l2 s1 s2 s3 :
  pushes_failures l1 s1 s2 -> pushes_failures l2 s2 s3 ->
  pushes_failures (l1 ++ l2) s1 s3.
Proof.
  intros (evs1 & T1 & P1 & S1) (evs2 & T2 & P2 & S2). exists (evs1 ++ evs2).
  rewrite produce_failures_app. split; [| split].
  - now rewrite T2, T1, app_assoc.
  - now rewrite P2, P1, app_assoc.
  - now apply sublist_app.
Qed.

Lemma pushes_failures_trans s1 s2 s3 :
  pushes_failures [] s1 s2 -> pushes_failures [] s2 s3 -> pushes_failures [] s1 s3.
Proof. apply (pushes_failures_app [] []). Qed.

Lemma pushes_failures_after l s1 s2 s3 :
  pushes_failures [] s1 s2 -> pushes_failures l s2 s3 -> pushes_failures l s1 s3.
Proof. apply (pushes_failures_app [] l). Qed.

Lemma pushes_failures_before l s1 s2 s3 :
  pushes_failures l s1 s2 -> pushes_failures [] s2 s3 -> pushes_failures l s1 s3.
Proof.
  intros H1 H2. rewrite <- (app_nil_r l). eapply pushes_failures_app; eassumption.
Qed.

Lemma logWarning_pushes_nothing msg err : steps (pushes_failures []) (logWarning msg err).
Proof.
  intros s. now apply (pushes_failures_quiet [] _ _ [EvLogWarning msg err]).
Qed.

Local Ltac quiet :=
  first
    [ apply steps_ret; exact (pushes_failures_refl [])
    | apply steps_panic; exact (pushes_failures_refl [])
    | apply steps_deref; exact (pushes_failures_refl [])
    | apply logWarning_pushes_nothing
    | apply steps_ask; intros; now apply pushes_failures_same
    | apply steps_bind; [exact pushes_failures_trans | | intros ? ]
    | match goal with
      | |- steps _ (match ?x with _ => _ end) => destruct x
      end ].

Local Ltac after_quiet l :=
  apply (steps_bind_then (pushes_failures []) (pushes_failures l) (pushes_failures l));
  [ exact (pushes_failures_refl l) | exact (pushes_failures_after l) | | intros ? ].

(** One item: if its [Produce] call fails the item goes to the push
    channel, and nothing else ever does. *)
Lemma produceItem_pushes crawl item :
  steps (pushes_failures [item]) (produceItem crawl item).
Proof.
  unfold produceItem.
  after_quiet [item]; [repeat quiet |].
  after_quiet [item]; [repeat quiet |].
  after_quiet [item]; [repeat quiet |].
  after_quiet [item]; [repeat quiet |].
  intros s. rename a2 into err. destruct err as [e |].
  - exists [EvProduce item a1 (Some e);
            EvLogWarning "Failed to produce message to Kafka, pushing the seed to the local queue instead" e].
    unfold mbind, M_bind, logWarning, emit, PushChan_send, modify. cbn.
    split; [| split].
    + now rewrite <- app_assoc.
    + reflexivity.
    + reflexivity.
  - now apply (pushes_failures_quiet _ _ _ [EvProduce item a1 None]).
Qed.

Lemma kafkaProducer_loop_pushes crawl channel :
  steps (pushes_failures channel) (kafkaProducer_loop crawl channel).
Proof.
  induction channel as [| item rest IH]; cbn [kafkaProducer_loop].
  - apply steps_ret. apply pushes_failures_refl.
  - after_quiet (item :: rest); [repeat quiet |].
    destruct a.
    + apply steps_ret. apply pushes_failures_refl.
    + apply (steps_bind_then (pushes_failures [item]) (pushes_failures rest)
               (pushes_failures (item :: rest)));
        [ apply pushes_failures_refl | apply (pushes_failures_app [item] rest)
        | apply produceItem_pushes | intros _; exact IH ].
Qed.

(** Whatever the producer takes from the outlink channel, what it
    sends on the push channel of the frontier is exactly the items whose
    [Produce] call was recorded with an error, each of them once and in the order
    of the calls: an item whose produce call fails is pushed, not dropped.
    These items come from the channel, in its order. *)
Theorem kafkaProducer_fallback crawl channel s :
  exists evs : list Event,
    trace (kafkaProducer crawl channel s).2 = trace s ++ evs /\
    PushChan (kafkaProducer crawl channel s).2 =
      PushChan s ++ produce_failures evs /\
    produce_failures evs `sublist_of` channel.
Proof.
  revert s. change (steps (pushes_failures channel) (kafkaProducer crawl channel)).
  unfold kafkaProducer.
  after_quiet channel; [repeat quiet |].
  destruct a; [apply steps_panic, pushes_failures_refl |].
  apply (steps_defer_then (pushes_failures channel) (pushes_failures [])
           (pushes_failures channel));
    [ apply pushes_failures_refl | apply pushes_failures_before | | ].
  - apply (steps_bind_then (pushes_failures channel) (pushes_failures [])
             (pushes_failures channel));
      [ apply pushes_failures_refl | apply pushes_failures_before
      | apply kafkaProducer_loop_pushes | intros _ ].
    intros s0. now apply (pushes_failures_quiet [] _ _ [EvFlush (15 * 1000)]).
  - intros s0. now apply (pushes_failures_quiet [] _ _ [EvClose]).
Qed.

(** The step of one item, with the call that fails at hand. *)
Lemma produceItem_failure crawl item s u bytes e w :
  frontier.URL item = Some u ->
  (forall parent, frontier.ParentItem item = Some parent ->
                  is_Some (frontier.URL parent)) ->
  json_Marshal
    {| URL := URL_String u; HopsCount := frontier.Hop item;
       ParentURL := match frontier.ParentItem item with
                    | Some {| frontier.URL := Some pu |} => URL_String pu
                    | _ => ""
                    end |} = inl bytes ->
  Producer_Produce (KafkaOutlinksTopic crawl) bytes (crawl_world s) = (Some e, w) ->
  exists s',
    produceItem crawl item s = (Ok tt, s') /\
    PushChan s' = PushChan s ++ [item].
Proof.
  intros Hu Hparent Hjson Hproduce. unfold produceItem.
  rewrite Hu. cbn [deref]. rewrite bind_ret.
  destruct (frontier.ParentItem item) as [parent |] eqn:Hp.
  - destruct (Hparent parent eq_refl) as [pu Hpu].
    destruct parent as [? ? ? ? purl ?]. cbn in Hpu. subst purl.
    cbn [frontier.URL deref]. eexists. split.
    + rewrite bind_assoc, !bind_ret, Hjson, bind_ret.
      rewrite (bind_Ok _ _ _ _ _ (ask_run _ _)). rewrite Hproduce.
      reflexivity.
    + reflexivity.
  - eexists. split.
    + rewrite bind_ret, Hjson, bind_ret.
      rewrite (bind_Ok _ _ _ _ _ (ask_run _ _)). rewrite Hproduce.
      reflexivity.
    + reflexivity.
Qed.
End Producer.

Section Producer_runs.
Import Script.

(** The broker is unreachable and the producer receives two outlinks:
    both are on the push channel when it stops. *)
Example kafkaProducer_broker_down :
  let w := {| responses := []; messages := []; broker_down := true;
              finished := false; active_workers := 0; store_down := false |} in
  let a := seed "http://a/" 0 None in
  let b := seed "http://b/" 1 (Some a) in
  (kafkaProducer config [a; b] (start w)).1 = Ok tt /\
  PushChan (kafkaProducer config [a; b] (start w)).2 = [a; b] /\
  produce_failures (trace (kafkaProducer config [a; b] (start w)).2) = [a; b].
Proof. cbv zeta. repeat split; vm_compute; reflexivity. Qed.
End Producer_runs.

(** ** The Kafka consumer *)

Section Consumer.
Context {U : NetURL} {H : URLHash} {R : Runtime}.

Lemma reads_later_quiet s s' (evs : list Event) :
  now s <= now s' -> trace s' = trace s ++ evs ->
  Forall (no_read_before (now s)) evs -> reads_later s s'.
Proof. intros Hn Ht Hf. split; [exact Hn | now exists evs]. Qed.

Lemma reads_later_same s s' :
  now s' = now s -> trace s' = trace s -> reads_later s s'.
Proof.
  intros Hn Ht. apply (reads_later_quiet s s' []); [lia | | constructor].
  now rewrite app_nil_r.
Qed.

Lemma reads_later_refl s : reads_later s s.
Proof. now apply reads_later_same. Qed.

Lemma no_read_before_mono t t' e : t <= t' -> no_read_before t' e -> no_read_before t e.
Proof. destruct e; cbn; intros; trivial; lia. Qed.

Lemma reads_later_trans s1 s2 s3 :
  reads_later s1 s2 -> reads_later s2 s3 -> reads_later s1 s3.
Proof.
  intros (N1 & evs1 & T1 & F1) (N2 & evs2 & T2 & F2).
  apply (reads_later_quiet s1 s3 (evs1 ++ evs2)); [lia | |].
  - now rewrite T2, T1, app_assoc.
  - apply Forall_app. split; [exact F1 |].
    eapply Forall_impl; [exact F2 |]. intros e. now apply no_read_before_mono.
Qed.

Lemma emit_reads_later e :
  (forall t, no_read_before t e) -> steps reads_later (emit e).
Proof.
  intros He s. apply (reads_later_quiet _ _ [e]); [reflexivity | reflexivity |].
  repeat constructor. apply He.
Qed.

Lemma Sleep_reads_later d : 0 <= d -> steps reads_later (Sleep d).
Proof.
  intros Hd s. unfold Sleep, mbind, M_bind, emit, modify. cbn [fst snd].
  apply (reads_later_quiet _ _ [EvSleep d]); cbn; [lia | reflexivity |].
  repeat constructor.
Qed.

Local Ltac later :=
  first
    [ apply steps_ret; exact reads_later_refl
    | apply steps_panic; exact reads_later_refl
    | apply steps_out_of_fuel; exact reads_later_refl
    | apply Sleep_reads_later; unfold Go.time_Second; lia
    | apply emit_reads_later; intros; exact I
    | apply steps_ask; intros; now apply reads_later_same
    | apply steps_modify; intros; now apply reads_later_same
    | apply steps_bind; [exact reads_later_trans | | intros ? ]
    | match goal with
      | |- steps _ (match ?x with _ => _ end) => destruct x
      end ].

(** A read is stamped with the time it starts at. *)
Lemma kafkaConsumeMessage_reads_later crawl :
  steps reads_later (kafkaConsumeMessage crawl).
Proof.
  intros s. unfold kafkaConsumeMessage.
  rewrite (bind_Ok _ _ _ _ _ (get_run s)).
  apply steps_bind_at; [exact reads_later_trans | |].
  - apply (reads_later_quiet _ _ [EvReadMessage (now s) 15]);
      [reflexivity | reflexivity |].
    repeat constructor. cbn. lia.
  - intros _. unfold logWarning, PushChan_send. repeat later.
Qed.

Lemma kafkaConsumer_iteration_reads_later crawl :
  steps reads_later (kafkaConsumer_iteration crawl).
Proof.
  unfold kafkaConsumer_iteration.
  repeat first [ apply kafkaConsumeMessage_reads_later | later ].
Qed.

Lemma kafkaConsumer_loop_reads_later turns crawl :
  steps reads_later (kafkaConsumer_loop turns crawl).
Proof.
  induction turns as [| turns IH]; cbn [kafkaConsumer_loop].
  - later.
  - repeat first [ apply kafkaConsumer_iteration_reads_later | exact IH | later ].
Qed.

(** The threshold of line 111 is nine tenths of [Workers], rounded up. *)
Lemma admission_threshold workers active :
  9 * workers <= 10 * active -> workers - workers ÷ 10 <= active.
Proof.
  intros Hle. pose proof (Z.quot_rem' workers 10) as Hq.
  assert (Hr : - 10 < Z.rem workers 10 < 10 /\
               (0 <= workers -> 0 <= Z.rem workers 10) /\
               (workers <= 0 -> Z.rem workers 10 <= 0)).
  { destruct (Z.le_gt_cases 0 workers) as [Hpos | Hneg].
    - pose proof (Z.rem_bound_pos_pos workers 10 ltac:(lia) Hpos). lia.
    - pose proof (Z.rem_bound_pos_neg workers 10 ltac:(lia) ltac:(lia)). lia. }
  revert Hq Hr. generalize (workers ÷ 10) (Z.rem workers 10). intros q r Hq Hr.
  lia.
Qed.

(** The schedule in which every goroutine runs to its end where it is
    started.  When the consumer, at the top of its loop with [Finished]
    unset, reads an [ActiveWorkers] value of at least nine tenths of
    [Workers], the turn sleeps one second and goes back to the top of the
    loop: it takes no slot of the worker pool and starts no read.  However
    many turns follow, every Kafka read they start is stamped at least one
    second after the time of the observation. *)
Theorem kafkaConsumer_admission_control crawl s turns active w1 w2 :
  Finished_Get (crawl_world s) = (false, w1) ->
  ActiveWorkers_Value w1 = (active, w2) ->
  9 * Workers crawl <= 10 * active ->
  kafkaConsumer_iteration crawl s =
    (Ok Continue,
     set_trace (trace s ++ [EvSleep Go.time_Second])
       (set_now (now s + Go.time_Second) (set_world w2 s))) /\
  exists evs : list Event,
    trace (kafkaConsumer_loop turns crawl s).2 = trace s ++ evs /\
    Forall (no_read_before (now s + Go.time_Second)) evs.
Proof.
  intros Hfin Hact Hle.
  assert (Hturn : kafkaConsumer_iteration crawl s =
            (Ok Continue,
             set_trace (trace s ++ [EvSleep Go.time_Second])
               (set_now (now s + Go.time_Second) (set_world w2 s)))).
  { unfold kafkaConsumer_iteration.
    rewrite (bind_Ok _ _ _ _ _ (ask_run _ _)), Hfin. cbn [fst snd].
    rewrite (bind_Ok _ _ _ _ _ (ask_run _ _)). cbn [crawl_world set_world].
    rewrite Hact. cbn [fst snd].
    apply admission_threshold, Z.leb_le in Hle. rewrite Hle. reflexivity. }
  split; [exact Hturn |].
  destruct turns as [| turns]; cbn [kafkaConsumer_loop].
  - exists []. split; [now rewrite app_nil_r | constructor].
  - rewrite (bind_Ok _ _ _ _ _ Hturn).
    destruct (kafkaConsumer_loop_reads_later turns crawl
                (set_trace (trace s ++ [EvSleep Go.time_Second])
                   (set_now (now s + Go.time_Second) (set_world w2 s))))
      as (_ & evs & Ht & Hf).
    exists (EvSleep Go.time_Second :: evs). split.
    + rewrite Ht. cbn [trace set_trace]. now rewrite <- app_assoc.
    + constructor; [exact I | exact Hf].
Qed.
(** For a pool of at least no workers the test of line 111 is exactly
    [ActiveWorkers >= 9/10 * Workers]. *)
Lemma admission_threshold_iff workers active :
  0 <= workers ->
  (workers - workers ÷ 10 <=? active) = true <-> 9 * workers <= 10 * active.
Proof.
  intros Hw. rewrite Z.leb_le. split; [| apply admission_threshold].
  pose proof (Z.quot_rem' workers 10) as Hq.
  pose proof (Z.rem_bound_pos_pos workers 10 ltac:(lia) Hw) as Hr.
  revert Hq Hr. generalize (workers ÷ 10) (Z.rem workers 10). intros q r Hq Hr.
  lia.
Qed.

Lemma len_nonempty (str : string) : str <> "" -> (0 <? Go.len str) = true.
Proof.
  intros Hne. apply Z.ltb_lt. unfold Go.len. destruct str; [congruence |].
  cbn [String.length]. lia.
Qed.

(** A message that was read and decoded and whose URL parses: the run up to
    the choice of the item to push. *)
Lemma kafkaConsumeMessage_decoded crawl s value w m newURL :
  Consumer_ReadMessage 15 (crawl_world s) = (inl value, w) ->
  json_Unmarshal value = UnmarshalOk m ->
  url_Parse (URL m) = Some newURL ->
  kafkaConsumeMessage crawl s =
    ((if 0 <? Go.len (ParentURL m) then
        match url_Parse (ParentURL m) with
        | None =>
            logWarning "Unable to parse parent URL from Kafka message" "parse";;
            mret frontier.zero
        | Some newParentURL =>
            mret (frontier.NewItem newURL
                    (Some (frontier.NewItem newParentURL None "seed"
                             (if 0 <? HopsCount m
                              then Go.uint8 (HopsCount m - 1) else 0)))
                    "seed" (HopsCount m))
        end
      else mret (frontier.NewItem newURL None "seed" (HopsCount m)))
     ≫= fun newItem => PushChan_send newItem;; emit EvPoolDone)
      (set_trace (trace s ++ [EvReadMessage (now s) 15;
                              EvLogDebug "New message received from Kafka"])
         (set_world w s)).
Proof.
  intros Hread Hjson Hparse. unfold kafkaConsumeMessage.
  rewrite (bind_Ok _ _ _ _ _ (get_run s)).
  rewrite (bind_Ok _ _ _ _ _ (emit_run _ _)).
  rewrite (bind_Ok _ _ _ _ _ (ask_run _ _)).
  cbn [crawl_world set_trace]. rewrite Hread. cbn [fst snd].
  rewrite (bind_Ok _ _ _ _ _ (emit_run _ _)).
  rewrite Hjson, Hparse.
  cbn [set_world set_trace trace crawl_world QueueCount SeencheckDB PushChan now].
  rewrite <- app_assoc. reflexivity.
Qed.

(** C8. A message that decodes to a URL that parses, a hop count and a
    parent URL.  If the parent URL is not empty and parses, the consumer
    pushes an item with the URL, type seed, the hop count of the message,
    and a parent with the parent URL and hop count [max(0, hop - 1)].  If
    the parent URL is empty, it pushes such an item without parent. *)
Theorem kafkaConsumeMessage_pushes_seed crawl s value w m newURL :
  Consumer_ReadMessage 15 (crawl_world s) = (inl value, w) ->
  json_Unmarshal value = UnmarshalOk m ->
  Go.uint8_range (HopsCount m) ->
  url_Parse (URL m) = Some newURL ->
  (forall newParentURL,
     ParentURL m <> "" ->
     url_Parse (ParentURL m) = Some newParentURL ->
     exists s' item parent,
       kafkaConsumeMessage crawl s = (Ok tt, s') /\
       PushChan s' = PushChan s ++ [item] /\
       frontier.URL item = Some newURL /\
       frontier.Type_ item = "seed" /\
       frontier.Hop item = HopsCount m /\
       frontier.ParentItem item = Some parent /\
       frontier.URL parent = Some newParentURL /\
       frontier.Hop parent = Z.max 0 (HopsCount m - 1)) /\
  (ParentURL m = "" ->
   exists s' item,
     kafkaConsumeMessage crawl s = (Ok tt, s') /\
     PushChan s' = PushChan s ++ [item] /\
     frontier.URL item = Some newURL /\
     frontier.Type_ item = "seed" /\
     frontier.Hop item = HopsCount m /\
     frontier.ParentItem item = None).
Proof.
  intros Hread Hjson [Hhop0 Hhop] Hparse.
  rewrite (kafkaConsumeMessage_decoded _ _ _ _ _ _ Hread Hjson Hparse).
  split.
  - intros newParentURL Hne Hparent.
    rewrite (len_nonempty _ Hne), Hparent, bind_ret.
    eexists _, _, _. split; [reflexivity |]. split; [reflexivity |].
    repeat split. cbn [frontier.Hop frontier.NewItem].
    destruct (0 <? HopsCount m) eqn:Hpos.
    + apply Z.ltb_lt in Hpos. unfold Go.uint8. rewrite Z.mod_small; lia.
    + apply Z.ltb_ge in Hpos. lia.
  - intros ->. change (0 <? Go.len "") with false. cbv iota.
    rewrite bind_ret. eexists _, _. split; [reflexivity |].
    split; [reflexivity |]. repeat split.
Qed.

(** C10. A message whose URL parses and whose parent URL is not empty and
    does not parse is not skipped: after the warning the consumer pushes
    the item it had allocated with [new(frontier.Item)], which has no URL,
    hop count 0, the empty type and no parent, and not an item made from
    the message. *)
Theorem kafkaConsumeMessage_pushes_zero_item crawl s value w m newURL :
  Consumer_ReadMessage 15 (crawl_world s) = (inl value, w) ->
  json_Unmarshal value = UnmarshalOk m ->
  url_Parse (URL m) = Some newURL ->
  ParentURL m <> "" ->
  url_Parse (ParentURL m) = None ->
  exists s' item,
    kafkaConsumeMessage crawl s = (Ok tt, s') /\
    PushChan s' = PushChan s ++ [item] /\
    item = frontier.zero /\
    frontier.URL item = None /\
    frontier.Hop item = 0 /\
    frontier.Type_ item = "" /\
    frontier.ParentItem item = None /\
    trace s' = trace s ++
      [EvReadMessage (now s) 15;
       EvLogDebug "New message received from Kafka";
       EvLogWarning "Unable to parse parent URL from Kafka message" "parse";
       EvPoolDone].
Proof.
  intros Hread Hjson Hparse Hne Hparent.
  rewrite (kafkaConsumeMessage_decoded _ _ _ _ _ _ Hread Hjson Hparse).
  rewrite (len_nonempty _ Hne), Hparent.
  eexists _, _. split; [reflexivity |]. split; [reflexivity |].
  repeat split. cbn. now rewrite <- !app_assoc.
Qed.
End Consumer.

Section Consumer_runs.
Import Script.

Lemma kafkaConsumer_admission_control_witness :
  kafkaConsumer_iteration config (start (broker [inl (message "http://c/" 0 "")] 5)) =
    (Ok Continue,
     set_trace (trace (start (broker [inl (message "http://c/" 0 "")] 5)) ++
                [EvSleep Go.time_Second])
       (set_now (now (start (broker [inl (message "http://c/" 0 "")] 5)) + Go.time_Second)
          (set_world (broker [inl (message "http://c/" 0 "")] 5)
             (start (broker [inl (message "http://c/" 0 "")] 5))))) /\
  exists evs : list Event,
    trace (kafkaConsumer_loop 4 config
             (start (broker [inl (message "http://c/" 0 "")] 5))).2 =
      trace (start (broker [inl (message "http://c/" 0 "")] 5)) ++ evs /\
    Forall (no_read_before
              (now (start (broker [inl (message "http://c/" 0 "")] 5)) + Go.time_Second))
      evs.
Proof.
  apply (kafkaConsumer_admission_control config
           (start (broker [inl (message "http://c/" 0 "")] 5)) 4 5
           (broker [inl (message "http://c/" 0 "")] 5)
           (broker [inl (message "http://c/" 0 "")] 5)).
  - reflexivity.
  - reflexivity.
  - simpl. lia.
Defined.

(** Five workers, so that nine tenths of them is four and a half.  With
    five active the consumer only sleeps.  With four active, which is the
    integer quotient of 5 * 9 by 10, it takes a slot and reads. *)
Example kafkaConsumer_threshold_of_five :
  Workers config = 5 /\
  trace (kafkaConsumer_iteration config
           (start (broker [inl (message "http://c/" 0 "")] 5))).2 =
    [EvSleep 1000000000] /\
  5 * 9 / 10 = 4 /\
  trace (kafkaConsumer_iteration config
           (start (broker [inl (message "http://c/" 0 "")] 4))).2 =
    [EvPoolAdd; EvReadMessage 0 15; EvLogDebug "New message received from Kafka";
     EvPoolDone].
Proof. repeat split; vm_compute; reflexivity. Qed.

Lemma kafkaConsumeMessage_pushes_seed_witness :
  (forall newParentURL,
     ParentURL {| URL := "http://c/"; HopsCount := 2; ParentURL := "http://b/" |} <> "" ->
     url_Parse (ParentURL {| URL := "http://c/"; HopsCount := 2; ParentURL := "http://b/" |})
       = Some newParentURL ->
     exists s' item parent,
       kafkaConsumeMessage config
         (start (broker [inl (message "http://c/" 2 "http://b/")] 0)) = (Ok tt, s') /\
       PushChan s' =
         PushChan (start (broker [inl (message "http://c/" 2 "http://b/")] 0)) ++ [item] /\
       frontier.URL item = Some ("http://c/" : url_URL) /\
       frontier.Type_ item = "seed" /\
       frontier.Hop item = 2 /\
       frontier.ParentItem item = Some parent /\
       frontier.URL parent = Some newParentURL /\
       frontier.Hop parent = Z.max 0 (2 - 1)) /\
  (ParentURL {| URL := "http://c/"; HopsCount := 2; ParentURL := "http://b/" |} = "" ->
   exists s' item,
     kafkaConsumeMessage config
       (start (broker [inl (message "http://c/" 2 "http://b/")] 0)) = (Ok tt, s') /\
     PushChan s' =
       PushChan (start (broker [inl (message "http://c/" 2 "http://b/")] 0)) ++ [item] /\
     frontier.URL item = Some ("http://c/" : url_URL) /\
     frontier.Type_ item = "seed" /\
     frontier.Hop item = 2 /\
     frontier.ParentItem item = None).
Proof.
  apply (kafkaConsumeMessage_pushes_seed config
           (start (broker [inl (message "http://c/" 2 "http://b/")] 0))
           (encode (message "http://c/" 2 "http://b/"))
           (broker [] 0)
           {| URL := "http://c/"; HopsCount := 2; ParentURL := "http://b/" |}
           "http://c/").
  - reflexivity.
  - vm_compute. reflexivity.
  - unfold Go.uint8_range. simpl. lia.
  - reflexivity.
Defined.

(** The ingest scenario of the specification, and a message without
    parent. *)
Example kafkaConsumeMessage_ingest :
  PushChan (kafkaConsumeMessage config
              (start (broker [inl (message "http://c/" 2 "http://b/")] 0))).2 =
    [seed "http://c/" 2 (Some (seed "http://b/" 1 None))] /\
  PushChan (kafkaConsumeMessage config
              (start (broker [inl (message "http://c/" 0 "")] 0))).2 =
    [seed "http://c/" 0 None].
Proof. split; vm_compute; reflexivity. Qed.

Lemma kafkaConsumeMessage_pushes_zero_item_witness :
  exists s' item,
    kafkaConsumeMessage config
      (start (broker [inl (message "http://c/" 2 ":b")] 0)) = (Ok tt, s') /\
    PushChan s' = PushChan (start (broker [inl (message "http://c/" 2 ":b")] 0)) ++ [item] /\
    item = frontier.zero /\
    frontier.URL item = None /\
    frontier.Hop item = 0 /\
    frontier.Type_ item = "" /\
    frontier.ParentItem item = None /\
    trace s' = trace (start (broker [inl (message "http://c/" 2 ":b")] 0)) ++
      [EvReadMessage (now (start (broker [inl (message "http://c/" 2 ":b")] 0))) 15;
       EvLogDebug "New message received from Kafka";
       EvLogWarning "Unable to parse parent URL from Kafka message" "parse";
       EvPoolDone].
Proof.
  apply (kafkaConsumeMessage_pushes_zero_item config
           (start (broker [inl (message "http://c/" 2 ":b")] 0))
           (encode (message "http://c/" 2 ":b"))
           (broker [] 0)
           {| URL := "http://c/"; HopsCount := 2; ParentURL := ":b" |}
           "http://c/").
  - reflexivity.
  - vm_compute. reflexivity.
  - reflexivity.
  - discriminate.
  - reflexivity.
Defined.
End Consumer_runs.

(** * Further properties *)

(** ** executeGET: what it touches and how the chain is built *)

Section ExecuteGET_more.
Context {U : NetURL} {H : URLHash} {R : Runtime}.

Section Only_appends.
Variable P : Event -> Prop.

Lemma only_appends_same s s' :
  QueueCount s' = QueueCount s -> SeencheckDB s' = SeencheckDB s ->
  PushChan s' = PushChan s -> now s' = now s -> trace s' = trace s ->
  only_appends P s s'.
Proof. intros. repeat split; trivial. now apply appends_same_trace. Qed.

Lemma only_appends_refl s : only_appends P s s.
Proof. now apply only_appends_same. Qed.

Lemma only_appends_trans s1 s2 s3 :
  only_appends P s1 s2 -> only_appends P s2 s3 -> only_appends P s1 s3.
Proof.
  intros (Q1 & D1 & C1 & N1 & A1) (Q2 & D2 & C2 & N2 & A2).
  repeat split; try congruence. eapply appends_trans; eassumption.
Qed.

Lemma only_appends_world s w : only_appends P s (set_world w s).
Proof. now apply only_appends_same. Qed.

Lemma only_appends_emit s e :
  P e -> only_appends P s (set_trace (trace s ++ [e]) s).
Proof. intros He. repeat split; trivial. now apply appends_emit. Qed.
End Only_appends.

(** X1. [executeGET] changes nothing of the crawl state but the world and
    the trace, and what it adds to the trace is HTTP round trips only: it
    logs nothing, it leaves the queue counter, the seencheck store, the
    push channel and the clock as they are. *)
Theorem executeGET_only_fetches c item req s :
  QueueCount (executeGET c item req s).2 = QueueCount s /\
  SeencheckDB (executeGET c item req s).2 = SeencheckDB s /\
  PushChan (executeGET c item req s).2 = PushChan s /\
  now (executeGET c item req s).2 = now s /\
  exists evs : list Event,
    trace (executeGET c item req s).2 = trace s ++ evs /\
    Forall is_EvDo evs.
Proof.
  exact (executeGET_steps (only_appends is_EvDo) is_EvDo
           (only_appends_refl _) (only_appends_trans _) (only_appends_world _)
           (only_appends_emit _) (fun _ _ _ => I) c item req s).
Qed.

(** The items of the fetches of a run, whatever its budget. *)
Lemma executeGET_fuel_linked fuel : forall c item req s,
  exists evs : list Event,
    trace (executeGET_fuel fuel c item req s).2 = trace s ++ evs /\
    (fuel = O -> evs = []) /\
    (fuel <> O -> head (fetch_items evs) = Some item) /\
    linked (fetch_items evs) /\
    Forall (fun it => frontier.Type_ it = frontier.Type_ item /\
                      frontier.Hop it = frontier.Hop item) (fetch_items evs).
Proof.
  induction fuel as [| fuel IH]; intros c item req s.
  { exists []. cbn. rewrite app_nil_r. repeat split; trivial; congruence. }
  cbn [executeGET_fuel].
  rewrite (bind_Ok _ _ _ _ _ (Do_run _ _ _ _)).
  set (s1 := set_world _ _).
  assert (Stop : forall (out : Outcome (http_Request * GetResult)),
            exists evs : list Event,
              trace (out, s1).2 = trace s ++ evs /\
              (S fuel = O -> evs = []) /\
              (S fuel <> O -> head (fetch_items evs) = Some item) /\
              linked (fetch_items evs) /\
              Forall (fun it => frontier.Type_ it = frontier.Type_ item /\
                                frontier.Hop it = frontier.Hop item) (fetch_items evs)).
  { intros out. exists [EvDo item (selectClient c req) req].
    repeat split; trivial; try discriminate. repeat constructor. }
  destruct (Client_Do _ _ _).1 as [resp | err]; [| apply Stop].
  destruct (isRedirection _); [| apply Stop].
  destruct (String.eqb _ _ || _); [apply Stop |].
  destruct (url_Parse _) as [URL |]; [| apply Stop].
  destruct (http_NewRequest _) as [newReq |]; [| apply Stop].
  set (newItem := frontier.set_Redirect _ _).
  change (frontier.ParentItem newItem) with (Some item). cbn [deref].
  rewrite bind_ret.
  destruct (frontier.URL item) as [parentURL |]; cbn [deref]; [| apply Stop].
  rewrite bind_ret.
  destruct (IH c newItem newReq s1) as (evs & Ht & H0 & Hhd & Hlink & Hkind).
  unfold mbind, M_bind.
  destruct (executeGET_fuel fuel c newItem newReq s1) as [out s2].
  cbn [snd] in Ht.
  assert (Hs2 : forall o : Outcome (http_Request * GetResult),
            exists evs' : list Event,
              trace (o, s2).2 = trace s ++ evs' /\
              (S fuel = O -> evs' = []) /\
              (S fuel <> O -> head (fetch_items evs') = Some item) /\
              linked (fetch_items evs') /\
              Forall (fun it => frontier.Type_ it = frontier.Type_ item /\
                                frontier.Hop it = frontier.Hop item) (fetch_items evs')).
  { intros o. exists (EvDo item (selectClient c req) req :: evs).
    split; [cbn [snd]; rewrite Ht; cbn; now rewrite <- app_assoc |].
    split; [discriminate |]. split; [reflexivity |].
    change (fetch_items (EvDo item (selectClient c req) req :: evs))
      with (item :: fetch_items evs).
    split.
    - cbn [linked]. split; [| exact Hlink].
      destruct fuel as [| fuel'].
      + rewrite (H0 eq_refl). exact I.
      + specialize (Hhd ltac:(discriminate)).
        destruct (fetch_items evs) as [| b rest]; [exact I |].
        cbn in Hhd. injection Hhd as ->. repeat split.
    - constructor; [split; reflexivity | exact Hkind]. }
  destruct out as [[? ?] | |]; apply Hs2.
Qed.

(** X2. The fetches that [executeGET] makes for an item form a chain that
    starts at the item: each later fetch is made for an item whose parent
    is the item of the fetch before it, and all of them have the type and
    the hop count of the first. *)
Theorem executeGET_chain_linked c item req s :
  exists (evs : list Event) (rest : list frontier.Item),
    trace (executeGET c item req s).2 = trace s ++ evs /\
    fetch_items evs = item :: rest /\
    linked (item :: rest) /\
    Forall (fun it => frontier.Type_ it = frontier.Type_ item /\
                      frontier.Hop it = frontier.Hop item) rest.
Proof.
  destruct (executeGET_fuel_linked
              (S (Z.to_nat (MaxRedirect c - frontier.Redirect item))) c item req s)
    as (evs & Ht & _ & Hhd & Hlink & Hkind).
  specialize (Hhd ltac:(discriminate)).
  destruct (fetch_items evs) as [| it rest] eqn:Hfi; [discriminate |].
  cbn in Hhd. injection Hhd as ->.
  exists evs, rest. split; [exact Ht |]. split; [exact Hfi |].
  split; [exact Hlink |]. now inversion Hkind.
Qed.
(** A run that hands back a response which is still a redirection. *)
Lemma executeGET_fuel_final fuel : forall c item req s req' resp s',
  executeGET_fuel fuel c item req s = (Ok (req', GetOk resp), s') ->
  isRedirection (StatusCode resp) = true ->
  exists (evs : list Event) it rq,
    trace s' = trace s ++ evs ++ [EvDo it (selectClient c rq) rq] /\
    (Header_Get (resp_Header resp) "location" = URL_String (req_URL rq) \/
     MaxRedirect c <= frontier.Redirect it).
Proof.
  induction fuel as [| fuel IH]; intros c item req s req' resp s' Hrun Hredir.
  { discriminate. }
  revert Hrun. cbn [executeGET_fuel].
  rewrite (bind_Ok _ _ _ _ _ (Do_run _ _ _ _)).
  set (s1 := set_world _ _).
  destruct (Client_Do _ _ _).1 as [resp0 | err]; [| discriminate].
  destruct (isRedirection (StatusCode resp0)) eqn:Hredir0.
  2:{ intros Hrun. injection Hrun as E1 E2 E3. subst. congruence. }
  destruct (String.eqb _ _ || _) eqn:Hstop.
  { intros Hrun. injection Hrun as E1 E2 E3. subst req' resp s'.
    exists [], item, req. split; [reflexivity |].
    apply orb_true_iff in Hstop as [Heq | Hcap].
    - left. now apply String.eqb_eq.
    - right. now apply Z.leb_le. }
  destruct (url_Parse _) as [URL |]; [| discriminate].
  destruct (http_NewRequest _) as [newReq |]; [| discriminate].
  set (newItem := frontier.set_Redirect _ _).
  change (frontier.ParentItem newItem) with (Some item). cbn [deref].
  rewrite bind_ret.
  destruct (frontier.URL item) as [parentURL |]; cbn [deref]; [| discriminate].
  rewrite bind_ret. unfold mbind, M_bind.
  destruct (executeGET_fuel fuel c newItem newReq s1) as [[[r res] | |] s2] eqn:Erec;
    [| discriminate ..].
  intros Hrun. injection Hrun as E1 E2 E3. subst req' res s'.
  destruct (IH _ _ _ _ _ _ _ Erec Hredir) as (evs & it & rq & Ht & Hend).
  exists (EvDo item (selectClient c req) req :: evs), it, rq.
  split; [| exact Hend]. rewrite Ht. cbn. now rewrite <- !app_assoc.
Qed.

(** X3. Redirects are followed to the end: when [executeGET] returns
    without error a response that is still a redirection, then the last
    fetch of the run either was answered with its own URL as Location, or
    was made for an item whose redirect counter had reached [MaxRedirect]. *)
Theorem executeGET_redirection_returned c item req s req' resp :
  (executeGET c item req s).1 = Ok (req', GetOk resp) ->
  isRedirection (StatusCode resp) = true ->
  exists (evs : list Event) it rq,
    trace (executeGET c item req s).2 =
      trace s ++ evs ++ [EvDo it (selectClient c rq) rq] /\
    (Header_Get (resp_Header resp) "location" = URL_String (req_URL rq) \/
     MaxRedirect c <= frontier.Redirect it).
Proof.
  intros Hrun Hredir. unfold executeGET in *.
  destruct (executeGET_fuel _ c item req s) as [out s'] eqn:E.
  cbn [fst snd] in *. subst out. eapply executeGET_fuel_final; eassumption.
Qed.

(** [executeGET] keeps an invariant of the items it makes fetches for. *)
Lemma executeGET_fuel_maintains (P : Event -> Prop) (Inv : frontier.Item -> Prop) c :
  (forall it req, Inv it -> P (EvDo it (selectClient c req) req)) ->
  (forall it u,
     Inv it ->
     Inv (frontier.set_Redirect
            (frontier.NewItem u (Some it) (frontier.Type_ it) (frontier.Hop it))
            (Go.uint (frontier.Redirect it + 1)))) ->
  forall fuel item req,
    Inv item -> steps (only_appends P) (executeGET_fuel fuel c item req).
Proof.
  intros HP Hchild fuel.
  induction fuel as [| fuel IH]; intros item req Hitem; cbn [executeGET_fuel].
  { apply steps_out_of_fuel, only_appends_refl. }
  apply steps_bind; [apply only_appends_trans | |].
  { intros s. rewrite Do_run. cbn [snd].
    eapply only_appends_trans;
      [apply only_appends_emit, HP, Hitem | apply only_appends_world]. }
  intros r.
  repeat first
    [ apply steps_ret; apply only_appends_refl
    | apply steps_panic; apply only_appends_refl
    | apply steps_deref; apply only_appends_refl
    | apply IH; apply Hchild, Hitem
    | apply steps_bind; [apply only_appends_trans | | intros ? ]
    | match goal with
      | |- steps _ (match ?x with _ => _ end) => destruct x
      | |- steps _ (let _ := _ in _) => cbv zeta
      end ].
Qed.

(** X4. Without a proxied client every fetch of [executeGET], down the
    whole redirect chain, goes through [c.Client]. *)
Theorem executeGET_direct_without_proxy c item req s :
  ClientProxied c = None ->
  exists evs : list Event,
    trace (executeGET c item req s).2 = trace s ++ evs /\
    Forall (via_client (Client c)) evs.
Proof.
  intros Hnone.
  refine (proj2 (proj2 (proj2 (proj2
    (executeGET_fuel_maintains (via_client (Client c)) (fun _ => True) c _ _
       _ item req I s))))).
  - intros it rq _. cbn. unfold selectClient. now rewrite Hnone.
  - trivial.
Qed.
End ExecuteGET_more.

Section ExecuteGET_more_runs.
Import Script.

Lemma executeGET_redirection_returned_witness :
  exists (evs : list Event) it rq,
    trace (executeGET config (seed "http://a/" 0 None) (request "http://a/")
             (start ping_pong)).2 =
      trace (start ping_pong) ++ evs ++ [EvDo it (selectClient config rq) rq] /\
    (Header_Get
       (resp_Header {| StatusCode := 301;
                       resp_Header := list_to_map [("Location", "http://b/")];
                       resp_Request := request "http://a/";
                       resp_Cookies := [] |}) "location"
     = URL_String (req_URL rq) \/
     MaxRedirect config <= frontier.Redirect it).
Proof.
  apply (executeGET_redirection_returned config (seed "http://a/" 0 None)
           (request "http://a/") (start ping_pong)
           (req_Header_Set
              (req_Header_Set
                 (req_Header_Set (request "http://a/") "User-Agent" "Zeno")
                 "Accept-Encoding" "*/*") "Referer" "http://a/")).
  - vm_compute. reflexivity.
  - reflexivity.
Defined.

Lemma executeGET_direct_without_proxy_witness :
  exists evs : list Event,
    trace (executeGET config (seed "http://a/" 0 None) (request "http://a/")
             (start ping_pong)).2 = trace (start ping_pong) ++ evs /\
    Forall (via_client (Client config)) evs.
Proof.
  apply (executeGET_direct_without_proxy config (seed "http://a/" 0 None)
           (request "http://a/") (start ping_pong)).
  reflexivity.
Defined.
End ExecuteGET_more_runs.

(** ** captureAsset *)

Section CaptureAsset.
Context {U : NetURL} {H : URLHash} {R : Runtime}.

Lemma store_grows_same s s' : SeencheckDB s' = SeencheckDB s -> store_grows s s'.
Proof. unfold store_grows. now intros ->. Qed.

Lemma store_grows_refl s : store_grows s s.
Proof. now apply store_grows_same. Qed.

Lemma store_grows_trans s1 s2 s3 :
  store_grows s1 s2 -> store_grows s2 s3 -> store_grows s1 s3.
Proof. unfold store_grows. intros H1 H2. etrans; eassumption. Qed.

Lemma Seencheck_Seen_grows hash value : steps store_grows (Seencheck_Seen hash value).
Proof.
  intros s. unfold Seencheck_Seen, modify, store_grows. cbn [snd].
  destruct (SeencheckDB s !! hash) eqn:E; [reflexivity |].
  cbn [SeencheckDB set_SeencheckDB]. now apply insert_subseteq.
Qed.

Local Ltac grows :=
  first
    [ apply steps_ret; exact store_grows_refl
    | apply steps_panic; exact store_grows_refl
    | apply steps_get; exact store_grows_refl
    | apply steps_deref; exact store_grows_refl
    | apply Seencheck_Seen_grows
    | apply (executeGET_steps store_grows (fun _ => True) store_grows_refl
               store_grows_trans);
        [intros; now apply store_grows_same .. | trivial]
    | apply (logWarning_steps store_grows (fun _ => True));
        [intros; now apply store_grows_same | trivial]
    | apply (logCrawlSuccess_steps store_grows (fun _ => True) store_grows_refl
               store_grows_trans);
        [intros; now apply store_grows_same | trivial]
    | apply steps_modify; intros; now apply store_grows_same
    | apply steps_ask; intros; now apply store_grows_same
    | apply steps_bind; [exact store_grows_trans | | intros ? ]
    | match goal with
      | |- steps _ (match ?x with _ => _ end) => destruct x
      | |- steps _ (let _ := _ in _) => cbv zeta
      end ].

Lemma captureAsset_store_grows c item cookies :
  steps store_grows (captureAsset c item cookies).
Proof. unfold captureAsset, Seencheck_IsSeen. repeat grows. Qed.

Lemma captureAssets_store_grows c item itemURL resp assets :
  steps store_grows (captureAssets c item itemURL resp assets).
Proof.
  induction assets as [| asset rest IH]; cbn [captureAssets].
  - grows.
  - unfold captureAssets_body, QueueCount_Incr.
    repeat first [ apply captureAsset_store_grows | exact IH | grows ].
Qed.

(** What a probe of the store returns: the error of a probe that fails,
    with the answer false, or whether the key is there. *)
Lemma Seencheck_IsSeen_run hash s :
  Seencheck_IsSeen hash s =
    (Ok (match (Seencheck_probe (crawl_world s)).1 with
         | Some err => (false, Some err)
         | None => (bool_decide (is_Some (SeencheckDB s !! hash)), None)
         end),
     set_world (Seencheck_probe (crawl_world s)).2 s).
Proof.
  unfold Seencheck_IsSeen. rewrite (bind_Ok _ _ _ _ _ (ask_run _ s)).
  destruct (Seencheck_probe (crawl_world s)).1; reflexivity.
Qed.

(** With the seencheck on, the hash of the asset is in the store once
    [captureAsset] is over, however it ends and whether or not the probe
    failed. *)
Lemma captureAsset_marks c item cookies s :
  Seencheck c = true ->
  is_Some (SeencheckDB (captureAsset c item cookies s).2
             !! FormatUint (frontier.Hash item)).
Proof.
  intros Hon. unfold captureAsset. rewrite Hon.
  set (hash := FormatUint (frontier.Hash item)).
  rewrite bind_assoc.
  rewrite (bind_Ok _ _ _ _ _ (Seencheck_IsSeen_run hash s)).
  set (s0 := set_world _ s).
  assert (Hmarked : forall st : State,
            SeencheckDB st = SeencheckDB s ->
            is_Some (SeencheckDB
                       ((Seencheck_Seen hash (frontier.Type_ item)) st).2 !! hash)).
  { intros st E. unfold Seencheck_Seen, modify. cbn [snd].
    destruct (SeencheckDB st !! hash) eqn:E'; [rewrite E'; eauto |].
    cbn [SeencheckDB set_SeencheckDB]. rewrite lookup_insert_eq. eauto. }
  assert (Hunseen :
    is_Some (SeencheckDB
      (((Seencheck_Seen hash (frontier.Type_ item) ≫= (fun _ : unit => mret false))
        ≫= (fun skip : bool =>
             if skip then mret None
             else
               u ← deref (frontier.URL item);
               match http_NewRequest (URL_String u) with
               | None => mret (Some "NewRequest")
               | Some req =>
                   parent ← deref (frontier.ParentItem item);
                   parentURL ← deref (frontier.URL parent);
                   let req := req_Header_Set req "Referer" (URL_String parentURL) in
                   let req := fold_left AddCookie cookies req in
                   '(_, res) ← executeGET c item req;
                   match res with
                   | GetErr _ err => logWarning (URL_String u) err;; mret (Some err)
                   | GetOk resp => logCrawlSuccess (StatusCode resp) item;; mret None
                   end
               end)) s0).2 !! hash)).
  { rewrite bind_assoc.
    pose proof (Hmarked s0 eq_refl) as Hm.
    destruct (Seencheck_Seen hash (frontier.Type_ item) s0) as [[[] | | ] s1] eqn:Hrun;
      unfold mbind at 1, M_bind at 1; rewrite Hrun; cbn [snd] in *; trivial.
    rewrite bind_ret.
    match goal with
    | |- is_Some (SeencheckDB (?m ?st).2 !! _) =>
        assert (Hgrow : store_grows st (m st).2)
    end.
    { repeat grows. }
    eapply lookup_weaken_is_Some; [exact Hm | exact Hgrow]. }
  destruct (Seencheck_probe (crawl_world s)).1 as [err |]; cbv beta iota.
  - exact Hunseen.
  - destruct (bool_decide (is_Some (SeencheckDB s !! hash))) eqn:Hfound.
    + rewrite bind_ret. cbn [snd mret M_ret].
      now apply bool_decide_eq_true in Hfound.
    + exact Hunseen.
Qed.

(** An asset whose hash is in the store is skipped when the probe does not
    fail. *)
Lemma captureAsset_skips c item cookies s :
  Seencheck c = true ->
  (Seencheck_probe (crawl_world s)).1 = None ->
  is_Some (SeencheckDB s !! FormatUint (frontier.Hash item)) ->
  captureAsset c item cookies s =
    (Ok None, set_world (Seencheck_probe (crawl_world s)).2 s).
Proof.
  intros Hon Hprobe Hseen. unfold captureAsset. rewrite Hon.
  rewrite bind_assoc.
  rewrite (bind_Ok _ _ _ _ _ (Seencheck_IsSeen_run _ s)), Hprobe.
  cbv beta iota. rewrite (bool_decide_eq_true_2 _ Hseen). reflexivity.
Qed.

(** X5. With the seencheck on, an asset is captured once as long as the
    store answers: after a first [captureAsset], whatever the servers
    answered, even if the fetch failed and even if the first probe failed,
    a second [captureAsset] of an item with the same hash, with any
    cookies, whose probe does not fail returns nil at once: no fetch, no
    log record, no change of the store, the counter or the push channel;
    only the world moves, by the probe. *)
Theorem captureAsset_twice c item item' cookies cookies' s :
  Seencheck c = true ->
  frontier.Hash item' = frontier.Hash item ->
  (Seencheck_probe (crawl_world (captureAsset c item cookies s).2)).1 = None ->
  captureAsset c item' cookies' (captureAsset c item cookies s).2 =
    (Ok None,
     set_world (Seencheck_probe (crawl_world (captureAsset c item cookies s).2)).2
       (captureAsset c item cookies s).2).
Proof.
  intros Hon Hhash Hprobe. apply captureAsset_skips; [exact Hon | exact Hprobe |].
  rewrite Hhash. now apply captureAsset_marks.
Qed.

(** X6. The asset loop of [Capture] never removes or changes an entry of
    the seencheck store, and with the seencheck off it leaves the store
    as it is. *)
Theorem captureAssets_store c item itemURL resp assets s :
  SeencheckDB s ⊆ SeencheckDB (captureAssets c item itemURL resp assets s).2 /\
  (Seencheck c = false ->
   SeencheckDB (captureAssets c item itemURL resp assets s).2 = SeencheckDB s).
Proof.
  split; [apply captureAssets_store_grows |].
  intros Hoff. revert s.
  change (steps (fun s s' => SeencheckDB s' = SeencheckDB s)
            (captureAssets c item itemURL resp assets)).
  assert (Htrans : forall s1 s2 s3 : State,
            SeencheckDB s2 = SeencheckDB s1 -> SeencheckDB s3 = SeencheckDB s2 ->
            SeencheckDB s3 = SeencheckDB s1) by (intros; congruence).
  induction assets as [| asset rest IH]; cbn [captureAssets].
  - now apply steps_ret.
  - unfold captureAssets_body, captureAsset, QueueCount_Incr. rewrite Hoff.
    repeat first
      [ exact IH
      | apply steps_ret; reflexivity
      | apply steps_panic; reflexivity
      | apply steps_deref; reflexivity
      | apply (executeGET_steps (fun s s' => SeencheckDB s' = SeencheckDB s)
                 (fun _ => True)); [reflexivity | exact Htrans | reflexivity .. | trivial]
      | apply (logWarning_steps (fun s s' => SeencheckDB s' = SeencheckDB s)
                 (fun _ => True)); [reflexivity | trivial]
      | apply (logCrawlSuccess_steps (fun s s' => SeencheckDB s' = SeencheckDB s)
                 (fun _ => True)); [reflexivity | exact Htrans | reflexivity | trivial]
      | apply steps_modify; reflexivity
      | apply steps_bind; [exact Htrans | | intros ? ]
      | match goal with
        | |- steps _ (match ?x with _ => _ end) => destruct x
        | |- steps _ (let _ := _ in _) => cbv zeta
        end ].
Qed.
Lemma cookie_string_nonempty c : String.eqb (cookie_string c) "" = false.
Proof.
  apply String.eqb_neq. unfold cookie_string.
  destruct (Go.sanitizeCookieName (Name c)); discriminate.
Qed.

Lemma string_append_assoc (a b c : string) :
  ((a ++ b) ++ c)%string = (a ++ (b ++ c))%string.
Proof.
  induction a as [| x a IH]; [reflexivity |].
  change (String x ((a ++ b) ++ c)%string = String x (a ++ (b ++ c))%string).
  now f_equal.
Qed.

Lemma Header_Get_Set_eq h key value :
  Header_Get (Header_Set h key value) key = value.
Proof. unfold Header_Get, Header_Set. now rewrite lookup_insert_eq. Qed.

Lemma Header_Get_Set_ne h key key' value :
  Go.CanonicalMIMEHeaderKey key <> Go.CanonicalMIMEHeaderKey key' ->
  Header_Get (Header_Set h key value) key' = Header_Get h key'.
Proof. intros Hne. unfold Header_Get, Header_Set. now rewrite lookup_insert_ne. Qed.

(** Adding cookies to a request: the URL and the other headers stay, and
    the Cookie header is extended by one entry per cookie. *)
Lemma AddCookie_fold cookies : forall req,
  req_URL (fold_left AddCookie cookies req) = req_URL req /\
  Header_Get (req_Header (fold_left AddCookie cookies req)) "Referer" =
    Header_Get (req_Header req) "Referer" /\
  Header_Get (req_Header (fold_left AddCookie cookies req)) "Cookie" =
    String.concat "; "
      (if String.eqb (Header_Get (req_Header req) "Cookie") ""
       then map cookie_string cookies
       else Header_Get (req_Header req) "Cookie" :: map cookie_string cookies).
Proof.
  induction cookies as [| c rest IH]; intros req.
  - cbn [fold_left map]. repeat split.
    destruct (String.eqb _ "") eqn:E; [now apply String.eqb_eq in E |].
    reflexivity.
  - cbn [fold_left map]. destruct (IH (AddCookie req c)) as (Hu & Hr & Hc).
    rewrite Hu, Hr, Hc. clear IH Hu Hr Hc.
    unfold AddCookie. fold (cookie_string c).
    destruct (String.eqb (Header_Get (req_Header req) "Cookie") "") eqn:E;
      cbn [req_Header_Set req_URL req_Header];
      rewrite Header_Get_Set_eq, Header_Get_Set_ne by discriminate.
    + rewrite cookie_string_nonempty. repeat split.
    + assert (Hne : String.eqb
                (Header_Get (req_Header req) "Cookie" ++ "; " ++ cookie_string c)%string
                "" = false).
      { apply String.eqb_neq. apply String.eqb_neq in E.
        destruct (Header_Get (req_Header req) "Cookie"); [congruence | discriminate]. }
      rewrite Hne. repeat split.
      cbn [String.concat].
      destruct (map cookie_string rest) as [| c' rest'].
      * reflexivity.
      * rewrite string_append_assoc. reflexivity.
Qed.

(** An item that is not skipped reaches the fetch, with the trace as it
    was. *)
Lemma captureAsset_not_skipped c item cookies s u req0 parent parentURL :
  not_skipped c item s ->
  frontier.URL item = Some u ->
  http_NewRequest (URL_String u) = Some req0 ->
  frontier.ParentItem item = Some parent ->
  frontier.URL parent = Some parentURL ->
  exists s2,
    trace s2 = trace s /\ QueueCount s2 = QueueCount s /\
    captureAsset c item cookies s =
      (executeGET c item
         (fold_left AddCookie cookies
            (req_Header_Set req0 "Referer" (URL_String parentURL)))
       ≫= fun '(_, res) =>
            match res with
            | GetErr _ err => logWarning (URL_String u) err;; mret (Some err)
            | GetOk resp => logCrawlSuccess (StatusCode resp) item;; mret None
            end) s2.
Proof.
  intros Hns Hu Hreq Hparent Hpu.
  assert (Hrest : forall s2,
    (mret false ≫= (fun skip : bool =>
       if skip then mret None
       else
         u ← deref (frontier.URL item);
         match http_NewRequest (URL_String u) with
         | None => mret (Some "NewRequest")
         | Some req =>
             parent ← deref (frontier.ParentItem item);
             parentURL ← deref (frontier.URL parent);
             let req := req_Header_Set req "Referer" (URL_String parentURL) in
             let req := fold_left AddCookie cookies req in
             '(_, res) ← executeGET c item req;
             match res with
             | GetErr _ err => logWarning (URL_String u) err;; mret (Some err)
             | GetOk resp => logCrawlSuccess (StatusCode resp) item;; mret None
             end
         end)) s2 =
    (executeGET c item
       (fold_left AddCookie cookies
          (req_Header_Set req0 "Referer" (URL_String parentURL)))
     ≫= fun '(_, res) =>
          match res with
          | GetErr _ err => logWarning (URL_String u) err;; mret (Some err)
          | GetOk resp => logCrawlSuccess (StatusCode resp) item;; mret None
          end) s2).
  { intros s2. rewrite bind_ret, Hu. cbn [deref].
    rewrite bind_ret, Hreq, Hparent. cbn [deref].
    rewrite bind_ret, Hpu. cbn [deref]. now rewrite bind_ret. }
  unfold captureAsset. destruct (Seencheck c) eqn:Hon.
  - set (hash := FormatUint (frontier.Hash item)).
    rewrite bind_assoc, (bind_Ok _ _ _ _ _ (Seencheck_IsSeen_run hash s)).
    set (s0 := set_world _ s).
    assert (Hmark : exists s2,
              trace s2 = trace s /\ QueueCount s2 = QueueCount s /\
              Seencheck_Seen hash (frontier.Type_ item) s0 = (Ok tt, s2)).
    { unfold Seencheck_Seen, modify.
      destruct (SeencheckDB s0 !! hash);
        [ exists s0
        | exists (set_SeencheckDB (<[hash := frontier.Type_ item]> (SeencheckDB s0)) s0) ];
        repeat split; reflexivity. }
    destruct Hmark as (s2 & Ht & Hq & Hmark).
    assert (Hfound :
      match (Seencheck_probe (crawl_world s)).1 with
      | Some err => (false, Some err)
      | None => (bool_decide (is_Some (SeencheckDB s !! hash)), None)
      end.1 = false).
    { destruct (Hns Hon) as [[e He] | Habsent].
      - now rewrite He.
      - destruct (Seencheck_probe (crawl_world s)).1; [reflexivity |].
        cbn [fst]. apply bool_decide_eq_false. unfold hash. rewrite Habsent.
        now intros [? ?]. }
    destruct (match (Seencheck_probe (crawl_world s)).1 with
              | Some err => (false, Some err)
              | None => (bool_decide (is_Some (SeencheckDB s !! hash)), None)
              end) as [found e].
    cbn [fst] in Hfound. subst found. cbv beta iota.
    exists s2. split; [exact Ht |]. split; [exact Hq |].
    rewrite bind_assoc, (bind_Ok _ _ _ _ _ Hmark). apply Hrest.
  - exists s. split; [reflexivity |]. split; [reflexivity |]. apply Hrest.
Qed.

(** X7. The request of [captureAsset].  When the asset is not skipped by
    the seencheck (the seencheck is off, or the probe fails, or the hash is
    not in the store), its URL builds a request and its parent and the
    parent's URL are there, the first thing [captureAsset] does is one
    fetch for the asset, with a request for the asset's URL whose Referer
    is the parent's URL and whose Cookie header lists the given cookies in
    order, separated by a semicolon and a space, each one as net/http
    writes it: the sanitized name, an equals sign and the sanitized value,
    which is between double quotes when it holds a space or a comma. *)
Theorem captureAsset_request c item cookies s u req0 parent parentURL :
  not_skipped c item s ->
  frontier.URL item = Some u ->
  http_NewRequest (URL_String u) = Some req0 ->
  frontier.ParentItem item = Some parent ->
  frontier.URL parent = Some parentURL ->
  exists (req : http_Request) (evs : list Event),
    trace (captureAsset c item cookies s).2 =
      trace s ++ EvDo item (selectClient c req) req :: evs /\
    req_URL req = req_URL req0 /\
    Header_Get (req_Header req) "Referer" = URL_String parentURL /\
    Header_Get (req_Header req) "Cookie" = cookie_header cookies.
Proof.
  intros Hns Hu Hreq Hparent Hpu.
  exists (fold_left AddCookie cookies (req_Header_Set req0 "Referer" (URL_String parentURL))).
  destruct (captureAsset_not_skipped c item cookies s u req0 parent parentURL
              Hns Hu Hreq Hparent Hpu) as (s2 & Ht & _ & Hrun).
  set (req := fold_left AddCookie cookies _) in *.
  rewrite Hrun.
  destruct (bind_steps_after (appends (fun _ => True)) (appends_refl _)
              (executeGET c item req)
              (fun '(_, res) =>
                 match res with
                 | GetErr _ err => logWarning (URL_String u) err;; mret (Some err)
                 | GetOk resp => logCrawlSuccess (StatusCode resp) item;; mret None
                 end) s2) as (evs2 & E2 & _).
  { intros [? res]. destruct res.
    - apply steps_bind; [apply appends_trans | | intros _; apply steps_ret, appends_refl].
      apply (logCrawlSuccess_steps (appends (fun _ => True)) (fun _ => True));
        [ apply appends_refl | apply appends_trans
        | intros; now apply appends_emit | trivial ].
    - apply steps_bind; [apply appends_trans | | intros _; apply steps_ret, appends_refl].
      apply (logWarning_steps (appends (fun _ => True)) (fun _ => True));
        [ intros; now apply appends_emit | trivial ]. }
  destruct (executeGET_fuel_after_Do_appends (fun _ => True) (fun _ _ _ => I)
              (Z.to_nat (MaxRedirect c - frontier.Redirect item)) c item req s2)
    as (evs1 & E1 & _).
  rewrite Do_run in E1. cbn [snd set_world set_trace trace] in E1.
  exists (evs1 ++ evs2). split.
  { rewrite E2. unfold executeGET. rewrite E1, Ht. now rewrite <- !app_assoc. }
  destruct (AddCookie_fold cookies (req_Header_Set req0 "Referer" (URL_String parentURL)))
    as (Hurl & Href & Hcookie).
  fold req in Hurl, Href, Hcookie. split; [exact Hurl |]. split.
  - rewrite Href. cbn [req_Header_Set req_Header]. apply Header_Get_Set_eq.
  - rewrite Hcookie. cbn [req_Header_Set req_Header].
    rewrite Header_Get_Set_ne by discriminate.
    unfold http_NewRequest in Hreq. destruct (url_Parse _); [| discriminate].
    injection Hreq as <-. reflexivity.
Qed.

Section Quietly.
Variable P : Event -> Prop.

Lemma quietly_appends_same s s' :
  QueueCount s' = QueueCount s -> PushChan s' = PushChan s -> now s' = now s ->
  trace s' = trace s -> quietly_appends P s s'.
Proof. intros. repeat split; trivial. now apply appends_same_trace. Qed.

Lemma quietly_appends_refl s : quietly_appends P s s.
Proof. now apply quietly_appends_same. Qed.

Lemma quietly_appends_trans s1 s2 s3 :
  quietly_appends P s1 s2 -> quietly_appends P s2 s3 -> quietly_appends P s1 s3.
Proof.
  intros (Q1 & C1 & N1 & A1) (Q2 & C2 & N2 & A2).
  repeat split; try congruence. eapply appends_trans; eassumption.
Qed.

Lemma quietly_appends_emit s e :
  P e -> quietly_appends P s (set_trace (trace s ++ [e]) s).
Proof. intros He. repeat split; trivial. now apply appends_emit. Qed.

Lemma only_appends_quietly s s' : only_appends P s s' -> quietly_appends P s s'.
Proof. intros (Q & _ & C & N & A). now repeat split. Qed.
End Quietly.

(** X8. An asset is fetched and nothing more.  [captureAsset] leaves the
    queue counter, the push channel and the clock, it does not start
    [queueOutlinks], and every fetch it makes, redirects included, is made
    for an item with the type and the hop count of the asset. *)
Theorem captureAsset_fetches_only c item cookies s :
  QueueCount (captureAsset c item cookies s).2 = QueueCount s /\
  PushChan (captureAsset c item cookies s).2 = PushChan s /\
  now (captureAsset c item cookies s).2 = now s /\
  exists evs : list Event,
    trace (captureAsset c item cookies s).2 = trace s ++ evs /\
    Forall (fetch_of_kind (frontier.Type_ item) (frontier.Hop item)) evs.
Proof.
  revert s.
  change (steps (quietly_appends (fetch_of_kind (frontier.Type_ item) (frontier.Hop item)))
            (captureAsset c item cookies)).
  set (P := fetch_of_kind (frontier.Type_ item) (frontier.Hop item)).
  unfold captureAsset, Seencheck_IsSeen, Seencheck_Seen, logWarning, logCrawlSuccess.
  repeat first
    [ apply steps_ret; apply quietly_appends_refl
    | apply steps_panic; apply quietly_appends_refl
    | apply steps_get; apply quietly_appends_refl
    | apply steps_deref; apply quietly_appends_refl
    | apply steps_modify; intros s; destruct (SeencheckDB s !! _);
        now apply quietly_appends_same
    | apply steps_modify; intros s; apply quietly_appends_emit; exact I
    | apply steps_ask; intros; now apply quietly_appends_same
    | intros s; apply only_appends_quietly;
        apply (executeGET_fuel_maintains P
                 (fun it => frontier.Type_ it = frontier.Type_ item /\
                            frontier.Hop it = frontier.Hop item));
        [ intros it rq Hit; exact Hit | intros it u0 Hit; exact Hit | split; reflexivity ]
    | apply steps_bind; [apply quietly_appends_trans | | intros ? ]
    | match goal with
      | |- steps _ (match ?x with _ => _ end) => destruct x
      | |- steps _ (let _ := _ in _) => cbv zeta
      end ].
Qed.
End CaptureAsset.

Section CaptureAsset_runs.
Import Script.

Lemma captureAsset_twice_witness :
  captureAsset config_seencheck (asset "http://b/img.png" (seed "http://b/" 0 None)) []
    (captureAsset config_seencheck (asset "http://b/img.png" (seed "http://b/" 0 None))
       [] (start (servers []))).2 =
  (Ok None,
   set_world
     (Seencheck_probe
        (crawl_world
           (captureAsset config_seencheck
              (asset "http://b/img.png" (seed "http://b/" 0 None))
              [] (start (servers []))).2)).2
     (captureAsset config_seencheck (asset "http://b/img.png" (seed "http://b/" 0 None))
        [] (start (servers []))).2).
Proof.
  apply (captureAsset_twice config_seencheck
           (asset "http://b/img.png" (seed "http://b/" 0 None))
           (asset "http://b/img.png" (seed "http://b/" 0 None)) [] []
           (start (servers []))).
  - reflexivity.
  - reflexivity.
  - vm_compute. reflexivity.
Defined.

(** A store that is down.  The probe fails, its error is dropped and the
    asset counts as unseen: the same asset is fetched by a second
    [captureAsset] too. *)
Example captureAsset_store_down :
  let w := {| responses := [page "image/png"; page "image/png"]; messages := [];
              broker_down := false; finished := false; active_workers := 0;
              store_down := true |} in
  let img := asset "http://b/img.png" (seed "http://b/" 0 None) in
  fetch_items
    (trace (captureAsset config_seencheck img []
              (captureAsset config_seencheck img [] (start w)).2).2) = [img; img].
Proof. vm_compute. reflexivity. Qed.

Lemma captureAsset_request_witness :
  exists (req : http_Request) (evs : list Event),
    trace (captureAsset config_seencheck
             (asset "http://b/img.png" (seed "http://b/" 0 None))
             [{| Name := "s"; Value := "a b" |}; {| Name := "t"; Value := "2" |}]
             (start (servers [page "image/png"]))).2 =
      trace (start (servers [page "image/png"])) ++
      EvDo (asset "http://b/img.png" (seed "http://b/" 0 None))
        (selectClient config_seencheck req) req :: evs /\
    req_URL req = req_URL (request "http://b/img.png") /\
    Header_Get (req_Header req) "Referer" = URL_String ("http://b/" : url_URL) /\
    Header_Get (req_Header req) "Cookie" =
      cookie_header [{| Name := "s"; Value := "a b" |}; {| Name := "t"; Value := "2" |}].
Proof.
  apply (captureAsset_request config_seencheck
           (asset "http://b/img.png" (seed "http://b/" 0 None))
           [{| Name := "s"; Value := "a b" |}; {| Name := "t"; Value := "2" |}]
           (start (servers [page "image/png"]))
           "http://b/img.png" (request "http://b/img.png")
           (seed "http://b/" 0 None) "http://b/").
  - intros _. right. reflexivity.
  - reflexivity.
  - reflexivity.
  - reflexivity.
  - reflexivity.
Defined.

(** The cookie header of the asset request of the specification's
    scenario, of two cookies, of a value with a space, which is sent
    between double quotes, and of a value with a semicolon and a name
    with a line feed, which are sanitized. *)
Example cookie_header_values :
  cookie_header [{| Name := "s"; Value := "1" |}] = "s=1" /\
  cookie_header [{| Name := "s"; Value := "1" |}; {| Name := "t"; Value := "2" |}]
    = "s=1; t=2" /\
  cookie_header [{| Name := "s"; Value := "a b" |}; {| Name := "t"; Value := "2" |}]
    = ("s=" ++ String Go.double_quote ("a b" ++ String Go.double_quote "; t=2"))%string /\
  cookie_header [{| Name := String (ascii_of_nat 10) "n"; Value := "x;y" |}] = "-n=xy".
Proof. repeat split; reflexivity. Qed.
End CaptureAsset_runs.

(** ** Capture as a whole *)

Section Frame_any_hop.
Context {U : NetURL} {H : URLHash} {R : Runtime}.
Variable Rel : State -> State -> Prop.
Variable allowed : Event -> Prop.
Hypothesis Rel_refl : forall s, Rel s s.
Hypothesis Rel_trans : forall s1 s2 s3, Rel s1 s2 -> Rel s2 s3 -> Rel s1 s3.
Hypothesis Rel_world : forall s w, Rel s (set_world w s).
Hypothesis Rel_seen : forall s db, Rel s (set_SeencheckDB db s).
Hypothesis Rel_queue : forall s q, Rel s (set_QueueCount q s).
Hypothesis Rel_emit :
  forall s e, allowed e -> Rel s (set_trace (trace s ++ [e]) s).
Hypothesis allowed_Do : forall item client req, allowed (EvDo item client req).
Hypothesis allowed_LogSuccess :
  forall u code hop type queued, allowed (EvLogSuccess u code hop type queued).
Hypothesis allowed_LogWarning : forall msg err, allowed (EvLogWarning msg err).
Hypothesis allowed_Go : forall outlinks item, allowed (EvGoQueueOutlinks outlinks item).
Variable extractOutlinks : url_URL -> goquery_Document -> list url_URL + error.
Variable extractAssets : Crawl -> url_URL -> goquery_Document -> list url_URL + error.

Local Ltac any_step :=
  first
    [ apply steps_ret; assumption
    | apply steps_panic; assumption
    | apply steps_deref; assumption
    | apply (logWarning_steps Rel allowed Rel_emit allowed_LogWarning)
    | apply (logCrawlSuccess_steps Rel allowed Rel_refl Rel_trans Rel_emit
               allowed_LogSuccess)
    | apply (executeGET_steps Rel allowed Rel_refl Rel_trans Rel_world Rel_emit
               allowed_Do)
    | apply (Capture_request_steps Rel Rel_refl Rel_trans)
    | apply (QueueCount_Incr_steps Rel Rel_queue)
    | apply (captureAssets_steps Rel allowed Rel_refl Rel_trans Rel_world Rel_seen
               Rel_emit allowed_Do allowed_LogSuccess allowed_LogWarning Rel_queue)
    | apply steps_modify; intros; apply Rel_emit, allowed_Go
    | apply steps_bind; [assumption | | intros ? ]
    | match goal with
      | |- steps _ (match ?x with _ => _ end) => destruct x
      | |- steps _ (let _ := _ in _) => cbv zeta
      end ].

Lemma Capture_result_steps_any c item itemURL res :
  steps Rel (Capture_result extractOutlinks extractAssets c item itemURL res).
Proof. unfold Capture_result. repeat any_step. Qed.

Lemma Capture_steps_any c item :
  steps Rel (Capture extractOutlinks extractAssets c item).
Proof.
  unfold Capture. repeat first [ apply Capture_result_steps_any | any_step ].
Qed.

Lemma Capture_after_Do c item itemURL req s :
  Rel (Do item (selectClient c req) req s).2
      ((executeGET c item req ≫= fun '(_, res) =>
          Capture_result extractOutlinks extractAssets c item itemURL res) s).2.
Proof.
  eapply Rel_trans.
  - apply (executeGET_fuel_after_Do Rel allowed Rel_refl Rel_trans Rel_world Rel_emit
             allowed_Do).
  - apply (bind_steps_after Rel Rel_refl). intros [? res].
    apply Capture_result_steps_any.
Qed.
End Frame_any_hop.

Section Capture_more.
Context {U : NetURL} {H : URLHash} {R : Runtime}.
Variable extractOutlinks : url_URL -> goquery_Document -> list url_URL + error.
Variable extractAssets : Crawl -> url_URL -> goquery_Document -> list url_URL + error.

Lemma steps_bind_ret (Rel : State -> State -> Prop) {A B} (a : A) (f : A -> M B) :
  steps Rel (f a) -> steps Rel (mret a ≫= f).
Proof. intros Hf s. apply Hf. Qed.

Lemma restores_QueueCount_same s s' :
  QueueCount s' = QueueCount s -> restores_QueueCount s s'.
Proof. intros E _. exact E. Qed.

Lemma restores_QueueCount_refl s : restores_QueueCount s s.
Proof. now apply restores_QueueCount_same. Qed.

Lemma restores_QueueCount_trans s1 s2 s3 :
  restores_QueueCount s1 s2 -> restores_QueueCount s2 s3 -> restores_QueueCount s1 s3.
Proof.
  unfold restores_QueueCount. intros H1 H2 Hq.
  rewrite <- (H1 Hq). apply H2. now rewrite (H1 Hq).
Qed.

(** The raise by the number of assets and the loop, together. *)
Lemma captureAssets_restores c item itemURL resp assets :
  Go.uint_range (MaxRedirect c) ->
  frontier.URL item = Some itemURL ->
  steps restores_QueueCount
    (QueueCount_Incr (Z.of_nat (length assets));;
     captureAssets c item itemURL resp assets).
Proof.
  intros Hmax Hurl s Hq.
  rewrite (bind_Ok _ _ _ _ _ (QueueCount_Incr_run _ _)).
  destruct (captureAssets_run c item itemURL resp assets
              (set_QueueCount (Go.int64 (QueueCount s + Z.of_nat (length assets))) s)
              Hmax Hurl (int64_in_range _)) as (s' & E & Q).
  rewrite E. cbn [snd]. rewrite Q. cbn [QueueCount set_QueueCount].
  unfold Z.sub. rewrite int64_add_l.
  replace (QueueCount s + Z.of_nat (length assets) + - Z.of_nat (length assets))
    with (QueueCount s) by lia.
  now apply int64_small.
Qed.

Local Ltac restores :=
  first
    [ apply steps_ret; exact restores_QueueCount_refl
    | apply steps_panic; exact restores_QueueCount_refl
    | apply steps_deref; exact restores_QueueCount_refl
    | apply (logWarning_steps restores_QueueCount (fun _ => True));
        [intros; now apply restores_QueueCount_same | trivial]
    | apply (logCrawlSuccess_steps restores_QueueCount (fun _ => True)
               restores_QueueCount_refl restores_QueueCount_trans);
        [intros; now apply restores_QueueCount_same | trivial]
    | apply (executeGET_steps restores_QueueCount (fun _ => True)
               restores_QueueCount_refl restores_QueueCount_trans);
        [intros; now apply restores_QueueCount_same .. | trivial]
    | apply (Capture_request_steps restores_QueueCount
               restores_QueueCount_refl restores_QueueCount_trans)
    | apply steps_modify; intros; now apply restores_QueueCount_same
    | apply steps_bind; [exact restores_QueueCount_trans | | intros ? ]
    | match goal with
      | |- steps _ (match ?x with _ => _ end) => destruct x
      | |- steps _ (let _ := _ in _) => cbv zeta
      end ].

(** X9. [Capture] gives the queue counter back: from a counter in the
    int64 range, whatever the item, the servers' answers and the
    extractors, the counter is the same when [Capture] is over, also when
    it returns early or dereferences a nil pointer before the asset loop. *)
Theorem Capture_restores_QueueCount c item s :
  Go.uint_range (MaxRedirect c) ->
  Go.int64_range (QueueCount s) ->
  QueueCount (Capture extractOutlinks extractAssets c item s).2 = QueueCount s.
Proof.
  intros Hmax. revert s.
  change (steps restores_QueueCount (Capture extractOutlinks extractAssets c item)).
  unfold Capture.
  destruct (frontier.URL item) as [itemURL |] eqn:Hurl; cbn [deref]; [| restores].
  apply steps_bind_ret.
  destruct (http_NewRequest _) as [req |]; [| restores].
  apply steps_bind; [exact restores_QueueCount_trans | restores | intros req'].
  apply steps_bind; [exact restores_QueueCount_trans | restores | intros [? res]].
  unfold Capture_result, emit.
  repeat first [ now apply captureAssets_restores | restores ].
Qed.

Lemma queue_starts_app (evs1 evs2 : list Event) :
  queue_starts (evs1 ++ evs2) = queue_starts evs1 ++ queue_starts evs2.
Proof. apply omap_app. Qed.

Lemma starts_among_quiet l s s' (evs : list Event) :
  trace s' = trace s ++ evs -> queue_starts evs = [] -> starts_among l s s'.
Proof. intros Et Eq. exists evs. rewrite Eq. split; [exact Et | apply sublist_nil_l]. Qed.

Lemma starts_among_same l s s' : trace s' = trace s -> starts_among l s s'.
Proof. intros Et. apply (starts_among_quiet l s s' []); [now rewrite app_nil_r | reflexivity]. Qed.

Lemma starts_among_refl l s : starts_among l s s.
Proof. now apply starts_among_same. Qed.

Lemma starts_among_app l1 l2 s1 s2 s3 :
  starts_among l1 s1 s2 -> starts_among l2 s2 s3 -> starts_among (l1 ++ l2) s1 s3.
Proof.
  intros (evs1 & T1 & S1) (evs2 & T2 & S2). exists (evs1 ++ evs2).
  rewrite queue_starts_app. split; [now rewrite T2, T1, app_assoc | now apply sublist_app].
Qed.

Lemma starts_among_trans s1 s2 s3 :
  starts_among [] s1 s2 -> starts_among [] s2 s3 -> starts_among [] s1 s3.
Proof. apply (starts_among_app [] []). Qed.

Lemma starts_among_after l s1 s2 s3 :
  starts_among [] s1 s2 -> starts_among l s2 s3 -> starts_among l s1 s3.
Proof. apply (starts_among_app [] l). Qed.

Lemma starts_among_before l s1 s2 s3 :
  starts_among l s1 s2 -> starts_among [] s2 s3 -> starts_among l s1 s3.
Proof.
  intros H1 H2. rewrite <- (app_nil_r l). eapply starts_among_app; eassumption.
Qed.

Lemma starts_among_emit s e :
  ~ is_EvGoQueueOutlinks e -> starts_among [] s (set_trace (trace s ++ [e]) s).
Proof.
  intros He. apply (starts_among_quiet [] _ _ [e]); [reflexivity |].
  destruct e; try reflexivity. now elim He.
Qed.

Lemma steps_starts_among_weaken {A} l (m : M A) :
  steps (starts_among []) m -> steps (starts_among l) m.
Proof.
  intros Hm s. destruct (Hm s) as (evs & Et & Es). exists evs. split; [exact Et |].
  apply sublist_nil_r in Es. rewrite Es. apply sublist_nil_l.
Qed.

Local Ltac no_start :=
  first
    [ apply steps_ret; exact (starts_among_refl [])
    | apply steps_panic; exact (starts_among_refl [])
    | apply steps_deref; exact (starts_among_refl [])
    | apply (logWarning_steps (starts_among []) (fun e => ~ is_EvGoQueueOutlinks e)
               starts_among_emit); intros; intros []
    | apply (logCrawlSuccess_steps (starts_among []) (fun e => ~ is_EvGoQueueOutlinks e)
               (starts_among_refl []) starts_among_trans starts_among_emit);
        intros; intros []
    | apply (executeGET_steps (starts_among []) (fun e => ~ is_EvGoQueueOutlinks e)
               (starts_among_refl []) starts_among_trans);
        [ intros; now apply starts_among_same | exact starts_among_emit
        | intros; intros [] ]
    | apply (Capture_request_steps (starts_among []) (starts_among_refl [])
               starts_among_trans)
    | apply (QueueCount_Incr_steps (starts_among [])); intros; now apply starts_among_same
    | apply (captureAssets_steps (starts_among []) (fun e => ~ is_EvGoQueueOutlinks e)
               (starts_among_refl []) starts_among_trans);
        [ intros; now apply starts_among_same | intros; now apply starts_among_same
        | exact starts_among_emit | intros; intros [] | intros; intros []
        | intros; intros [] | intros; now apply starts_among_same ]
    | apply steps_bind; [exact starts_among_trans | | intros ? ]
    | match goal with
      | |- steps _ (match ?x with _ => _ end) => destruct x
      | |- steps _ (let _ := _ in _) => cbv zeta
      end ].

Lemma Capture_result_starts c item itemURL res :
  steps (starts_among [item])
    (Capture_result extractOutlinks extractAssets c item itemURL res).
Proof.
  unfold Capture_result. destruct res as [resp | ? err].
  2:{ apply steps_starts_among_weaken. no_start. }
  apply (steps_bind_then (starts_among []) (starts_among [item]) (starts_among [item]));
    [ apply starts_among_refl | apply starts_among_after | no_start | intros _ ].
  destruct (negb _); [apply steps_ret, starts_among_refl |].
  destruct (url_Parse _) as [base |]; [| apply steps_starts_among_weaken; no_start].
  destruct (goquery_NewDocumentFromResponse _) as [doc |];
    [| apply steps_starts_among_weaken; no_start].
  apply (steps_bind_then (starts_among [item]) (starts_among []) (starts_among [item]));
    [ apply starts_among_refl | apply starts_among_before | | intros continue ].
  - destruct (frontier.Hop item <? MaxHops c);
      [| apply steps_ret, starts_among_refl].
    destruct (extractOutlinks base doc) as [outlinks | err].
    + intros s. exists [EvGoQueueOutlinks outlinks item]. split; reflexivity.
    + apply steps_starts_among_weaken. repeat no_start.
  - repeat no_start.
Qed.

(** X10. One [Capture] starts the [queueOutlinks] goroutine at most once,
    and then for the item it was called with. *)
Theorem Capture_starts_queueOutlinks_once c item s :
  exists evs : list Event,
    trace (Capture extractOutlinks extractAssets c item s).2 = trace s ++ evs /\
    (queue_starts evs = [] \/ queue_starts evs = [item]).
Proof.
  assert (Hsteps : steps (starts_among [item])
                     (Capture extractOutlinks extractAssets c item)).
  { unfold Capture.
    apply (steps_bind_then (starts_among []) (starts_among [item]) (starts_among [item]));
      [ apply starts_among_refl | apply starts_among_after | no_start | intros itemURL ].
    destruct (http_NewRequest _) as [req |];
      [| apply steps_starts_among_weaken; no_start].
    apply (steps_bind_then (starts_among []) (starts_among [item]) (starts_among [item]));
      [ apply starts_among_refl | apply starts_among_after | no_start | intros req' ].
    apply (steps_bind_then (starts_among []) (starts_among [item]) (starts_among [item]));
      [ apply starts_among_refl | apply starts_among_after | no_start | intros [? res] ].
    apply Capture_result_starts. }
  destruct (Hsteps s) as (evs & Et & Es). exists evs. split; [exact Et |].
  destruct (queue_starts evs) as [| it rest]; [now left | right].
  apply sublist_cons_l in Es as (k1 & k2 & Ek & Hrest).
  destruct k1 as [| ? k1]; cbn in Ek.
  - injection Ek as -> <-. apply sublist_nil_r in Hrest. now rewrite Hrest.
  - injection Ek as _ Ek. now destruct k1.
Qed.

(** X11. [Capture] itself sends nothing on the push channel of the
    frontier and never sleeps: what it adds to the trace is fetches, log
    records and the start of [queueOutlinks], and no Kafka call. *)
Theorem Capture_leaves_frontier c item s :
  PushChan (Capture extractOutlinks extractAssets c item s).2 = PushChan s /\
  now (Capture extractOutlinks extractAssets c item s).2 = now s /\
  exists evs : list Event,
    trace (Capture extractOutlinks extractAssets c item s).2 = trace s ++ evs /\
    Forall capture_event evs.
Proof.
  set (Rel := fun s s' : State =>
                PushChan s' = PushChan s /\ now s' = now s /\ appends capture_event s s').
  assert (Hsame : forall s s' : State,
            PushChan s' = PushChan s -> now s' = now s -> trace s' = trace s ->
            Rel s s').
  { intros. repeat split; trivial. now apply appends_same_trace. }
  refine (Capture_steps_any Rel capture_event _ _ _ _ _ _ _ _ _ _
            extractOutlinks extractAssets c item s);
    try (intros; exact I); try (intros; now apply Hsame).
  - intros s1 s2 s3 (C1 & N1 & A1) (C2 & N2 & A2).
    repeat split; try congruence. eapply appends_trans; eassumption.
  - intros s0 e He. repeat split; trivial. now apply appends_emit.
Qed.

(** X12. The request [Capture] sends for the page.  When the item's URL is
    there and builds a request, and the parent and its URL are there if
    the hop count is positive, the first fetch of [Capture] is made for
    the item with a request whose only header is the Referer: the parent's
    URL when the hop count is positive and that URL is not the empty
    string, the host of the item's URL otherwise. *)
Theorem Capture_request_header c item s itemURL req0 :
  frontier.URL item = Some itemURL ->
  http_NewRequest (URL_String itemURL) = Some req0 ->
  (0 < frontier.Hop item ->
   exists parent parentURL,
     frontier.ParentItem item = Some parent /\
     frontier.URL parent = Some parentURL) ->
  exists (req : http_Request) (evs : list Event),
    trace (Capture extractOutlinks extractAssets c item s).2 =
      trace s ++ EvDo item (selectClient c req) req :: evs /\
    req_URL req = req_URL req0 /\
    req_Header req = {[ "Referer" := Capture_referer item itemURL ]}.
Proof.
  intros Hurl Hreq Hparent.
  assert (Hr : Capture_request item itemURL req0 s =
               (Ok (req_Header_Set req0 "Referer" (Capture_referer item itemURL)), s)).
  { unfold Capture_request, Capture_referer.
    destruct (0 <? frontier.Hop item) eqn:Hpos.
    - apply Z.ltb_lt in Hpos.
      destruct (Hparent Hpos) as (parent & parentURL & Ep & Eu).
      rewrite Ep. cbn [deref andb]. rewrite bind_ret, Eu. cbn [deref].
      rewrite bind_ret. now destruct (0 <? Go.len _).
    - destruct (frontier.ParentItem item) as [parent |]; [| reflexivity].
      now destruct (frontier.URL parent). }
  exists (req_Header_Set req0 "Referer" (Capture_referer item itemURL)).
  set (req := req_Header_Set req0 _ _) in *.
  unfold Capture. rewrite Hurl. cbn [deref]. rewrite bind_ret, Hreq.
  rewrite (bind_Ok _ _ _ _ _ Hr).
  destruct (Capture_after_Do (appends (fun _ => True)) (fun _ => True)
              (appends_refl _) (appends_trans _) (appends_world _) (appends_seen _)
              (appends_queue _) (appends_emit _)
              (fun _ _ _ => I) (fun _ _ _ _ _ => I) (fun _ _ => I) (fun _ _ => I)
              extractOutlinks extractAssets c item itemURL req s) as (evs & Et & _).
  rewrite Do_run in Et. cbn [snd set_world set_trace trace] in Et.
  exists evs. split; [rewrite Et; now rewrite <- app_assoc |].
  split; [reflexivity |].
  unfold req, req_Header_Set, Header_Set. cbn [req_Header].
  unfold http_NewRequest in Hreq. destruct (url_Parse _); [| discriminate].
  injection Hreq as <-. cbn [req_Header]. apply insert_empty.
Qed.
End Capture_more.

(** ** The Kafka producer, further *)

Section Producer_more.
Context {U : NetURL} {H : URLHash} {R : Runtime}.

(** The step of one item once the URLs are at hand: [Produce] is called
    once, for this item, and the step returns. *)
Lemma produceItem_marshalled crawl item (u : url_URL) (parentURL : string) s0 :
  let run :=
    (newKafkaMessageBytes ←
       match json_Marshal
               {| URL := URL_String u; HopsCount := frontier.Hop item;
                  ParentURL := parentURL |} with
       | inl bytes => mret bytes
       | inr err =>
           logWarning "Unable to marshal message before sending to KAfka" err;;
           mret []
       end;
     err ← ask (Producer_Produce (KafkaOutlinksTopic crawl) newKafkaMessageBytes);
     emit (EvProduce item newKafkaMessageBytes err);;
     match err with
     | Some e =>
         logWarning "Failed to produce message to Kafka, pushing the seed to the local queue instead" e;;
         PushChan_send item
     | None => mret tt
     end) s0 in
  exists evs : list Event,
    trace run.2 = trace s0 ++ evs /\ run.1 = Ok tt /\ produced evs = [item].
Proof.
  cbv zeta.
  destruct (json_Marshal _) as [bytes | merr];
    unfold mbind, M_bind, logWarning, emit, PushChan_send, modify, ask, mret, M_ret;
    cbn [crawl_world set_trace];
    destruct (Producer_Produce _ _ _) as [[e |] w];
    cbn [fst snd trace set_trace set_world set_PushChan];
    rewrite <- ?app_assoc; eexists; (split; [reflexivity |]);
    split; reflexivity.
Qed.

(** One item: either [Produce] is called once, for this item, and the step
    returns, or it is not called and the step panics. *)
Lemma produceItem_produced crawl item s :
  exists evs : list Event,
    trace (produceItem crawl item s).2 = trace s ++ evs /\
    (((produceItem crawl item s).1 = Ok tt /\ produced evs = [item]) \/
     ((produceItem crawl item s).1 = Panic /\ produced evs = [])).
Proof.
  unfold produceItem.
  destruct (frontier.URL item) as [u |]; cbn [deref].
  2:{ exists []. rewrite app_nil_r. split; [reflexivity | right; split; reflexivity]. }
  rewrite bind_ret.
  destruct (frontier.ParentItem item) as [parent |].
  - destruct (frontier.URL parent) as [pu |]; cbn [deref].
    + rewrite bind_assoc, !bind_ret.
      destruct (produceItem_marshalled crawl item u (URL_String pu) s)
        as (evs & Ht & Hok & Hp).
      exists evs. split; [exact Ht | left; now split].
    + exists []. rewrite app_nil_r. split; [reflexivity | right; split; reflexivity].
  - rewrite bind_ret.
    destruct (produceItem_marshalled crawl item u "" s) as (evs & Ht & Hok & Hp).
    exists evs. split; [exact Ht | left; now split].
Qed.

Lemma kafkaProducer_loop_produced crawl channel : forall s,
  exists evs : list Event,
    trace (kafkaProducer_loop crawl channel s).2 = trace s ++ evs /\
    produced evs `prefix_of` channel.
Proof.
  induction channel as [| item rest IH]; intros s; cbn [kafkaProducer_loop].
  - exists []. rewrite app_nil_r. split; [reflexivity | apply prefix_nil].
  - rewrite (bind_Ok _ _ _ _ _ (ask_run _ _)).
    set (s0 := set_world _ s).
    destruct (Finished_Get (crawl_world s)).1.
    { exists []. rewrite app_nil_r. split; [reflexivity | apply prefix_nil]. }
    destruct (produceItem_produced crawl item s0) as (evs1 & Ht1 & Hcase).
    unfold mbind, M_bind.
    destruct (produceItem crawl item s0) as [out s1]. cbn [fst snd] in *.
    destruct Hcase as [[-> Hp] | [-> Hp]].
    + destruct (IH s1) as (evs2 & Ht2 & Hp2).
      exists (evs1 ++ evs2). split.
      * rewrite Ht2, Ht1. cbn [trace set_world]. now rewrite app_assoc.
      * unfold produced in *. rewrite omap_app, Hp. cbn [app].
        now apply prefix_cons.
    + exists evs1. split; [exact Ht1 |]. rewrite Hp. apply prefix_nil.
Qed.

(** X13. The producer calls [Produce] for the items of the outlink channel
    in the order of the channel, once each, without skipping any: the
    items produced are a prefix of what the channel delivers.  When the
    producer returns, the last things it did are the flush with a timeout
    of 15000 milliseconds and the close of the client. *)
Theorem kafkaProducer_in_order crawl channel s :
  exists evs : list Event,
    trace (kafkaProducer crawl channel s).2 = trace s ++ evs /\
    produced evs `prefix_of` channel /\
    ((kafkaProducer crawl channel s).1 = Ok tt ->
     exists evs' : list Event, evs = evs' ++ [EvFlush 15000; EvClose]).
Proof.
  unfold kafkaProducer.
  rewrite (bind_Ok _ _ _ _ _ (ask_run _ _)).
  set (s0 := set_world _ s).
  destruct (kafka_NewProducer (crawl_world s)).1.
  { exists []. rewrite app_nil_r. repeat split; [apply prefix_nil | discriminate]. }
  destruct (kafkaProducer_loop_produced crawl channel s0) as (evs & Ht & Hp).
  unfold defer, mbind, M_bind.
  destruct (kafkaProducer_loop crawl channel s0) as [[[] | | ] s1]; cbn [fst snd] in *.
  - exists (evs ++ [EvFlush 15000; EvClose]). split; [| split].
    + unfold emit, modify. cbn [fst snd trace set_trace]. rewrite Ht.
      cbn [trace set_world]. now rewrite <- !app_assoc.
    + unfold produced in *. rewrite omap_app. cbn. now rewrite app_nil_r.
    + intros _. now exists evs.
  - exists (evs ++ [EvClose]). split; [| split].
    + unfold emit, modify. cbn [fst snd trace set_trace]. rewrite Ht.
      cbn [trace set_world]. now rewrite <- !app_assoc.
    + unfold produced in *. rewrite omap_app. cbn. now rewrite app_nil_r.
    + discriminate.
  - exists evs. repeat split; [exact Ht | exact Hp | discriminate].
Qed.
End Producer_more.

(** ** The Kafka consumer, further *)

Section Consumer_more.
Context {U : NetURL} {H : URLHash} {R : Runtime}.

Local Ltac run_all :=
  cbv beta iota zeta delta
    [mbind M_bind mret M_ret Sleep emit modify logWarning PushChan_send panic
     fst snd trace PushChan set_trace set_world set_now set_PushChan].

(** Every way the goroutine of the consumer can go. *)
Lemma kafkaConsumeMessage_cases crawl s :
  exists (evs : list Event) (l : list frontier.Item),
    trace (kafkaConsumeMessage crawl s).2 =
      trace s ++ EvReadMessage (now s) 15 :: evs /\
    PushChan (kafkaConsumeMessage crawl s).2 = PushChan s ++ l /\
    pool_adds evs = O /\
    (((kafkaConsumeMessage crawl s).1 = Ok tt /\ pool_dones evs = 1%nat) \/
     ((kafkaConsumeMessage crawl s).1 = Panic /\ pool_dones evs = O /\ l = [])) /\
    (length l <= 1)%nat /\
    (l <> [] <->
     exists value w m u,
       Consumer_ReadMessage 15 (crawl_world s) = (inl value, w) /\
       json_Unmarshal value = UnmarshalOk m /\
       url_Parse (URL m) = Some u).
Proof.
  unfold kafkaConsumeMessage.
  rewrite (bind_Ok _ _ _ _ _ (get_run s)), (bind_Ok _ _ _ _ _ (emit_run _ _)),
    (bind_Ok _ _ _ _ _ (ask_run _ _)).
  cbn [crawl_world set_trace].
  destruct (Consumer_ReadMessage 15 (crawl_world s)) as [[value | err] w] eqn:Eread;
    cbn [fst snd].
  2:{ run_all.
      rewrite <- !app_assoc. eexists _, []. rewrite app_nil_r.
      split; [reflexivity |]. split; [reflexivity |]. split; [reflexivity |].
      split; [left; split; reflexivity |]. split; [cbn; lia |].
      split; [congruence |]. intros (? & ? & ? & ? & ? & _). congruence. }
  rewrite (bind_Ok _ _ _ _ _ (emit_run _ _)).
  destruct (json_Unmarshal value) as [uerr | | m] eqn:Ejson.
  { run_all.
    rewrite <- !app_assoc. eexists _, []. rewrite app_nil_r.
    split; [reflexivity |]. split; [reflexivity |]. split; [reflexivity |].
    split; [left; split; reflexivity |]. split; [cbn; lia |].
    split; [congruence |]. intros (? & ? & ? & ? & ? & ? & _). congruence. }
  { run_all.
    rewrite <- !app_assoc. eexists _, []. rewrite app_nil_r.
    split; [reflexivity |]. split; [reflexivity |]. split; [reflexivity |].
    split; [right; repeat split; reflexivity |]. split; [cbn; lia |].
    split; [congruence |]. intros (? & ? & ? & ? & ? & ? & _). congruence. }
  destruct (url_Parse (URL m)) as [newURL |] eqn:Eparse.
  2:{ run_all.
      rewrite <- !app_assoc. eexists _, []. rewrite app_nil_r.
      split; [reflexivity |]. split; [reflexivity |]. split; [reflexivity |].
      split; [left; split; reflexivity |]. split; [cbn; lia |].
      split; [congruence |]. intros (? & ? & ? & ? & ? & ? & ?). congruence. }
  assert (Hyes : exists value0 w0 m u,
             (@inl _ error value, w) = (inl value0, w0) /\
             json_Unmarshal value0 = UnmarshalOk m /\ url_Parse (URL m) = Some u)
    by (exists value, w, m, newURL; repeat split; assumption).
  destruct (0 <? Go.len (ParentURL m));
    [destruct (url_Parse (ParentURL m)) |];
    run_all;
    rewrite <- !app_assoc; eexists _, [_];
    (split; [reflexivity |]); (split; [reflexivity |]); (split; [reflexivity |]);
    (split; [left; split; reflexivity |]); (split; [cbn; lia |]);
    (split; [intros _; exact Hyes | discriminate]).
Qed.

(** X14. The goroutine of the consumer sends at most one item on the push
    channel, and it sends one exactly when the read returned a message,
    the message decoded and its URL parsed: a failed read, a message that
    does not decode and a URL that does not parse push nothing. *)
Theorem kafkaConsumeMessage_pushes_iff crawl s :
  exists l : list frontier.Item,
    PushChan (kafkaConsumeMessage crawl s).2 = PushChan s ++ l /\
    (length l <= 1)%nat /\
    (l <> [] <->
     exists value w m u,
       Consumer_ReadMessage 15 (crawl_world s) = (inl value, w) /\
       json_Unmarshal value = UnmarshalOk m /\
       url_Parse (URL m) = Some u).
Proof.
  destruct (kafkaConsumeMessage_cases crawl s) as (evs & l & _ & Hp & _ & _ & Hl & Hiff).
  now exists l.
Qed.
Lemma pool_adds_app (evs1 evs2 : list Event) :
  pool_adds (evs1 ++ evs2) = (pool_adds evs1 + pool_adds evs2)%nat.
Proof. unfold pool_adds. now rewrite List.filter_app, length_app. Qed.

Lemma pool_dones_app (evs1 evs2 : list Event) :
  pool_dones (evs1 ++ evs2) = (pool_dones evs1 + pool_dones evs2)%nat.
Proof. unfold pool_dones. now rewrite List.filter_app, length_app. Qed.

(** One turn of the loop: it breaks on [Finished], or goes on with the
    pool balanced, or panics. *)
Lemma kafkaConsumer_iteration_cases crawl s :
  exists (evs : list Event) (l : list frontier.Item),
    trace (kafkaConsumer_iteration crawl s).2 = trace s ++ evs /\
    PushChan (kafkaConsumer_iteration crawl s).2 = PushChan s ++ l /\
    (length l <= 1)%nat /\
    (((kafkaConsumer_iteration crawl s).1 = Ok Break /\
      evs = [EvPoolWait; EvClose] /\ l = []) \/
     ((kafkaConsumer_iteration crawl s).1 = Ok Continue /\
      pool_adds evs = pool_dones evs) \/
     (kafkaConsumer_iteration crawl s).1 = Panic).
Proof.
  unfold kafkaConsumer_iteration.
  rewrite (bind_Ok _ _ _ _ _ (ask_run _ _)).
  destruct (Finished_Get (crawl_world s)) as [[|] w1]; cbn [fst snd].
  { exists [EvPoolWait; EvClose], []. rewrite app_nil_r.
    split; [cbv beta iota zeta delta [mbind M_bind mret M_ret emit modify snd trace
                                       set_trace set_world];
            now rewrite <- app_assoc |].
    split; [reflexivity |]. split; [cbn; lia |]. left. repeat split. }
  rewrite (bind_Ok _ _ _ _ _ (ask_run _ _)). cbn [crawl_world set_world].
  destruct (ActiveWorkers_Value w1) as [active w2]; cbn [fst snd].
  destruct (_ <=? active).
  { exists [EvSleep (Go.time_Second * 1)], []. rewrite app_nil_r.
    split; [reflexivity |]. split; [reflexivity |]. split; [cbn; lia |].
    right; left. split; reflexivity. }
  rewrite (bind_Ok _ _ _ _ _ (emit_run _ _)).
  set (s1 := set_trace _ _).
  destruct (kafkaConsumeMessage_cases crawl s1) as (evs & l & Ht & Hp & Ha & Hd & Hl & _).
  exists (EvPoolAdd :: EvReadMessage (now s1) 15 :: evs), l.
  unfold mbind, M_bind.
  destruct (kafkaConsumeMessage crawl s1) as [out s2]. cbn [fst snd] in *.
  assert (Ht' : trace s2 = trace s ++ EvPoolAdd :: EvReadMessage (now s1) 15 :: evs).
  { rewrite Ht. unfold s1. cbn [trace set_trace set_world]. now rewrite <- app_assoc. }
  assert (Hp' : PushChan s2 = PushChan s ++ l) by (rewrite Hp; reflexivity).
  destruct Hd as [[-> Hd] | (-> & Hd & ->)]; cbn [fst snd].
  - split; [exact Ht' |]. split; [exact Hp' |]. split; [exact Hl |].
    right; left. split; [reflexivity |].
    change (S (pool_adds evs) = pool_dones evs). lia.
  - split; [exact Ht' |]. split; [exact Hp' |]. split; [cbn; lia |].
    right; right. reflexivity.
Qed.

(** Any number of turns. *)
Lemma kafkaConsumer_loop_cases crawl turns : forall s,
  exists (evs : list Event) (l : list frontier.Item),
    trace (kafkaConsumer_loop turns crawl s).2 = trace s ++ evs /\
    PushChan (kafkaConsumer_loop turns crawl s).2 = PushChan s ++ l /\
    (length l <= turns)%nat /\
    ((kafkaConsumer_loop turns crawl s).1 = Ok tt ->
     exists evs' : list Event, evs = evs' ++ [EvPoolWait; EvClose]) /\
    ((kafkaConsumer_loop turns crawl s).1 <> Panic ->
     pool_adds evs = pool_dones evs).
Proof.
  induction turns as [| turns IH]; intros s; cbn [kafkaConsumer_loop].
  { exists [], []. rewrite !app_nil_r.
    split; [reflexivity |]. split; [reflexivity |]. split; [cbn; lia |].
    split; [discriminate | reflexivity]. }
  destruct (kafkaConsumer_iteration_cases crawl s) as (evs1 & l1 & Ht1 & Hp1 & Hl1 & Hc).
  unfold mbind, M_bind.
  destruct (kafkaConsumer_iteration crawl s) as [out s1]. cbn [fst snd] in *.
  destruct Hc as [(-> & -> & ->) | [[-> Hbal] | ->]].
  - exists [EvPoolWait; EvClose], []. cbn [fst snd mret M_ret].
    split; [exact Ht1 |]. split; [exact Hp1 |]. split; [cbn; lia |].
    split; [intros _; now exists [] | reflexivity].
  - destruct (IH s1) as (evs2 & l2 & Ht2 & Hp2 & Hl2 & Hret & Hbal2).
    exists (evs1 ++ evs2), (l1 ++ l2).
    split; [now rewrite Ht2, Ht1, app_assoc |].
    split; [now rewrite Hp2, Hp1, app_assoc |].
    split; [rewrite length_app; lia |]. split.
    + intros Hok. destruct (Hret Hok) as [evs' ->]. exists (evs1 ++ evs').
      now rewrite app_assoc.
    + intros Hnp. rewrite pool_adds_app, pool_dones_app, Hbal, (Hbal2 Hnp).
      reflexivity.
  - exists evs1, l1. cbn [fst snd].
    split; [exact Ht1 |]. split; [exact Hp1 |]. split; [lia |].
    split; [discriminate | congruence].
Qed.

(** X15. The consumer releases every slot of its worker pool that it took:
    over any number of turns of the loop in which no goroutine panicked,
    the slots taken and the slots released are as many. *)
Theorem kafkaConsumer_pool_balanced crawl turns s :
  exists evs : list Event,
    trace (kafkaConsumer_loop turns crawl s).2 = trace s ++ evs /\
    ((kafkaConsumer_loop turns crawl s).1 <> Panic ->
     pool_adds evs = pool_dones evs).
Proof.
  destruct (kafkaConsumer_loop_cases crawl turns s) as (evs & l & Ht & _ & _ & _ & Hb).
  now exists evs.
Qed.

(** X16. The loop of the consumer is left only through the [Finished]
    branch: when it returns, the last things it did are to wait for the
    worker pool and to close the client. *)
Theorem kafkaConsumer_loop_returns_finished crawl turns s :
  (kafkaConsumer_loop turns crawl s).1 = Ok tt ->
  exists evs : list Event,
    trace (kafkaConsumer_loop turns crawl s).2 =
      trace s ++ evs ++ [EvPoolWait; EvClose].
Proof.
  intros Hok.
  destruct (kafkaConsumer_loop_cases crawl turns s) as (evs & l & Ht & _ & _ & Hr & _).
  destruct (Hr Hok) as [evs' ->]. now exists evs'.
Qed.

(** X17. Over any number of turns the consumer only adds to the push
    channel, and at most one item per turn. *)
Theorem kafkaConsumer_loop_pushes crawl turns s :
  exists l : list frontier.Item,
    PushChan (kafkaConsumer_loop turns crawl s).2 = PushChan s ++ l /\
    (length l <= turns)%nat.
Proof.
  destruct (kafkaConsumer_loop_cases crawl turns s) as (evs & l & _ & Hp & Hl & _).
  now exists l.
Qed.

(** X18. Below the threshold the turn admits a message: with [Finished]
    unset and fewer than nine tenths of the workers active, the consumer
    takes a slot of the pool and starts one read, with the timeout
    argument 15, at the time of the turn. *)
Theorem kafkaConsumer_admits crawl s active w1 w2 :
  Finished_Get (crawl_world s) = (false, w1) ->
  ActiveWorkers_Value w1 = (active, w2) ->
  0 <= Workers crawl ->
  10 * active < 9 * Workers crawl ->
  exists evs : list Event,
    trace (kafkaConsumer_iteration crawl s).2 =
      trace s ++ EvPoolAdd :: EvReadMessage (now s) 15 :: evs /\
    pool_adds evs = O.
Proof.
  intros Hfin Hact Hw Hlt. unfold kafkaConsumer_iteration.
  rewrite (bind_Ok _ _ _ _ _ (ask_run _ _)), Hfin. cbn [fst snd].
  rewrite (bind_Ok _ _ _ _ _ (ask_run _ _)). cbn [crawl_world set_world].
  rewrite Hact. cbn [fst snd].
  destruct (Workers crawl - Workers crawl ÷ 10 <=? active) eqn:Hle.
  { apply admission_threshold_iff in Hle; [lia | exact Hw]. }
  rewrite (bind_Ok _ _ _ _ _ (emit_run _ _)).
  set (s1 := set_trace _ _).
  destruct (kafkaConsumeMessage_cases crawl s1) as (evs & l & Ht & _ & Ha & _).
  exists evs. split; [| exact Ha].
  unfold mbind, M_bind.
  destruct (kafkaConsumeMessage crawl s1) as [[[] | |] s2];
    cbv beta iota zeta delta [mret M_ret fst snd] in *;
    rewrite Ht; unfold s1; cbn [trace set_trace set_world now];
    now rewrite <- app_assoc.
Qed.
End Consumer_more.

(** ** Errors and log records *)

Section Errors.
Context {U : NetURL} {H : URLHash} {R : Runtime}.
Variable extractOutlinks : url_URL -> goquery_Document -> list url_URL + error.
Variable extractAssets : Crawl -> url_URL -> goquery_Document -> list url_URL + error.

Lemma Capture_request_run item itemURL req0 s :
  (0 < frontier.Hop item ->
   exists parent parentURL,
     frontier.ParentItem item = Some parent /\
     frontier.URL parent = Some parentURL) ->
  Capture_request item itemURL req0 s =
    (Ok (req_Header_Set req0 "Referer" (Capture_referer item itemURL)), s).
Proof.
  intros Hparent. unfold Capture_request, Capture_referer.
  destruct (0 <? frontier.Hop item) eqn:Hpos.
  - apply Z.ltb_lt in Hpos.
    destruct (Hparent Hpos) as (parent & parentURL & Ep & Eu).
    rewrite Ep. cbn [deref andb]. rewrite bind_ret, Eu. cbn [deref].
    rewrite bind_ret. now destruct (0 <? Go.len _).
  - destruct (frontier.ParentItem item) as [parent |]; [| reflexivity].
    now destruct (frontier.URL parent).
Qed.

(** X19. A transport error.  When the request for the page fails in the
    client, [Capture] returns after that one fetch and one warning that
    carries the URL of the item and the error: no success record, nothing
    parsed, no goroutine, and the counter, the store and the push channel
    as they were. *)
Theorem Capture_transport_error c item s itemURL req0 err w :
  frontier.URL item = Some itemURL ->
  http_NewRequest (URL_String itemURL) = Some req0 ->
  (0 < frontier.Hop item ->
   exists parent parentURL,
     frontier.ParentItem item = Some parent /\
     frontier.URL parent = Some parentURL) ->
  Client_Do
    (selectClient c (req_Header_Set req0 "Referer" (Capture_referer item itemURL)))
    (req_Header_Set req0 "Referer" (Capture_referer item itemURL))
    (crawl_world s) = (inr err, w) ->
  (Capture extractOutlinks extractAssets c item s).1 = Ok tt /\
  trace (Capture extractOutlinks extractAssets c item s).2 =
    trace s ++
    [EvDo item
       (selectClient c (req_Header_Set req0 "Referer" (Capture_referer item itemURL)))
       (req_Header_Set req0 "Referer" (Capture_referer item itemURL));
     EvLogWarning (URL_String itemURL) err] /\
  QueueCount (Capture extractOutlinks extractAssets c item s).2 = QueueCount s /\
  SeencheckDB (Capture extractOutlinks extractAssets c item s).2 = SeencheckDB s /\
  PushChan (Capture extractOutlinks extractAssets c item s).2 = PushChan s.
Proof.
  intros Hurl Hreq Hparent Hdo.
  unfold Capture. rewrite Hurl. cbn [deref]. rewrite bind_ret, Hreq.
  rewrite (bind_Ok _ _ _ _ _ (Capture_request_run _ _ _ _ Hparent)).
  unfold executeGET. cbn [executeGET_fuel].
  rewrite bind_assoc, (bind_Ok _ _ _ _ _ (Do_run _ _ _ _)), Hdo.
  cbn [fst snd]. rewrite bind_ret. cbn [Capture_result].
  unfold logWarning, emit, modify.
  cbn [fst snd trace QueueCount SeencheckDB PushChan set_trace set_world].
  rewrite <- app_assoc. repeat split.
Qed.

Lemma bind_panics {A B} (m : M A) (f : A -> M B) s s' :
  m s = (Panic, s') -> (m ≫= f) s = (Panic, s').
Proof. intros E. unfold mbind, M_bind. now rewrite E. Qed.

Lemma bind_exhausts {A B} (m : M A) (f : A -> M B) s s' :
  m s = (OutOfFuel, s') -> (m ≫= f) s = (OutOfFuel, s').
Proof. intros E. unfold mbind, M_bind. now rewrite E. Qed.

Lemma executeGET_only_fetches_aux c item req s :
  QueueCount (executeGET c item req s).2 = QueueCount s /\
  exists evs : list Event,
    trace (executeGET c item req s).2 = trace s ++ evs /\ Forall is_EvDo evs.
Proof.
  destruct (executeGET_steps (only_appends is_EvDo) is_EvDo
              (only_appends_refl _) (only_appends_trans _) (only_appends_world _)
              (only_appends_emit _) (fun _ _ _ => I) c item req s)
    as (Q & _ & _ & _ & A).
  split; [exact Q | exact A].
Qed.

(** What [executeGET] leaves behind, outcome included: the fetch for the
    item itself, then fetches only. *)
Lemma executeGET_run_fetches c item req s :
  exists (out : Outcome (http_Request * GetResult)) s' (evs : list Event),
    executeGET c item req s = (out, s') /\
    trace s' = trace s ++ EvDo item (selectClient c req) req :: evs /\
    Forall is_EvDo evs /\
    QueueCount s' = QueueCount s.
Proof.
  destruct (executeGET_only_fetches_aux c item req s) as (Q & _).
  destruct (executeGET_fuel_after_Do_appends is_EvDo (fun _ _ _ => I)
              (Z.to_nat (MaxRedirect c - frontier.Redirect item)) c item req s)
    as (evs & Ht & Hf).
  rewrite Do_run in Ht. cbn [snd set_world set_trace trace] in Ht.
  fold (executeGET c item req) in Ht.
  destruct (executeGET c item req s) as [out s'] eqn:E. cbn [snd] in *.
  exists out, s', evs. rewrite Ht, <- app_assoc. now repeat split.
Qed.

(** X20. One log record per captured asset.  [captureAsset] adds to the
    trace its fetches and then its log records, and the outcome decides
    the records: exactly the success record of the asset, with its URL,
    hop count and type and the counter as it was, when it returns nil
    after a fetch; exactly the warning with the asset's URL and the
    returned error when it returns an error after a fetch; and none when
    it returns without a fetch (the asset was skipped, or no request
    could be built) or when it does not return. *)
Theorem captureAsset_logs_once c item cookies s :
  exists (evs log : list Event),
    trace (captureAsset c item cookies s).2 = trace s ++ evs ++ log /\
    Forall is_EvDo evs /\
    match (captureAsset c item cookies s).1, evs with
    | Ok None, _ :: _ =>
        exists u code,
          frontier.URL item = Some u /\
          log = [EvLogSuccess (URL_String u) code (frontier.Hop item)
                   (frontier.Type_ item) (QueueCount s)]
    | Ok (Some err), _ :: _ =>
        exists u,
          frontier.URL item = Some u /\ log = [EvLogWarning (URL_String u) err]
    | _, _ => log = []
    end.
Proof.
  assert (Hnone : forall (out : Outcome (option error)) (s0 : State),
            trace s0 = trace s ->
            exists evs log : list Event,
              trace (out, s0).2 = trace s ++ evs ++ log /\ Forall is_EvDo evs /\
              match (out, s0).1, evs with
              | Ok None, _ :: _ =>
                  exists u code,
                    frontier.URL item = Some u /\
                    log = [EvLogSuccess (URL_String u) code (frontier.Hop item)
                             (frontier.Type_ item) (QueueCount s)]
              | Ok (Some err), _ :: _ =>
                  exists u,
                    frontier.URL item = Some u /\
                    log = [EvLogWarning (URL_String u) err]
              | _, _ => log = []
              end).
  { intros out s0 Ht. exists [], []. rewrite !app_nil_r.
    split; [exact Ht |]. split; [constructor |].
    cbn [fst]. now destruct out as [[e |] | |]. }
  assert (Hrest : forall s0 : State,
            trace s0 = trace s -> QueueCount s0 = QueueCount s ->
            let run :=
              (u ← deref (frontier.URL item);
               match http_NewRequest (URL_String u) with
               | None => mret (Some "NewRequest")
               | Some req =>
                   parent ← deref (frontier.ParentItem item);
                   parentURL ← deref (frontier.URL parent);
                   let req := req_Header_Set req "Referer" (URL_String parentURL) in
                   let req := fold_left AddCookie cookies req in
                   '(_, res) ← executeGET c item req;
                   match res with
                   | GetErr _ err => logWarning (URL_String u) err;; mret (Some err)
                   | GetOk resp => logCrawlSuccess (StatusCode resp) item;; mret None
                   end
               end) s0 in
            exists evs log : list Event,
              trace run.2 = trace s ++ evs ++ log /\ Forall is_EvDo evs /\
              match run.1, evs with
              | Ok None, _ :: _ =>
                  exists u code,
                    frontier.URL item = Some u /\
                    log = [EvLogSuccess (URL_String u) code (frontier.Hop item)
                             (frontier.Type_ item) (QueueCount s)]
              | Ok (Some err), _ :: _ =>
                  exists u,
                    frontier.URL item = Some u /\
                    log = [EvLogWarning (URL_String u) err]
              | _, _ => log = []
              end).
  { intros s0 Ht0 Hq0. cbv zeta.
    destruct (frontier.URL item) as [u |] eqn:Hu; cbn [deref]; [| now apply Hnone].
    rewrite bind_ret.
    destruct (http_NewRequest _) as [req0 |]; [| now apply Hnone].
    destruct (frontier.ParentItem item) as [parent |]; cbn [deref]; [| now apply Hnone].
    rewrite bind_ret.
    destruct (frontier.URL parent) as [pu |]; cbn [deref]; [| now apply Hnone].
    rewrite bind_ret.
    set (req := fold_left AddCookie cookies _).
    destruct (executeGET_run_fetches c item req s0)
      as (out & s1 & evs & Erun & Ht1 & Hf & Hq1).
    assert (Hfs : Forall is_EvDo (EvDo item (selectClient c req) req :: evs))
      by (constructor; [exact I | exact Hf]).
    destruct out as [[r [resp | ? err]] | |].
    - exists (EvDo item (selectClient c req) req :: evs),
             [EvLogSuccess (URL_String u) (StatusCode resp) (frontier.Hop item)
                (frontier.Type_ item) (QueueCount s)].
      rewrite (bind_Ok _ _ _ _ _ Erun).
      unfold logCrawlSuccess. rewrite bind_assoc, (bind_Ok _ _ _ _ _ (get_run s1)).
      rewrite Hu. cbn [deref]. rewrite bind_assoc, bind_ret.
      rewrite (bind_Ok _ _ _ _ _ (emit_run _ _)).
      cbn [fst snd mret M_ret trace set_trace].
      rewrite Ht1, Ht0, Hq1, Hq0, <- app_assoc.
      split; [reflexivity |]. split; [exact Hfs |]. eauto.
    - exists (EvDo item (selectClient c req) req :: evs),
             [EvLogWarning (URL_String u) err].
      rewrite (bind_Ok _ _ _ _ _ Erun).
      unfold logWarning. rewrite (bind_Ok _ _ _ _ _ (emit_run _ _)).
      cbn [fst snd mret M_ret trace set_trace].
      rewrite Ht1, Ht0, <- app_assoc.
      split; [reflexivity |]. split; [exact Hfs |]. eauto.
    - exists (EvDo item (selectClient c req) req :: evs), [].
      rewrite (bind_panics _ _ _ _ Erun). cbn [fst snd].
      rewrite Ht1, Ht0, app_nil_r.
      split; [reflexivity |]. split; [exact Hfs | reflexivity].
    - exists (EvDo item (selectClient c req) req :: evs), [].
      rewrite (bind_exhausts _ _ _ _ Erun). cbn [fst snd].
      rewrite Ht1, Ht0, app_nil_r.
      split; [reflexivity |]. split; [exact Hfs | reflexivity]. }
  unfold captureAsset.
  destruct (Seencheck c).
  - rewrite bind_assoc,
      (bind_Ok _ _ _ _ _ (Seencheck_IsSeen_run (FormatUint (frontier.Hash item)) s)).
    set (s0 := set_world _ s).
    destruct (match (Seencheck_probe (crawl_world s)).1 with
              | Some err => (false, Some err)
              | None =>
                  (bool_decide
                     (is_Some (SeencheckDB s !! FormatUint (frontier.Hash item))), None)
              end) as [[|] e]; cbv beta iota.
    + rewrite bind_ret. now apply Hnone.
    + rewrite bind_assoc. unfold Seencheck_Seen at 1, modify at 1.
      unfold mbind at 1, M_bind at 1. rewrite bind_ret.
      apply Hrest; now destruct (SeencheckDB s0 !! _).
  - rewrite bind_ret. now apply Hrest.
Qed.
End Errors.

Section Further_runs.
Import Script.

Lemma Capture_restores_QueueCount_witness :
  QueueCount (Capture one_outlink two_assets config (seed "http://b/" 0 None)
                (start (servers [page "text/html"; redirect_to "http://b/x.png"]))).2
  = QueueCount (start (servers [page "text/html"; redirect_to "http://b/x.png"])).
Proof.
  apply (Capture_restores_QueueCount one_outlink two_assets config
           (seed "http://b/" 0 None)
           (start (servers [page "text/html"; redirect_to "http://b/x.png"]))).
  - unfold Go.uint_range. simpl. lia.
  - unfold Go.int64_range. simpl. lia.
Defined.

Lemma Capture_request_header_witness :
  exists (req : http_Request) (evs : list Event),
    trace (Capture one_outlink two_assets config
             (seed "http://b/" 1 (Some (seed "http://a/" 0 None)))
             (start (servers [page "text/html"]))).2 =
      trace (start (servers [page "text/html"])) ++
      EvDo (seed "http://b/" 1 (Some (seed "http://a/" 0 None)))
        (selectClient config req) req :: evs /\
    req_URL req = req_URL (request "http://b/") /\
    req_Header req =
      {[ "Referer" :=
           Capture_referer (seed "http://b/" 1 (Some (seed "http://a/" 0 None)))
             "http://b/" ]}.
Proof.
  apply (Capture_request_header one_outlink two_assets config
           (seed "http://b/" 1 (Some (seed "http://a/" 0 None)))
           (start (servers [page "text/html"])) "http://b/" (request "http://b/")).
  - reflexivity.
  - reflexivity.
  - intros _. exists (seed "http://a/" 0 None), "http://a/". split; reflexivity.
Defined.

(** The Referer of a seed without parent is its host, that of an outlink
    is the page it was found on. *)
Example Capture_referer_values :
  Capture_referer (seed "http://b/" 0 None) "http://b/" = "b" /\
  Capture_referer (seed "http://b/" 1 (Some (seed "http://a/" 0 None))) "http://b/"
    = "http://a/".
Proof. split; reflexivity. Qed.

Lemma Capture_transport_error_witness :
  (Capture one_outlink two_assets config (seed "http://b/" 0 None)
     (start (servers []))).1 = Ok tt /\
  trace (Capture one_outlink two_assets config (seed "http://b/" 0 None)
           (start (servers []))).2 =
    trace (start (servers [])) ++
    [EvDo (seed "http://b/" 0 None)
       (selectClient config
          (req_Header_Set (request "http://b/") "Referer"
             (Capture_referer (seed "http://b/" 0 None) "http://b/")))
       (req_Header_Set (request "http://b/") "Referer"
          (Capture_referer (seed "http://b/" 0 None) "http://b/"));
     EvLogWarning (URL_String ("http://b/" : url_URL)) "connection refused"] /\
  QueueCount (Capture one_outlink two_assets config (seed "http://b/" 0 None)
                (start (servers []))).2 = QueueCount (start (servers [])) /\
  SeencheckDB (Capture one_outlink two_assets config (seed "http://b/" 0 None)
                 (start (servers []))).2 = SeencheckDB (start (servers [])) /\
  PushChan (Capture one_outlink two_assets config (seed "http://b/" 0 None)
              (start (servers []))).2 = PushChan (start (servers [])).
Proof.
  apply (Capture_transport_error one_outlink two_assets config
           (seed "http://b/" 0 None) (start (servers [])) "http://b/"
           (request "http://b/") "connection refused" (servers [])).
  - reflexivity.
  - reflexivity.
  - simpl. lia.
  - reflexivity.
Defined.

Lemma kafkaConsumer_loop_returns_finished_witness :
  exists evs : list Event,
    trace (kafkaConsumer_loop 3 config (start shutdown)).2 =
      trace (start shutdown) ++ evs ++ [EvPoolWait; EvClose].
Proof.
  apply (kafkaConsumer_loop_returns_finished config 3 (start shutdown)).
  reflexivity.
Defined.

Lemma kafkaConsumer_admits_witness :
  exists evs : list Event,
    trace (kafkaConsumer_iteration config
             (start (broker [inl (message "http://c/" 0 "")] 4))).2 =
      trace (start (broker [inl (message "http://c/" 0 "")] 4)) ++
      EvPoolAdd ::
      EvReadMessage (now (start (broker [inl (message "http://c/" 0 "")] 4))) 15 :: evs /\
    pool_adds evs = O.
Proof.
  apply (kafkaConsumer_admits config
           (start (broker [inl (message "http://c/" 0 "")] 4)) 4
           (broker [inl (message "http://c/" 0 "")] 4)
           (broker [inl (message "http://c/" 0 "")] 4)).
  - reflexivity.
  - reflexivity.
  - simpl. lia.
  - simpl. lia.
Defined.

(** Three turns of the loop on a broker that has two messages: three
    slots taken and released, two items pushed, and the loop still going. *)
Example kafkaConsumer_pool_runs :
  (kafkaConsumer_loop 3 config
     (start (broker [inl (message "http://c/" 0 ""); inl (message "http://d/" 1 "http://c/")]
               0))).1 = OutOfFuel /\
  pool_adds (trace (kafkaConsumer_loop 3 config
     (start (broker [inl (message "http://c/" 0 ""); inl (message "http://d/" 1 "http://c/")]
               0))).2) = 3%nat /\
  pool_dones (trace (kafkaConsumer_loop 3 config
     (start (broker [inl (message "http://c/" 0 ""); inl (message "http://d/" 1 "http://c/")]
               0))).2) = 3%nat /\
  length (PushChan (kafkaConsumer_loop 3 config
     (start (broker [inl (message "http://c/" 0 ""); inl (message "http://d/" 1 "http://c/")]
               0))).2) = 2%nat.
Proof. repeat split; vm_compute; reflexivity. Qed.
End Further_runs.

(** ** The counter of queued assets, in Capture *)

Section Capture_counter.
Context {U : NetURL} {H : URLHash} {R : Runtime}.
Variable extractOutlinks : url_URL -> goquery_Document -> list url_URL + error.
Variable extractAssets : Crawl -> url_URL -> goquery_Document -> list url_URL + error.

Lemma logCrawlSuccess_run code item u s :
  frontier.URL item = Some u ->
  logCrawlSuccess code item s =
    (Ok tt,
     set_trace (trace s ++ [EvLogSuccess (URL_String u) code (frontier.Hop item)
                              (frontier.Type_ item) (QueueCount s)]) s).
Proof.
  intros Hu. unfold logCrawlSuccess.
  rewrite (bind_Ok _ _ _ _ _ (get_run s)), Hu. cbn [deref].
  now rewrite bind_ret.
Qed.

(** A page whose fetch succeeded, that is text, parses, and whose links
    and assets are extracted: [Capture] gets to line 184 with the counter
    as it was. *)
Lemma Capture_reaches_assets c item s itemURL req0 r resp s1 base doc assets :
  frontier.URL item = Some itemURL ->
  http_NewRequest (URL_String itemURL) = Some req0 ->
  (0 < frontier.Hop item ->
   exists parent parentURL,
     frontier.ParentItem item = Some parent /\
     frontier.URL parent = Some parentURL) ->
  executeGET c item (req_Header_Set req0 "Referer" (Capture_referer item itemURL)) s
    = (Ok (r, GetOk resp), s1) ->
  Go.strings_Contains (Header_Get (resp_Header resp) "Content-Type") "text/" = true ->
  url_Parse (URL_String (req_URL (resp_Request resp))) = Some base ->
  goquery_NewDocumentFromResponse resp = Some doc ->
  (frontier.Hop item < MaxHops c ->
   exists outlinks, extractOutlinks base doc = inl outlinks) ->
  extractAssets c base doc = inl assets ->
  exists s0,
    QueueCount s0 = QueueCount s /\
    Capture extractOutlinks extractAssets c item s =
      (QueueCount_Incr (Z.of_nat (length assets));;
       captureAssets c item itemURL resp assets) s0.
Proof.
  intros Hurl Hreq Hparent Hget Hct Hbase Hdoc Hout Hassets.
  assert (Hq1 : QueueCount s1 = QueueCount s).
  { destruct (executeGET_only_fetches_aux c item
                (req_Header_Set req0 "Referer" (Capture_referer item itemURL)) s)
      as (Q & _).
    now rewrite Hget in Q. }
  unfold Capture. rewrite Hurl. cbn [deref]. rewrite bind_ret, Hreq.
  rewrite (bind_Ok _ _ _ _ _ (Capture_request_run _ _ _ _ Hparent)).
  rewrite (bind_Ok _ _ _ _ _ Hget). cbv beta iota. cbn [Capture_result].
  rewrite (bind_Ok _ _ _ _ _ (logCrawlSuccess_run _ _ _ _ Hurl)).
  rewrite Hct. cbn [negb]. rewrite Hbase, Hdoc.
  destruct (frontier.Hop item <? MaxHops c) eqn:Hhop.
  - apply Z.ltb_lt in Hhop. destruct (Hout Hhop) as [outlinks ->].
    rewrite bind_assoc, (bind_Ok _ _ _ _ _ (emit_run _ _)), bind_ret, Hassets.
    eexists. split; [| reflexivity]. exact Hq1.
  - rewrite bind_ret, Hassets. eexists. split; [| reflexivity]. exact Hq1.
Qed.

(** C9. Lines 184-208, in [Capture].  For a page whose fetch succeeded,
    that is text, parses, and whose links and assets are extracted,
    [Capture] gets to line 184 in a state [s0] with the counter as it was
    before the call, and what it does from there is the raise of the
    counter by the number [n] of assets followed by the asset loop.  The
    counter is lowered by one at the start of every turn, skipped assets
    included.  For the asset at index [i] from 0, the [i+1]-th: the state
    [s_i] reached from [s0] by the raise, the turns for the assets before
    it and the decrement of its own turn is a state from which the body of
    its turn and the turns of the assets after it are what is left of
    [Capture]; there the counter is the one before the call plus
    [n - (i+1)], in int64 arithmetic, and exactly so when the raise did not
    overflow.  [Capture] returns with the counter at the value it had
    before the call. *)
Theorem Capture_QueueCount_during_assets
    c item s itemURL req0 r resp s1 base doc assets :
  Go.uint_range (MaxRedirect c) ->
  Go.int64_range (QueueCount s) ->
  frontier.URL item = Some itemURL ->
  http_NewRequest (URL_String itemURL) = Some req0 ->
  (0 < frontier.Hop item ->
   exists parent parentURL,
     frontier.ParentItem item = Some parent /\
     frontier.URL parent = Some parentURL) ->
  executeGET c item (req_Header_Set req0 "Referer" (Capture_referer item itemURL)) s
    = (Ok (r, GetOk resp), s1) ->
  Go.strings_Contains (Header_Get (resp_Header resp) "Content-Type") "text/" = true ->
  url_Parse (URL_String (req_URL (resp_Request resp))) = Some base ->
  goquery_NewDocumentFromResponse resp = Some doc ->
  (frontier.Hop item < MaxHops c ->
   exists outlinks, extractOutlinks base doc = inl outlinks) ->
  extractAssets c base doc = inl assets ->
  let n := Z.of_nat (length assets) in
  let loop := captureAssets c item itemURL resp in
  let capture := Capture extractOutlinks extractAssets c item in
  exists s0,
    QueueCount s0 = QueueCount s /\
    capture s = (QueueCount_Incr n;; loop assets) s0 /\
    (forall (i : nat) asset,
       assets !! i = Some asset ->
       exists s_i,
         (QueueCount_Incr n;; loop (take i assets);; QueueCount_Incr (-1)) s0
           = (Ok tt, s_i) /\
         capture s =
           (captureAssets_body c item itemURL resp asset;;
            loop (drop (S i) assets)) s_i /\
         QueueCount s_i = Go.int64 (QueueCount s + (n - (Z.of_nat i + 1))) /\
         (Go.int64_range (QueueCount s + n) ->
          QueueCount s_i = QueueCount s + (n - (Z.of_nat i + 1)))) /\
    (capture s).1 = Ok tt /\
    QueueCount (capture s).2 = QueueCount s.
Proof.
  intros Hmax Hq Hurl Hreq Hparent Hget Hct Hbase Hdoc Hout Hassets n loop capture.
  destruct (Capture_reaches_assets c item s itemURL req0 r resp s1 base doc assets
              Hurl Hreq Hparent Hget Hct Hbase Hdoc Hout Hassets) as (s0 & Q0 & Hrun).
  assert (Hq0 : Go.int64_range (QueueCount s0)) by now rewrite Q0.
  destruct (Capture_assets_QueueCount c item itemURL resp assets s0 Hmax Hurl Hq0)
    as (Hturns & s' & Hend & Qend).
  exists s0. subst capture loop n. rewrite Hrun.
  split; [exact Q0 |]. split; [reflexivity |]. split; [| split].
  - intros i asset Hi. destruct (Hturns i asset Hi) as (s_i & Hpre & Qi & Qexact & Hpost).
    exists s_i. rewrite <- Q0.
    split; [exact Hpre |]. split; [exact Hpost |]. split; [exact Qi | exact Qexact].
  - now rewrite Hend.
  - rewrite Hend. cbn [snd]. now rewrite Qend.
Qed.
End Capture_counter.

(** ** The Kafka producer: a produce call that fails *)

Section Producer_errors.
Context {U : NetURL} {H : URLHash} {R : Runtime}.

(** The step of one item whose [Produce] call returns an error. *)
Lemma produceItem_run_error crawl item s m e w :
  kafkaMessage_of item = Some m ->
  Producer_Produce (KafkaOutlinksTopic crawl) (message_value m) (crawl_world s)
    = (Some e, w) ->
  exists s1 (evs : list Event),
    produceItem crawl item s = (Ok tt, s1) /\
    crawl_world s1 = w /\
    PushChan s1 = PushChan s ++ [item] /\
    trace s1 = trace s ++ evs /\
    In (EvProduce item (message_value m) (Some e)) evs.
Proof.
  intros Hm Hproduce. unfold kafkaMessage_of in Hm. unfold produceItem.
  destruct (frontier.URL item) as [u |]; [| discriminate]. cbn [deref].
  rewrite bind_ret.
  assert (Hrest : forall parentURL,
    m = {| URL := URL_String u; HopsCount := frontier.Hop item;
           ParentURL := parentURL |} ->
    exists s1 (evs : list Event),
      ((match json_Marshal
                {| URL := URL_String u; HopsCount := frontier.Hop item;
                   ParentURL := parentURL |} with
        | inl bytes => mret bytes
        | inr err =>
            logWarning "Unable to marshal message before sending to KAfka" err;;
            mret []
        end) ≫= (fun newKafkaMessageBytes =>
         err ← ask (Producer_Produce (KafkaOutlinksTopic crawl) newKafkaMessageBytes);
         emit (EvProduce item newKafkaMessageBytes err);;
         match err with
         | Some e =>
             logWarning "Failed to produce message to Kafka, pushing the seed to the local queue instead" e;;
             PushChan_send item
         | None => mret tt
         end)) s = (Ok tt, s1) /\
      crawl_world s1 = w /\
      PushChan s1 = PushChan s ++ [item] /\
      trace s1 = trace s ++ evs /\
      In (EvProduce item (message_value m) (Some e)) evs).
  { intros parentURL ->. unfold message_value in *.
    destruct (json_Marshal _) as [bytes | err].
    - rewrite bind_ret, (bind_Ok _ _ _ _ _ (ask_run _ _)), Hproduce.
      cbn [fst snd].
      eexists _, [_; _]. split; [reflexivity |].
      unfold logWarning, emit, PushChan_send, modify, mbind, M_bind.
      cbn [fst snd crawl_world PushChan trace set_trace set_world set_PushChan].
      rewrite <- app_assoc. repeat split. now left.
    - unfold logWarning.
      rewrite bind_assoc, (bind_Ok _ _ _ _ _ (emit_run _ _)), bind_ret.
      rewrite (bind_Ok _ _ _ _ _ (ask_run _ _)).
      cbn [crawl_world set_trace]. rewrite Hproduce. cbn [fst snd].
      eexists _, [_; _; _]. split; [reflexivity |].
      unfold logWarning, emit, PushChan_send, modify, mbind, M_bind.
      cbn [fst snd crawl_world PushChan trace set_trace set_world set_PushChan].
      rewrite <- !app_assoc. repeat split. right. now left. }
  destruct (frontier.ParentItem item) as [parent |].
  - destruct (frontier.URL parent) as [pu |]; [| discriminate].
    cbn [deref]. rewrite bind_assoc, !bind_ret.
    apply Hrest. now injection Hm as <-.
  - rewrite bind_ret. apply Hrest. now injection Hm as <-.
Qed.

(** The push channel only grows while the producer's loop runs. *)
Lemma kafkaProducer_loop_keeps_pushed crawl channel s :
  exists l, PushChan (kafkaProducer_loop crawl channel s).2 = PushChan s ++ l.
Proof.
  destruct (kafkaProducer_loop_pushes crawl channel s) as (evs & _ & Hp & _).
  eauto.
Qed.

(** C6. An item that the producer takes from the outlink channel and
    whose [Produce] call returns an error is pushed, not dropped.  The
    producer takes [item] from the channel in the state [s]: [Finished] is
    not set, and the record for the item is filled (its URL is there, and
    its parent's when it has a parent).  If [Produce], called on the
    outlinks topic with the value made from that record in the world as
    it then is, returns an error, the turn for the item returns with the
    item sent on the push channel of the frontier, after a [Produce] call
    recorded with that error; the loop goes on with the rest of the
    channel, the item is on the push channel when the loop is over,
    whatever happens to the items after it, and also when the whole
    producer, started with this channel, is over. *)
Theorem kafkaProducer_produce_error_pushes crawl item rest s w m e w' :
  Finished_Get (crawl_world s) = (false, w) ->
  kafkaMessage_of item = Some m ->
  Producer_Produce (KafkaOutlinksTopic crawl) (message_value m) w = (Some e, w') ->
  (exists s1 (evs : list Event),
     produceItem crawl item (set_world w s) = (Ok tt, s1) /\
     crawl_world s1 = w' /\
     PushChan s1 = PushChan s ++ [item] /\
     trace s1 = trace s ++ evs /\
     In (EvProduce item (message_value m) (Some e)) evs /\
     kafkaProducer_loop crawl (item :: rest) s = kafkaProducer_loop crawl rest s1) /\
  (exists l,
     PushChan (kafkaProducer_loop crawl (item :: rest) s).2 = PushChan s ++ item :: l) /\
  (forall s0,
     kafka_NewProducer (crawl_world s0) = (None, crawl_world s) ->
     s = set_world (crawl_world s) s0 ->
     exists l,
       PushChan (kafkaProducer crawl (item :: rest) s0).2 = PushChan s0 ++ item :: l).
Proof.
  intros Hfin Hm Hproduce.
  destruct (produceItem_run_error crawl item (set_world w s) m e w' Hm Hproduce)
    as (s1 & evs & Hrun & Hw & Hp & Ht & Hin).
  cbn [PushChan trace set_world] in Hp, Ht.
  assert (Hloop : kafkaProducer_loop crawl (item :: rest) s =
                  kafkaProducer_loop crawl rest s1).
  { cbn [kafkaProducer_loop].
    rewrite (bind_Ok _ _ _ _ _ (ask_run _ _)), Hfin. cbn [fst snd].
    now rewrite (bind_Ok _ _ _ _ _ Hrun). }
  assert (Hpushed : exists l,
            PushChan (kafkaProducer_loop crawl (item :: rest) s).2 =
              PushChan s ++ item :: l).
  { destruct (kafkaProducer_loop_keeps_pushed crawl rest s1) as [l Hl].
    exists l. rewrite Hloop, Hl, Hp. now rewrite <- app_assoc. }
  split; [| split].
  - exists s1, evs. repeat split; assumption.
  - exact Hpushed.
  - intros s0 Hnew Hs. destruct Hpushed as [l Hl]. exists l.
    unfold kafkaProducer.
    rewrite (bind_Ok _ _ _ _ _ (ask_run _ _)), Hnew. cbn [fst snd]. rewrite <- Hs.
    assert (Hs0 : PushChan s0 = PushChan s) by (rewrite Hs; reflexivity).
    rewrite Hs0, <- Hl. unfold defer, mbind, M_bind, emit, modify.
    destruct (kafkaProducer_loop crawl (item :: rest) s) as [[[] | | ] s2];
      reflexivity.
Qed.
End Producer_errors.

(** ** The Kafka consumer: the thread of the loop *)

Section Consumer_thread.
Context {U : NetURL} {H : URLHash} {R : Runtime}.

Lemma starts_later_quiet s s' (evs : list Event) :
  now s <= now s' -> trace s' = trace s ++ evs ->
  Forall (no_start_before (now s)) evs -> starts_later s s'.
Proof. intros Hn Ht Hf. split; [exact Hn | now exists evs]. Qed.

Lemma starts_later_same s s' :
  now s' = now s -> trace s' = trace s -> starts_later s s'.
Proof.
  intros Hn Ht. apply (starts_later_quiet s s' []); [lia | | constructor].
  now rewrite app_nil_r.
Qed.

Lemma starts_later_refl s : starts_later s s.
Proof. now apply starts_later_same. Qed.

Lemma no_start_before_mono t t' e :
  t <= t' -> no_start_before t' e -> no_start_before t e.
Proof. destruct e; cbn; intros; trivial; lia. Qed.

Lemma starts_later_trans s1 s2 s3 :
  starts_later s1 s2 -> starts_later s2 s3 -> starts_later s1 s3.
Proof.
  intros (N1 & evs1 & T1 & F1) (N2 & evs2 & T2 & F2).
  apply (starts_later_quiet s1 s3 (evs1 ++ evs2)); [lia | |].
  - now rewrite T2, T1, app_assoc.
  - apply Forall_app. split; [exact F1 |].
    eapply Forall_impl; [exact F2 |]. intros e. now apply no_start_before_mono.
Qed.

Lemma kafkaConsumer_turn_starts_later crawl :
  steps starts_later (kafkaConsumer_turn crawl).
Proof.
  intros s. unfold kafkaConsumer_turn.
  rewrite (bind_Ok _ _ _ _ _ (ask_run _ _)).
  destruct (Finished_Get (crawl_world s)) as [[|] w1]; cbn [fst snd].
  - apply (starts_later_quiet _ _ [EvPoolWait; EvClose]);
      [reflexivity | | repeat constructor].
    unfold mbind, M_bind, emit, modify. cbn [fst snd trace set_trace set_world].
    now rewrite <- app_assoc.
  - rewrite (bind_Ok _ _ _ _ _ (ask_run _ _)). cbn [crawl_world set_world].
    destruct (ActiveWorkers_Value w1) as [active w2]; cbn [fst snd].
    destruct (Workers crawl - Workers crawl ÷ 10 <=? active).
    + apply (starts_later_quiet _ _ [EvSleep (Go.time_Second * 1)]);
        [| reflexivity | repeat constructor].
      unfold Sleep, mbind, M_bind, emit, modify.
      cbn [fst snd mret M_ret now set_now set_trace set_world].
      unfold Go.time_Second. lia.
    + apply (starts_later_quiet _ _ [EvPoolAdd; EvGoConsume (now s)]);
        [reflexivity | | repeat constructor; cbn; lia].
      unfold mbind, M_bind, emit, modify, get.
      cbn [fst snd now trace set_trace set_world].
      now rewrite <- app_assoc.
Qed.

Lemma kafkaConsumer_thread_starts_later turns crawl :
  steps starts_later (kafkaConsumer_thread turns crawl).
Proof.
  induction turns as [| turns IH]; cbn [kafkaConsumer_thread].
  - apply steps_out_of_fuel. exact starts_later_refl.
  - apply steps_bind;
      [exact starts_later_trans | apply kafkaConsumer_turn_starts_later |].
    intros [|]; [exact IH | apply steps_ret; exact starts_later_refl].
Qed.

(** C5. When the consumer, at the top of its loop with [Finished] unset,
    reads an [ActiveWorkers] value that passes the test of line 111, that
    is a value of at least [Workers - Workers/10] in Go's integer
    division, the turn sleeps one second and goes back to the top of the
    loop: it takes no slot of the worker pool and starts no goroutine,
    under any schedule.  The thread of the loop then lets at least one
    second pass before it admits a message: however many turns follow,
    the first thing it does is that sleep, and every goroutine it starts
    afterwards, and so every read of such a goroutine, is stamped at
    least one second after the time of the observation.  Nothing is said
    of the goroutines that were started before the observation, which run
    on their own threads. *)
Theorem kafkaConsumer_admission_sleeps crawl s turns active w1 w2 :
  Finished_Get (crawl_world s) = (false, w1) ->
  ActiveWorkers_Value w1 = (active, w2) ->
  Workers crawl - Workers crawl ÷ 10 <= active ->
  kafkaConsumer_turn crawl s =
    (Ok Continue,
     set_trace (trace s ++ [EvSleep Go.time_Second])
       (set_now (now s + Go.time_Second) (set_world w2 s))) /\
  kafkaConsumer_iteration crawl s = kafkaConsumer_turn crawl s /\
  exists evs : list Event,
    trace (kafkaConsumer_thread (S turns) crawl s).2 =
      trace s ++ EvSleep Go.time_Second :: evs /\
    Forall (no_start_before (now s + Go.time_Second)) evs /\
    Forall (fun t => now s + Go.time_Second <= t) (consume_starts evs).
Proof.
  intros Hfin Hact Hle. apply Z.leb_le in Hle.
  assert (Hturn : kafkaConsumer_turn crawl s =
            (Ok Continue,
             set_trace (trace s ++ [EvSleep Go.time_Second])
               (set_now (now s + Go.time_Second) (set_world w2 s)))).
  { unfold kafkaConsumer_turn.
    rewrite (bind_Ok _ _ _ _ _ (ask_run _ _)), Hfin. cbn [fst snd].
    rewrite (bind_Ok _ _ _ _ _ (ask_run _ _)). cbn [crawl_world set_world].
    rewrite Hact. cbn [fst snd]. rewrite Hle. reflexivity. }
  split; [exact Hturn |]. split.
  { rewrite Hturn. unfold kafkaConsumer_iteration.
    rewrite (bind_Ok _ _ _ _ _ (ask_run _ _)), Hfin. cbn [fst snd].
    rewrite (bind_Ok _ _ _ _ _ (ask_run _ _)). cbn [crawl_world set_world].
    rewrite Hact. cbn [fst snd]. rewrite Hle. reflexivity. }
  cbn [kafkaConsumer_thread]. rewrite (bind_Ok _ _ _ _ _ Hturn).
  destruct (kafkaConsumer_thread_starts_later turns crawl
              (set_trace (trace s ++ [EvSleep Go.time_Second])
                 (set_now (now s + Go.time_Second) (set_world w2 s))))
    as (_ & evs & Ht & Hf).
  cbn [now trace set_trace set_now set_world] in Ht, Hf.
  exists evs. split; [| split].
  - rewrite Ht. now rewrite <- app_assoc.
  - exact Hf.
  - clear Ht. unfold consume_starts.
    induction Hf as [| e evs' He _ IH]; [constructor |].
    destruct e; cbn in He |- *; try exact IH.
    constructor; [exact He | exact IH].
Qed.
End Consumer_thread.

Section Claims_runs.
Import Script.

(** C2. An item at [MaxHops] that is not fetched.  The consumer makes of
    the message with the URL http://c/, the hop count 1 and no parent URL
    an item with hop count 1 and no parent, and sends it on the push
    channel.  With [MaxHops] at 1, [Capture] of that item, whatever the
    servers would answer, panics on line 123, where the hop count is
    positive and the parent, which is nil, is dereferenced: the state is
    left as it was, so no fetch is made and nothing is logged.  The same
    item with a parent is fetched first thing (see [Capture_hop_bound]). *)
Theorem Capture_parentless_item_panics :
  let item := seed "http://c/" 1 None in
  let s := start (servers [page "text/html"]) in
  PushChan (kafkaConsumeMessage config
              (start (broker [inl (message "http://c/" 1 "")] 0))).2 = [item] /\
  frontier.Hop item = MaxHops config /\
  Capture one_outlink two_assets config item s = (Panic, s) /\
  fetch_items (trace (Capture one_outlink two_assets config item s).2) = [] /\
  head (fetch_items
          (trace (Capture one_outlink two_assets config
                    (seed "http://c/" 1 (Some (seed "http://b/" 0 None))) s).2))
    = Some (seed "http://c/" 1 (Some (seed "http://b/" 0 None))).
Proof. cbv zeta. repeat split; vm_compute; reflexivity. Qed.

Lemma Capture_QueueCount_during_assets_witness :
  let item := seed "http://b/" 0 None in
  let s := start (servers [page "text/html"; page "image/png"]) in
  let req := req_Header_Set (request "http://b/") "Referer"
               (Capture_referer item "http://b/") in
  let resp := {| StatusCode := 200;
                 resp_Header := list_to_map [("Content-Type", "text/html")];
                 resp_Request := req; resp_Cookies := [] |} in
  let assets : list url_URL := ["http://b/img.png"; "http://b/"] in
  let n := Z.of_nat (length assets) in
  let loop := captureAssets config item "http://b/" resp in
  let capture := Capture one_outlink two_assets config item in
  exists s0,
    QueueCount s0 = QueueCount s /\
    capture s = (QueueCount_Incr n;; loop assets) s0 /\
    (forall (i : nat) asset,
       assets !! i = Some asset ->
       exists s_i,
         (QueueCount_Incr n;; loop (take i assets);; QueueCount_Incr (-1)) s0
           = (Ok tt, s_i) /\
         capture s =
           (captureAssets_body config item "http://b/" resp asset;;
            loop (drop (S i) assets)) s_i /\
         QueueCount s_i = Go.int64 (QueueCount s + (n - (Z.of_nat i + 1))) /\
         (Go.int64_range (QueueCount s + n) ->
          QueueCount s_i = QueueCount s + (n - (Z.of_nat i + 1)))) /\
    (capture s).1 = Ok tt /\
    QueueCount (capture s).2 = QueueCount s.
Proof.
  cbv zeta.
  apply (Capture_QueueCount_during_assets one_outlink two_assets config
           (seed "http://b/" 0 None)
           (start (servers [page "text/html"; page "image/png"]))
           "http://b/" (request "http://b/")
           (req_Header_Set (request "http://b/") "Referer"
              (Capture_referer (seed "http://b/" 0 None) "http://b/"))
           {| StatusCode := 200;
              resp_Header := list_to_map [("Content-Type", "text/html")];
              resp_Request :=
                req_Header_Set (request "http://b/") "Referer"
                  (Capture_referer (seed "http://b/" 0 None) "http://b/");
              resp_Cookies := [] |}
           (executeGET config (seed "http://b/" 0 None)
              (req_Header_Set (request "http://b/") "Referer"
                 (Capture_referer (seed "http://b/" 0 None) "http://b/"))
              (start (servers [page "text/html"; page "image/png"]))).2
           "http://b/"
           {| StatusCode := 200;
              resp_Header := list_to_map [("Content-Type", "text/html")];
              resp_Request :=
                req_Header_Set (request "http://b/") "Referer"
                  (Capture_referer (seed "http://b/" 0 None) "http://b/");
              resp_Cookies := [] |}
           ["http://b/img.png"; "http://b/"]).
  - unfold Go.uint_range. simpl. lia.
  - unfold Go.int64_range. simpl. lia.
  - reflexivity.
  - reflexivity.
  - simpl. lia.
  - vm_compute. reflexivity.
  - vm_compute. reflexivity.
  - reflexivity.
  - reflexivity.
  - intros _. exists ["http://c/"]. reflexivity.
  - reflexivity.
Defined.

(** What the log of a capture shows as queued.  The page http://b/ has
    three assets, the second being the page itself, which is skipped; the
    servers answer the page and the first asset, and the third asset gets
    no answer.  The record of the page carries the counter as it was, 0;
    the record of the first asset carries 2, which is 3 - 1; the counter
    is back at 0 when [Capture] returns. *)
Example Capture_queued_in_log :
  let three_assets (c : Crawl) (base : url_URL) (doc : goquery_Document)
    : list url_URL + error := inl ["http://b/img.png"; "http://b/"; "http://b/s.css"] in
  let run :=
    Capture no_outlink three_assets config (seed "http://b/" 0 None)
      (start (servers [page "text/html"; page "image/png"])) in
  run.1 = Ok tt /\
  QueueCount run.2 = 0 /\
  omap (fun e => match e with
                 | EvLogSuccess u _ _ _ queued => Some (u, queued)
                 | _ => None
                 end) (trace run.2) = [("http://b/", 0); ("http://b/img.png", 2)].
Proof. cbv zeta. repeat split; vm_compute; reflexivity. Qed.

Lemma kafkaProducer_produce_error_pushes_witness :
  let w := {| responses := []; messages := []; broker_down := true;
              finished := false; active_workers := 0; store_down := false |} in
  let a := seed "http://a/" 0 None in
  let b := seed "http://b/" 1 (Some a) in
  let m := {| URL := "http://a/"; HopsCount := 0; ParentURL := "" |} in
  (exists s1 (evs : list Event),
     produceItem config a (set_world w (start w)) = (Ok tt, s1) /\
     crawl_world s1 = w /\
     PushChan s1 = PushChan (start w) ++ [a] /\
     trace s1 = trace (start w) ++ evs /\
     In (EvProduce a (message_value m) (Some "broker unreachable")) evs /\
     kafkaProducer_loop config [a; b] (start w) = kafkaProducer_loop config [b] s1) /\
  (exists l,
     PushChan (kafkaProducer_loop config [a; b] (start w)).2 =
       PushChan (start w) ++ a :: l) /\
  (forall s0,
     kafka_NewProducer (crawl_world s0) = (None, crawl_world (start w)) ->
     start w = set_world (crawl_world (start w)) s0 ->
     exists l,
       PushChan (kafkaProducer config [a; b] s0).2 = PushChan s0 ++ a :: l).
Proof.
  cbv zeta.
  apply (kafkaProducer_produce_error_pushes config
           (seed "http://a/" 0 None)
           [seed "http://b/" 1 (Some (seed "http://a/" 0 None))]
           (start {| responses := []; messages := []; broker_down := true;
                     finished := false; active_workers := 0; store_down := false |})
           {| responses := []; messages := []; broker_down := true;
              finished := false; active_workers := 0; store_down := false |}
           {| URL := "http://a/"; HopsCount := 0; ParentURL := "" |}
           "broker unreachable"
           {| responses := []; messages := []; broker_down := true;
              finished := false; active_workers := 0; store_down := false |}).
  - reflexivity.
  - reflexivity.
  - reflexivity.
Defined.

(** With the broker unreachable throughout, a producer started on two
    outlinks calls [Produce] for each, leaves both on the push channel, in
    order, and flushes and closes. *)
Example kafkaProducer_unreachable_broker :
  let w := {| responses := []; messages := []; broker_down := true;
              finished := false; active_workers := 0; store_down := false |} in
  let a := seed "http://a/" 0 None in
  let b := seed "http://b/" 1 (Some a) in
  PushChan (kafkaProducer config [a; b] (start w)).2 = [a; b] /\
  produced (trace (kafkaProducer config [a; b] (start w)).2) = [a; b] /\
  List.filter (fun e => match e with EvFlush _ | EvClose => true | _ => false end)
    (trace (kafkaProducer config [a; b] (start w)).2) = [EvFlush 15000; EvClose].
Proof. cbv zeta. repeat split; vm_compute; reflexivity. Qed.

(** The producer closes its client also when its loop panics: an item
    without URL on the outlink channel. *)
Example kafkaProducer_closes_on_panic :
  let bad := frontier.zero in
  (kafkaProducer config [bad] (start (servers []))).1 = Panic /\
  trace (kafkaProducer config [bad] (start (servers []))).2 = [EvClose].
Proof. cbv zeta. split; vm_compute; reflexivity. Qed.

(** C5, as it is stated, fails with five workers of which four are
    active.  In Go's integers 5*9/10 is 4, so [ActiveWorkers >=
    Workers*9/10] holds; the test of line 111 compares with 5 - 5/10,
    which is 5, so the turn does not sleep: it takes a slot and starts a
    goroutine at the time of the observation, and in the schedule in
    which that goroutine runs at once, its read starts at that time
    too. *)
Lemma kafkaConsumer_admission_at_four_of_five :
  let s := start (broker [inl (message "http://c/" 0 "")] 4) in
  Finished_Get (crawl_world s) = (false, crawl_world s) /\
  ActiveWorkers_Value (crawl_world s) = (4, crawl_world s) /\
  Workers config * 9 ÷ 10 <= 4 /\
  now s = 0 /\
  kafkaConsumer_turn config s =
    (Ok Continue, set_trace [EvPoolAdd; EvGoConsume 0] s) /\
  trace (kafkaConsumer_iteration config s).2 =
    [EvPoolAdd; EvReadMessage 0 15; EvLogDebug "New message received from Kafka";
     EvPoolDone].
Proof.
  cbv zeta. split; [reflexivity |]. split; [reflexivity |].
  split; [vm_compute; discriminate |]. split; [reflexivity |].
  split; vm_compute; reflexivity.
Qed.

Lemma kafkaConsumer_admission_sleeps_witness :
  let s := start (broker [inl (message "http://c/" 0 "")] 5) in
  kafkaConsumer_turn config s =
    (Ok Continue,
     set_trace (trace s ++ [EvSleep Go.time_Second])
       (set_now (now s + Go.time_Second)
          (set_world (broker [inl (message "http://c/" 0 "")] 5) s))) /\
  kafkaConsumer_iteration config s = kafkaConsumer_turn config s /\
  exists evs : list Event,
    trace (kafkaConsumer_thread 3 config s).2 =
      trace s ++ EvSleep Go.time_Second :: evs /\
    Forall (no_start_before (now s + Go.time_Second)) evs /\
    Forall (fun t => now s + Go.time_Second <= t) (consume_starts evs).
Proof.
  cbv zeta.
  apply (kafkaConsumer_admission_sleeps config
           (start (broker [inl (message "http://c/" 0 "")] 5)) 2 5
           (broker [inl (message "http://c/" 0 "")] 5)
           (broker [inl (message "http://c/" 0 "")] 5)).
  - reflexivity.
  - reflexivity.
  - vm_compute. discriminate.
Defined.

(** The thread of the loop with five workers: with five active it only
    sleeps, second after second; with four active it starts one goroutine
    per turn, at once. *)
Example kafkaConsumer_thread_runs :
  trace (kafkaConsumer_thread 2 config
           (start (broker [inl (message "http://c/" 0 "")] 5))).2 =
    [EvSleep 1000000000; EvSleep 1000000000] /\
  trace (kafkaConsumer_thread 2 config
           (start (broker [inl (message "http://c/" 0 "")] 4))).2 =
    [EvPoolAdd; EvGoConsume 0; EvPoolAdd; EvGoConsume 0].
Proof. split; vm_compute; reflexivity. Qed.
End Claims_runs.
